(** * User routes of the user-management backend: cache and uniqueness protocol

    A shallow embedding of [routes/users.js] (the six handlers mounted on
    [/users]) and of [models/User.js] (the Mongoose schema), together with the
    two services the handlers talk to: the Redis client and the Mongoose model.

    Modelling conventions.
    - A handler runs after its validation middleware; its input is the request
      the middleware let through, with string fields and a well-formed id.
      The two middlewares are modelled on their own, over the chains of
      express-validator they are made of; [isEmail] and the rendering of a
      validation error are the library's and stand as parameters.
    - JavaScript numbers are modelled by [Z]; this is exact for the integers
      whose magnitude stays under 2^53.
    - JavaScript strings are modelled by [string]; the character-class
      functions ([trim], [toLowerCase], [parseInt]) treat the ASCII range.
    - The text written to Redis by [JSON.stringify] is identified with the
      JSON value it denotes ([JSON.parse] of it gives the value back), so a
      cache entry holds a [json] value; objects are compared field by field
      in one fixed order of the fields.
    - [await] is sequencing: a handler is run to completion on a [World].
    - Every Redis call may fail; the failures are drawn from the schedule
      [faults] of the world, one element per call.  The calls on the model
      fail only for the reasons the model itself has: a validator, a unique
      index, a query the server refuses.  A collection that cannot be
      reached is not modelled, so the statements say what a failure
      leads to, and what an answer implies, not that an answer of 500
      has no other cause.
    - A run returns, with the response and the new world, the log of the
      calls it made on the two services. *)

From Stdlib Require Import ZArith List Ascii String Bool Lia.
From Stdlib Require Import DecimalString DecimalZ DecimalPos Sorted.
From stdpp Require Import base strings gmap list sorting.

Local Open Scope string_scope.
Local Open Scope Z_scope.
Local Set Warnings "-register-all".

(** ** JavaScript primitives *)

Module JS.

(** White space stripped by [String.prototype.trim] and skipped by
    [parseInt]: TAB, LF, VT, FF, CR and SP.  These are the white-space
    characters of the ASCII range; JavaScript strips some characters
    beyond it as well (the no-break space, the line separators), so
    [trim] here is that of JavaScript on ASCII text. *)
Definition is_whitespace (c : ascii) : bool :=
  match N_of_ascii c with
  | 9%N | 10%N | 11%N | 12%N | 13%N | 32%N => true
  | _ => false
  end.

Fixpoint trimStart (s : string) : string :=
  match s with
  | EmptyString => EmptyString
  | String c s' => if is_whitespace c then trimStart s' else s
  end.

Fixpoint trimEnd (s : string) : string :=
  match s with
  | EmptyString => EmptyString
  | String c s' =>
      match trimEnd s' with
      | EmptyString => if is_whitespace c then EmptyString else String c EmptyString
      | t => String c t
      end
  end.

Definition trim (s : string) : string := trimEnd (trimStart s).

(** The letters A to Z are lower-cased, every other character is kept:
    [toLowerCase] of JavaScript on ASCII text. *)
Definition lower_ascii (c : ascii) : ascii :=
  let n := N_of_ascii c in
  if ((65 <=? n) && (n <=? 90))%N then ascii_of_N (n + 32) else c.

Fixpoint toLowerCase (s : string) : string :=
  match s with
  | EmptyString => EmptyString
  | String c s' => String (lower_ascii c) (toLowerCase s')
  end.

(** Truthiness of a possibly absent string: [undefined] and the empty
    string are falsy. *)
Definition truthy (v : option string) : bool :=
  match v with
  | None => false
  | Some s => negb (String.eqb s "")
  end.

(** Value of a character as a digit, for any radix up to 36. *)
Definition digit_value (c : ascii) : option Z :=
  let n := Z.of_N (N_of_ascii c) in
  if (48 <=? n) && (n <=? 57) then Some (n - 48)
  else if (97 <=? n) && (n <=? 122) then Some (n - 87)
  else if (65 <=? n) && (n <=? 90) then Some (n - 55)
  else None.

(** The longest prefix of [s] made of digits of [radix], as a number;
    [acc] is [None] until a first digit has been read. *)
Fixpoint digits (radix : Z) (acc : option Z) (s : string) : option Z :=
  match s with
  | EmptyString => acc
  | String c s' =>
      match digit_value c with
      | Some d =>
          if d <? radix
          then digits radix (Some (radix * default 0 acc + d)) s'
          else acc
      | None => acc
      end
  end.

Definition strip_sign (s : string) : Z * string :=
  match s with
  | String "-" r => (-1, r)
  | String "+" r => (1, r)
  | _ => (1, s)
  end.

Definition strip_radix (s : string) : Z * string :=
  match s with
  | String "0" (String "x" r) => (16, r)
  | String "0" (String "X" r) => (16, r)
  | _ => (10, s)
  end.

(** [parseInt(v)] without a radix argument; [None] is [NaN].  An absent
    query parameter is [undefined], whose text has no digit.  The value
    is the one JavaScript gives as long as it is a safe integer (of
    magnitude under 2^53); beyond, JavaScript rounds. *)
Definition parseInt (v : option string) : option Z :=
  match v with
  | None => None
  | Some str =>
      let (sign, s1) := strip_sign (trimStart str) in
      let (radix, s2) := strip_radix s1 in
      option_map (Z.mul sign) (digits radix None s2)
  end.

(** [n || d] on numbers: [NaN] and zero are falsy. *)
Definition or_default (n : option Z) (d : Z) : Z :=
  match n with
  | None => d
  | Some 0 => d
  | Some k => k
  end.

(** Text of an integer inside a template literal: its decimal digits.
    JavaScript writes the safe integers so (it turns to the exponent
    form from 10^21 on). *)
Definition Number_toString (n : Z) : string :=
  NilZero.string_of_int (Z.to_int n).

(** [Math.ceil(a / b)]: the quotient is a number unless [b] is zero, in
    which case the division gives an infinity or [NaN]. *)
Definition Math_ceil_div (a b : Z) : option Z :=
  if b =? 0 then None else Some (- ((- a) / b)).

End JS.

(** ** JSON values: response bodies and cache payloads *)

Inductive json : Type :=
| JNull
| JNum (n : Z)
| JStr (s : string)
| JArr (items : list json)
| JObj (fields : list (string * json)).

(** [delete obj.key] *)
Definition delete_field (key : string) (fields : list (string * json))
  : list (string * json) :=
  List.filter (fun kv => negb (String.eqb (fst kv) key)) fields.

Definition has_field (key : string) (fields : list (string * json)) : bool :=
  existsb (fun kv => String.eqb (fst kv) key) fields.

(** Does an object anywhere inside the value carry the field [key]? *)
Fixpoint mentions (key : string) (j : json) : bool :=
  match j with
  | JArr items => existsb (mentions key) items
  | JObj fields =>
      has_field key fields
      || existsb (fun kv => mentions key (snd kv)) fields
  | _ => false
  end.

(** ** models/User.js: the schema *)

(** An [ObjectId], by its 96-bit value. *)
Definition ObjectId := N.

Record User : Type := mkUser {
  _id : ObjectId;
  userName : string;
  accountNumber : string;
  emailAddress : string;
  identityNumber : string;
  password : string;
  createdAt : Z;
  updatedAt : Z
}.

Module Schema.

(** [userName: { trim: true }] *)
Definition userName_set (v : string) : string := JS.trim v.

(** [emailAddress: { trim: true, lowercase: true }]; Mongoose runs the
    setters of a path from the last declared to the first. *)
Definition emailAddress_set (v : string) : string :=
  JS.trim (JS.toLowerCase v).

(** [required: true] on a String path rejects the empty string. *)
Definition required (v : string) : bool := negb (String.eqb v "").

Definition hex_digit (n : N) : ascii :=
  ascii_of_N (if (n <? 10)%N then 48 + n else 87 + n).

Fixpoint hex (width : nat) (n : N) : string :=
  match width with
  | O => EmptyString
  | S k => hex k (n / 16)%N +:+ String (hex_digit (n mod 16)%N) EmptyString
  end.

(** [doc.toObject()]: every stored path.  Dates are given by their
    timestamp, the id by its 24 hexadecimal digits. *)
Definition toObject (u : User) : list (string * json) :=
  [ ("_id", JStr (hex 24 (_id u)));
    ("userName", JStr (userName u));
    ("accountNumber", JStr (accountNumber u));
    ("emailAddress", JStr (emailAddress u));
    ("identityNumber", JStr (identityNumber u));
    ("password", JStr (password u));
    ("createdAt", JNum (createdAt u));
    ("updatedAt", JNum (updatedAt u));
    ("__v", JNum 0) ].

(** The JSON text of a whole document, as [res.json(doc)] and
    [JSON.stringify(doc)] produce it. *)
Definition toJSON (u : User) : json := JObj (toObject u).

(** The JSON text of a document read with [.select('-password')]. *)
Definition toJSON_minus_password (u : User) : json :=
  JObj (delete_field "password" (toObject u)).

(** All the [required] validators of the schema, run by [save]. *)
Definition validate (u : User) : bool :=
  required (userName u) && required (accountNumber u)
  && required (emailAddress u) && required (identityNumber u)
  && required (password u).

End Schema.

(** ** The world a handler runs in *)

Record CacheEntry : Type := mkEntry {
  value : json;          (* the stored text *)
  ttl : option Z         (* seconds to live; [None]: no expiry *)
}.

Record World : Type := mkWorld {
  store : list User;                 (* the users collection, in insertion order *)
  cache : gmap string CacheEntry;    (* the Redis key space *)
  faults : list bool;                (* [true]: the next Redis call fails *)
  now : Z;                           (* the clock, for the timestamps *)
  next_oid : ObjectId                (* the id the next new document gets *)
}.

Definition set_store (s : list User) (w : World) : World :=
  mkWorld s (cache w) (faults w) (now w) (next_oid w).
Definition set_cache (c : gmap string CacheEntry) (w : World) : World :=
  mkWorld (store w) c (faults w) (now w) (next_oid w).
Definition set_faults (f : list bool) (w : World) : World :=
  mkWorld (store w) (cache w) f (now w) (next_oid w).
Definition set_next_oid (n : ObjectId) (w : World) : World :=
  mkWorld (store w) (cache w) (faults w) (now w) n.

(** What a rejected promise carries. *)
Inductive Error : Type :=
| RedisError            (* the Redis client could not run the command *)
| MongoDuplicateKey     (* E11000, a unique index is violated *)
| MongoBadValue         (* the server refuses the query *)
| ValidationError       (* a schema validator failed *)
| BcryptError           (* bcrypt.hash called without a string *)
| TypeError.            (* a property of null was read *)

Definition error_code (e : Error) : option Z :=
  match e with
  | MongoDuplicateKey => Some 11000
  | MongoBadValue => Some 2
  | _ => None
  end.

(** The message an error carries.  The texts are those of the
    libraries, which the routes send as they are; the constants here
    stand for them. *)
Definition error_message (e : Error) : string :=
  match e with
  | RedisError => "The client is closed"
  | MongoDuplicateKey => "E11000 duplicate key error collection"
  | MongoBadValue => "BadValue"
  | ValidationError => "Validation failed"
  | BcryptError => "Illegal arguments"
  | TypeError => "Cannot read properties of null"
  end.

(** One condition of a query filter on the users collection. *)
Inductive Cond : Type :=
| AccountNumberIs (v : string)
| EmailAddressIs (v : string)
| IdentityNumberIs (v : string).

(** The fields of a request body the update route reads. *)
Record Updates : Type := mkUpdates {
  upd_userName : option string;
  upd_accountNumber : option string;
  upd_emailAddress : option string;
  upd_identityNumber : option string;
  upd_password : option string
}.

Inductive RedisOp : Type :=
| OpGet (key : string)
| OpSet (key : string) (v : json)
| OpSetEx (key : string) (seconds : Z) (v : json)
| OpDel (keys : list string)
| OpKeys (pattern : string).

Inductive MongoOp : Type :=
| OpFind                               (* find().select('-password').sort(..) *)
| OpFindPage (skip limit : Z)          (* the same with skip and limit *)
| OpCountDocuments
| OpSave
| OpFindOne (c : Cond)                 (* findOne(c).select('-password') *)
| OpFindById (id : ObjectId)
| OpFindOneOther (id : ObjectId) (or : list Cond)
| OpFindByIdAndUpdate (id : ObjectId) (upd : Updates)
| OpDeleteOne (id : ObjectId).

(** The calls a handler makes on the two services, in order; a Redis
    call is logged with its outcome. *)
Inductive Event : Type :=
| Redis (op : RedisOp) (ok : bool)
| Mongo (op : MongoOp).

Inductive Result (A : Type) : Type :=
| Ok (a : A)
| Throw (e : Error).
Arguments Ok {A} a.
Arguments Throw {A} e.

(** An asynchronous computation: it reads and writes the world, logs its
    calls, and resolves or rejects. *)
Definition M (A : Type) : Type := World -> Result A * World * list Event.

Definition ret {A} (a : A) : M A := fun w => (Ok a, w, []).

Definition throw {A} (e : Error) : M A := fun w => (Throw e, w, []).

Definition bind {A B} (m : M A) (f : A -> M B) : M B :=
  fun w =>
    match m w with
    | (Ok a, w1, ev1) =>
        match f a w1 with
        | (r, w2, ev2) => (r, w2, (ev1 ++ ev2)%list)
        end
    | (Throw e, w1, ev1) => (Throw e, w1, ev1)
    end.

Notation "x <- m ;; k" := (bind m (fun x => k))
  (at level 90, m at next level, right associativity).
Notation "m ;;; k" := (bind m (fun _ => k))
  (at level 90, right associativity).

Record Response : Type := mkResponse {
  status : Z;
  body : json
}.

(** [res.json(b)] and [res.status(s).json(b)] *)
Definition res_json (b : json) : Response := mkResponse 200 b.
Definition res_status_json (s : Z) (b : json) : Response := mkResponse s b.

Definition message (m : string) : json := JObj [("message", JStr m)].

(** [try { body } catch (error) { handler }] around a whole route. *)
Definition try_catch (m : M Response) (handler : Error -> Response)
  : World -> Response * World * list Event :=
  fun w =>
    match m w with
    | (Ok r, w1, ev) => (r, w1, ev)
    | (Throw e, w1, ev) => (handler e, w1, ev)
    end.

(** ** The Redis client *)

Module Redis.

(** Key patterns of [KEYS]: [*] stands for any run of characters, every
    other character of the patterns used here for itself. *)
Fixpoint glob (p s : string) : bool :=
  match p with
  | EmptyString =>
      match s with
      | EmptyString => true
      | String _ _ => false
      end
  | String "*"%char p' =>
      (fix star (t : string) : bool :=
         glob p' t
         || match t with
            | EmptyString => false
            | String _ t' => star t'
            end) s
  | String c p' =>
      match s with
      | EmptyString => false
      | String d s' => Ascii.eqb c d && glob p' s'
      end
  end.

(** One command sent to the server: it fails when the schedule says so,
    and otherwise runs on the key space. *)
Definition call {A} (op : RedisOp)
    (run : gmap string CacheEntry -> A * gmap string CacheEntry) : M A :=
  fun w =>
    let w1 := set_faults (tail (faults w)) w in
    if hd false (faults w)
    then (Throw RedisError, w1, [Redis op false])
    else
      let (a, c) := run (cache w) in
      (Ok a, set_cache c w1, [Redis op true]).

(** [redisClient.get(key)]: the stored text, or [null]. *)
Definition get (key : string) : M (option json) :=
  call (OpGet key) (fun c => (value <$> c !! key, c)).

(** [redisClient.set(key, text)]: the entry is replaced and has no expiry. *)
Definition set (key : string) (v : json) : M unit :=
  call (OpSet key v) (fun c => (tt, <[key := mkEntry v None]> c)).

(** [redisClient.setEx(key, seconds, text)] *)
Definition setEx (key : string) (seconds : Z) (v : json) : M unit :=
  call (OpSetEx key seconds v)
       (fun c => (tt, <[key := mkEntry v (Some seconds)]> c)).

(** [redisClient.del(key)] and [redisClient.del(keys)] *)
Definition del (keys : list string) : M unit :=
  call (OpDel keys) (fun c => (tt, foldr delete c keys)).

(** [redisClient.keys(pattern)] *)
Definition keys (pattern : string) : M (list string) :=
  call (OpKeys pattern)
       (fun c => (List.filter (glob pattern) (map fst (map_to_list c)), c)).

End Redis.

(** ** The Mongoose model [User] over the collection *)

Module Model.

Definition holds (c : Cond) (u : User) : bool :=
  match c with
  | AccountNumberIs v => String.eqb (accountNumber u) v
  | EmailAddressIs v => String.eqb (emailAddress u) v
  | IdentityNumberIs v => String.eqb (identityNumber u) v
  end.

(** Mongoose casts a filter with the schema: the setters of a path run
    on the value it is compared with. *)
Definition cast (c : Cond) : Cond :=
  match c with
  | EmailAddressIs v => EmailAddressIs (Schema.emailAddress_set v)
  | _ => c
  end.

(** [.sort({ createdAt: -1 })]: newest first.  Records created at the
    same time are given in collection order, one of the orders the
    server may give them in. *)
Fixpoint insert_desc (u : User) (l : list User) : list User :=
  match l with
  | [] => [u]
  | v :: l' =>
      if createdAt v <=? createdAt u then u :: l else v :: insert_desc u l'
  end.

Definition sort_createdAt_desc (l : list User) : list User :=
  foldr insert_desc [] l.

(** [.limit(n)]: zero is no limit, a negative [n] limits to [-n]. *)
Definition limit_docs (n : Z) (l : list User) : list User :=
  if n =? 0 then l else take (Z.abs_nat n) l.

(** [User.find().select('-password').sort({ createdAt: -1 })], as the
    documents serialise. *)
Definition find : M (list json) :=
  fun w =>
    (Ok (map Schema.toJSON_minus_password (sort_createdAt_desc (store w))),
     w, [Mongo OpFind]).

(** The same query with [.skip(skip).limit(limit)]; the server refuses a
    negative skip.  The two numbers are taken to be integers that the
    server can read (safe integers). *)
Definition find_page (skip limit : Z) : M (list json) :=
  fun w =>
    if skip <? 0
    then (Throw MongoBadValue, w, [Mongo (OpFindPage skip limit)])
    else
      (Ok (map Schema.toJSON_minus_password
             (limit_docs limit
                (drop (Z.to_nat skip) (sort_createdAt_desc (store w))))),
       w, [Mongo (OpFindPage skip limit)]).

(** [User.countDocuments()] *)
Definition countDocuments : M Z :=
  fun w => (Ok (Z.of_nat (length (store w))), w, [Mongo OpCountDocuments]).

(** [User.findOne(c).select('-password')], as the document serialises;
    [None] is [null]. *)
Definition findOne_select (c : Cond) : M (option json) :=
  fun w =>
    (Ok (Schema.toJSON_minus_password <$> List.find (holds (cast c)) (store w)),
     w, [Mongo (OpFindOne c)]).

(** [User.findById(id)], for an id that is a well-formed [ObjectId]. *)
Definition findById (id : ObjectId) : M (option User) :=
  fun w =>
    (Ok (List.find (fun u => N.eqb (_id u) id) (store w)),
     w, [Mongo (OpFindById id)]).

(** [User.findOne({ _id: { $ne: id }, $or: or })]; the server refuses an
    empty [$or]. *)
Definition findOne_other (id : ObjectId) (or : list Cond) : M (option User) :=
  fun w =>
    match or with
    | [] => (Throw MongoBadValue, w, [Mongo (OpFindOneOther id or)])
    | _ =>
        (Ok (List.find
               (fun u => negb (N.eqb (_id u) id)
                         && existsb (fun c => holds (cast c) u) or)
               (store w)),
         w, [Mongo (OpFindOneOther id or)])
    end.

(** [new User({ ... })]: a fresh id, and the setters run on the paths. *)
Definition new_User (name account email identity pass : string) : M User :=
  fun w =>
    (Ok (mkUser (next_oid w) (Schema.userName_set name) account
           (Schema.emailAddress_set email) identity pass 0 0),
     set_next_oid (next_oid w + 1)%N w, []).

(** Two documents that a unique index keeps apart. *)
Definition clashes (u v : User) : bool :=
  N.eqb (_id u) (_id v)
  || String.eqb (accountNumber u) (accountNumber v)
  || String.eqb (emailAddress u) (emailAddress v)
  || String.eqb (identityNumber u) (identityNumber v).

(** [user.save()] of a new document: validation, then the insert under
    the unique indexes, with the timestamps of [timestamps: true]. *)
Definition save (u : User) : M User :=
  fun w =>
    if negb (Schema.validate u)
    then (Throw ValidationError, w, [Mongo OpSave])
    else if existsb (clashes u) (store w)
    then (Throw MongoDuplicateKey, w, [Mongo OpSave])
    else
      let doc := mkUser (_id u) (userName u) (accountNumber u)
                   (emailAddress u) (identityNumber u) (password u)
                   (now w) (now w) in
      (Ok doc, set_store (store w ++ [doc])%list w, [Mongo OpSave]).

(** Casting of [{ $set: updates }]: the setters run on the new values. *)
Definition cast_update (upd : Updates) : Updates :=
  mkUpdates (Schema.userName_set <$> upd_userName upd)
            (upd_accountNumber upd)
            (Schema.emailAddress_set <$> upd_emailAddress upd)
            (upd_identityNumber upd)
            (upd_password upd).

(** [runValidators: true]: the validators of the paths being set. *)
Definition update_valid (upd : Updates) : bool :=
  forallb (from_option Schema.required true)
    [ upd_userName upd; upd_accountNumber upd; upd_emailAddress upd;
      upd_identityNumber upd; upd_password upd ].

(** [$set]: the paths given are replaced, the others kept. *)
Definition apply_set (upd : Updates) (t : Z) (u : User) : User :=
  mkUser (_id u)
         (default (userName u) (upd_userName upd))
         (default (accountNumber u) (upd_accountNumber upd))
         (default (emailAddress u) (upd_emailAddress upd))
         (default (identityNumber u) (upd_identityNumber upd))
         (default (password u) (upd_password upd))
         (createdAt u) t.

(** A unique index refuses the write of [u'] over [u] when an indexed
    path changes to a value that [v] holds. *)
Definition index_clash (u u' v : User) : bool :=
  (negb (String.eqb (accountNumber u) (accountNumber u'))
   && String.eqb (accountNumber v) (accountNumber u'))
  || (negb (String.eqb (emailAddress u) (emailAddress u'))
      && String.eqb (emailAddress v) (emailAddress u'))
  || (negb (String.eqb (identityNumber u) (identityNumber u'))
      && String.eqb (identityNumber v) (identityNumber u')).

Fixpoint replace_first (id : ObjectId) (u' : User) (l : list User) : list User :=
  match l with
  | [] => []
  | v :: l' => if N.eqb (_id v) id then u' :: l' else v :: replace_first id u' l'
  end.

Fixpoint remove_first (id : ObjectId) (l : list User) : list User :=
  match l with
  | [] => []
  | v :: l' => if N.eqb (_id v) id then l' else v :: remove_first id l'
  end.

(** [User.findByIdAndUpdate(id, { $set: updates },
    { new: true, runValidators: true })]: the updated document, or [null]
    when no document has the id. *)
Definition findByIdAndUpdate (id : ObjectId) (updates : Updates)
  : M (option User) :=
  fun w =>
    let upd := cast_update updates in
    let ev := [Mongo (OpFindByIdAndUpdate id updates)] in
    if negb (update_valid upd) then (Throw ValidationError, w, ev)
    else
      match List.find (fun u => N.eqb (_id u) id) (store w) with
      | None => (Ok None, w, ev)
      | Some u =>
          let u' := apply_set upd (now w) u in
          if existsb (fun v => negb (N.eqb (_id v) id) && index_clash u u' v)
               (store w)
          then (Throw MongoDuplicateKey, w, ev)
          else (Ok (Some u'), set_store (replace_first id u' (store w)) w, ev)
      end.

(** [user.deleteOne()] *)
Definition deleteOne (u : User) : M unit :=
  fun w =>
    (Ok tt, set_store (remove_first (_id u) (store w)) w,
     [Mongo (OpDeleteOne (_id u))]).

End Model.

(** ** routes/users.js: the six handlers *)

Record ListQuery : Type := mkListQuery {
  q_page : option string;
  q_limit : option string;
  q_paginate : option string
}.

Record CreateBody : Type := mkCreateBody {
  body_userName : string;
  body_accountNumber : string;
  body_emailAddress : string;
  body_identityNumber : string;
  body_password : option string
}.

Definition Handler : Type := World -> Response * World * list Event.

Definition server_error : Response :=
  res_status_json 500 (message "Server error").

Definition not_found : Response :=
  res_status_json 404 (message "User not found").

(** [parseInt(v) !== 0] *)
Definition is_not_zero (n : option Z) : bool :=
  match n with
  | Some 0 => false
  | _ => true
  end.

Definition list_page (q : ListQuery) : Z :=
  JS.or_default (JS.parseInt (q_page q)) 1.

Definition list_limit (q : ListQuery) : Z :=
  JS.or_default (JS.parseInt (q_limit q)) 10.

Definition list_key (page limit : Z) : string :=
  "users:list:" +:+ JS.Number_toString page +:+ ":" +:+ JS.Number_toString limit.

Definition number_or_null (n : option Z) : json :=
  match n with
  | Some k => JNum k
  | None => JNull
  end.

Definition pagination (page limit total : Z) : json :=
  JObj [ ("currentPage", JNum page);
         ("totalPages", number_or_null (JS.Math_ceil_div total limit));
         ("totalItems", JNum total);
         ("itemsPerPage", JNum limit) ].

(** [router.get('/')] *)
Definition get_users (q : ListQuery) : Handler :=
  try_catch
    (let paginate := is_not_zero (JS.parseInt (q_paginate q)) in
     if negb paginate then
       let cacheKey := "users:list:all" in
       cachedData <- Redis.get cacheKey ;;
       match cachedData with
       | Some data => ret (res_json data)
       | None =>
           users <- Model.find ;;
           Redis.setEx cacheKey 300 (JObj [("users", JArr users)]) ;;;
           ret (res_json (JObj [("users", JArr users)]))
       end
     else
       let page := list_page q in
       let limit := list_limit q in
       let skip := (page - 1) * limit in
       let cacheKey := list_key page limit in
       cachedData <- Redis.get cacheKey ;;
       match cachedData with
       | Some data => ret (res_json data)
       | None =>
           users <- Model.find_page skip limit ;;
           total <- Model.countDocuments ;;
           let response :=
             JObj [ ("users", JArr users);
                    ("pagination", pagination page limit total) ] in
           Redis.setEx cacheKey 300 response ;;;
           ret (res_json response)
       end)
    (fun _ => server_error).

Section Create.

(** [bcrypt.hash(password, 10)] on a string; the salt is the library's. *)
Variable bcrypt_hash : string -> string.

Definition hash (pass : option string) : M string :=
  match pass with
  | Some p => ret (bcrypt_hash p)
  | None => throw BcryptError
  end.

(** [router.post('/')]; the [validationResult] check the handler repeats
    is void for a request that passed the middleware. *)
Definition post_users (b : CreateBody) : Handler :=
  try_catch
    (hashedPassword <- hash (body_password b) ;;
     user <- Model.new_User (body_userName b) (body_accountNumber b)
               (body_emailAddress b) (body_identityNumber b) hashedPassword ;;
     user <- Model.save user ;;
     let userCache := JObj (delete_field "password" (Schema.toObject user)) in
     Redis.set ("user:" +:+ body_accountNumber b) userCache ;;;
     Redis.set ("user:identity:" +:+ body_identityNumber b) userCache ;;;
     cacheKeys <- Redis.keys "users:list:*" ;;
     (if (0 <? Z.of_nat (length cacheKeys)) then Redis.del cacheKeys else ret tt) ;;;
     ret (res_status_json 201 (message "User created successfully")))
    (fun error =>
       match error_code error with
       | Some 11000 => res_status_json 400 (message "Duplicate entry found")
       | _ => server_error
       end).

End Create.

(** [router.get('/account/:accountNumber')] *)
Definition get_users_account (accountNumber : string) : Handler :=
  try_catch
    (cachedUser <- Redis.get ("user:" +:+ accountNumber) ;;
     match cachedUser with
     | Some data => ret (res_json data)
     | None =>
         user <- Model.findOne_select (AccountNumberIs accountNumber) ;;
         match user with
         | None => ret not_found
         | Some doc =>
             Redis.set ("user:" +:+ accountNumber) doc ;;;
             ret (res_json doc)
         end
     end)
    (fun _ => server_error).

(** [router.get('/identity/:identityNumber')] *)
Definition get_users_identity (identityNumber : string) : Handler :=
  try_catch
    (cachedUser <- Redis.get ("user:identity:" +:+ identityNumber) ;;
     match cachedUser with
     | Some data => ret (res_json data)
     | None =>
         user <- Model.findOne_select (IdentityNumberIs identityNumber) ;;
         match user with
         | None => ret not_found
         | Some doc =>
             Redis.set ("user:identity:" +:+ identityNumber) doc ;;;
             ret (res_json doc)
         end
     end)
    (fun _ => server_error).

(** The [$or] array of the update route: one condition for each truthy
    field among the three unique ones. *)
Definition or_conditions (updates : Updates) : list Cond :=
  ((if JS.truthy (upd_accountNumber updates)
    then [AccountNumberIs (default "" (upd_accountNumber updates))] else [])
   ++ (if JS.truthy (upd_emailAddress updates)
       then [EmailAddressIs (default "" (upd_emailAddress updates))] else [])
   ++ (if JS.truthy (upd_identityNumber updates)
       then [IdentityNumberIs (default "" (upd_identityNumber updates))] else []))%list.

Definition conflict : Response :=
  res_status_json 400
    (message "Account number, email, or identity number already in use").

(** [router.put('/:id')] *)
Definition put_users_id (userId : ObjectId) (updates : Updates) : Handler :=
  try_catch
    (user <- Model.findById userId ;;
     match user with
     | None => ret not_found
     | Some _ =>
         existingUser <-
           (if JS.truthy (upd_accountNumber updates)
               || JS.truthy (upd_emailAddress updates)
               || JS.truthy (upd_identityNumber updates)
            then Model.findOne_other userId (or_conditions updates)
            else ret None) ;;
         match existingUser with
         | Some _ => ret conflict
         | None =>
             updatedUser <- Model.findByIdAndUpdate userId updates ;;
             match updatedUser with
             | None => throw TypeError
             | Some updatedUser =>
                 Redis.del ["user:" +:+ accountNumber updatedUser] ;;;
                 Redis.del ["user:" +:+ identityNumber updatedUser] ;;;
                 ret (res_json (Schema.toJSON updatedUser))
             end
         end
     end)
    (fun error =>
       res_status_json 500
         (JObj [ ("message", JStr "Server error");
                 ("error", JStr (error_message error)) ])).

(** [router.delete('/:id')] *)
Definition delete_users_id (id : ObjectId) : Handler :=
  try_catch
    (user <- Model.findById id ;;
     match user with
     | None => ret not_found
     | Some user =>
         Redis.del ["user:" +:+ accountNumber user] ;;;
         Redis.del ["user:identity:" +:+ identityNumber user] ;;;
         cacheKeys <- Redis.keys "users:list:*" ;;
         (if (0 <? Z.of_nat (length cacheKeys)) then Redis.del cacheKeys else ret tt) ;;;
         Model.deleteOne user ;;;
         ret (res_status_json 200 (message "User deleted successfully"))
     end)
    (fun _ => server_error).

(** ** Reading the outcome of a handler *)

Definition response_of (o : Response * World * list Event) : Response :=
  fst (fst o).
Definition world_of (o : Response * World * list Event) : World :=
  snd (fst o).
Definition events_of (o : Response * World * list Event) : list Event :=
  snd o.

Definition redis_failure (e : Event) : bool :=
  match e with
  | Redis _ false => true
  | _ => false
  end.

(** Did a Redis call of the run fail? *)
Definition redis_failed (ev : list Event) : bool := existsb redis_failure ev.

(** The keys of the list snapshots, [users:list:*]. *)
Definition list_cache_key (k : string) : bool := Redis.glob "users:list:*" k.

(** ** The router *)

Inductive Request : Type :=
| GET_users (q : ListQuery)
| POST_users (b : CreateBody)
| GET_users_account (accountNumber : string)
| GET_users_identity (identityNumber : string)
| PUT_users_id (id : ObjectId) (updates : Updates)
| DELETE_users_id (id : ObjectId).

(** The dispatch of [router] on the method and the path. *)
Definition router (bcrypt_hash : string -> string) (req : Request) : Handler :=
  match req with
  | GET_users q => get_users q
  | POST_users b => post_users bcrypt_hash b
  | GET_users_account k => get_users_account k
  | GET_users_identity k => get_users_identity k
  | PUT_users_id id updates => put_users_id id updates
  | DELETE_users_id id => delete_users_id id
  end.

(** ** Vocabulary of the statements *)

(** [m] rejects with the Redis error whenever one of its Redis calls fails. *)
Definition rejects_on_redis_failure {A} (m : M A) : Prop :=
  forall w, redis_failed (snd (m w)) = true -> fst (fst (m w)) = Throw RedisError.

(** What a reader is to get of a record: every stored path but the
    password, each under its name and with its value. *)
Definition public_document (u : User) : json :=
  JObj [ ("_id", JStr (Schema.hex 24 (_id u)));
         ("userName", JStr (userName u));
         ("accountNumber", JStr (accountNumber u));
         ("emailAddress", JStr (emailAddress u));
         ("identityNumber", JStr (identityNumber u));
         ("createdAt", JNum (createdAt u));
         ("updatedAt", JNum (updatedAt u));
         ("__v", JNum 0) ].

(** What a read-through of the slot [key], backed by the query [c], does
    in the world [w] when its Redis calls work, [out] being its outcome:
    a hit is answered with the cached value as it is; on a miss the store
    decides between not-found and the document without its password,
    which is then written under [key], without expiry, by the one write
    the run makes. *)
Definition read_through (key : string) (c : Cond) (w : World)
    (out : Response * World * list Event) : Prop :=
  redis_failed (events_of out) = false ->
  store (world_of out) = store w
  /\ (forall e, cache w !! key = Some e ->
        response_of out = res_json (value e)
        /\ cache (world_of out) = cache w
        /\ events_of out = [Redis (OpGet key) true])
  /\ (cache w !! key = None ->
      List.find (Model.holds c) (store w) = None ->
        response_of out = not_found
        /\ cache (world_of out) = cache w
        /\ events_of out = [Redis (OpGet key) true; Mongo (OpFindOne c)])
  /\ (forall u, cache w !! key = None ->
      List.find (Model.holds c) (store w) = Some u ->
        let doc := public_document u in
        response_of out = res_json doc
        /\ mentions "password" doc = false
        /\ cache (world_of out) = <[key := mkEntry doc None]> (cache w)
        /\ (forall k, k <> key -> cache (world_of out) !! k = cache w !! k)
        /\ events_of out
           = [Redis (OpGet key) true; Mongo (OpFindOne c); Redis (OpSet key doc) true]).

(** The document [new User({ ... })] makes of a body whose password is
    [p], under the id [id]. *)
Definition document_of (bcrypt_hash : string -> string) (b : CreateBody)
    (p : string) (id : ObjectId) : User :=
  mkUser id (Schema.userName_set (body_userName b)) (body_accountNumber b)
    (Schema.emailAddress_set (body_emailAddress b)) (body_identityNumber b)
    (bcrypt_hash p) 0 0.

(** The string has no white space to strip at its start. *)
Definition starts_clean (s : string) : Prop :=
  match s with
  | EmptyString => True
  | String c _ => JS.is_whitespace c = false
  end.











(** The integers that a JavaScript number holds exactly. *)
Definition safe_integer (n : Z) : Prop := - 2 ^ 53 < n < 2 ^ 53.

(** The query parameter [v] asks for the number [n]: it is the decimal
    text of [n], or it is absent and [n] is the default [d]. *)
Definition asks (v : option string) (d n : Z) : Prop :=
  v = Some (JS.Number_toString n) \/ (v = None /\ n = d).

(** [other] holds, in one of the three unique fields, the value that
    [updates] asks for in that field; an email address is compared as
    the schema stores it. *)
Definition owns_requested_value (updates : Updates) (other : User) : Prop :=
  (exists v, upd_accountNumber updates = Some v /\ v <> ""
             /\ accountNumber other = v)
  \/ (exists v, upd_emailAddress updates = Some v /\ v <> ""
                /\ emailAddress other = Schema.emailAddress_set v)
  \/ (exists v, upd_identityNumber updates = Some v /\ v <> ""
                /\ identityNumber other = v).

(** [v] is a snapshot the list route writes under the key [k] when the
    collection has [total] documents. *)
Definition snapshot_of (k : string) (total : Z) (v : json) : Prop :=
  (k = "users:list:all" /\ exists users, v = JObj [("users", JArr users)])
  \/ (exists page limit users,
        k = list_key page limit
        /\ v = JObj [ ("users", JArr users);
                      ("pagination", pagination page limit total) ]).

(** Every list snapshot of the cache was taken with the present number
    of documents. *)
Definition snapshots_current (w : World) : Prop :=
  forall k e,
    list_cache_key k = true -> cache w !! k = Some e ->
    snapshot_of k (Z.of_nat (length (store w))) (value e).

(** The worlds these routes get the service into from an empty cache, by
    requests none of whose Redis calls fails.  Between two requests the
    clock and the schedule of failures may change, and an entry of the
    cache may go (expiry, eviction). *)
Inductive reachable (bcrypt_hash : string -> string) : World -> Prop :=
| reachable_cold (s : list User) (f : list bool) (t : Z) (n : ObjectId) :
    reachable bcrypt_hash (mkWorld s ∅ f t n)
| reachable_request (w : World) (req : Request) :
    reachable bcrypt_hash w ->
    redis_failed (events_of (router bcrypt_hash req w)) = false ->
    reachable bcrypt_hash (world_of (router bcrypt_hash req w))
| reachable_env (w : World) (f : list bool) (t : Z) :
    reachable bcrypt_hash w ->
    reachable bcrypt_hash (mkWorld (store w) (cache w) f t (next_oid w))
| reachable_expiry (w : World) (k : string) :
    reachable bcrypt_hash w ->
    reachable bcrypt_hash (set_cache (delete k (cache w)) w).

(** A request left the number of documents and the list snapshots as
    they were. *)
Definition keeps_snapshots (w w' : World) : Prop :=
  length (store w') = length (store w)
  /\ forall k, list_cache_key k = true -> cache w' !! k = cache w !! k.

(** A request left no list snapshot. *)
Definition clears_snapshots (w' : World) : Prop :=
  forall k, list_cache_key k = true -> cache w' !! k = None.

(** The characters of the decimal text of an integer. *)
Definition numeric_char (c : ascii) : bool :=
  let n := N_of_ascii c in
  ((48 <=? n) && (n <=? 57))%N || (n =? 45)%N.

Fixpoint numeric (s : string) : bool :=
  match s with
  | EmptyString => true
  | String c s' => numeric_char c && numeric s'
  end.

(** No entry of the cache carries a password. *)
Definition cache_password_free (w : World) : Prop :=
  forall k e, cache w !! k = Some e -> mentions "password" (value e) = false.

(** [m] keeps the cache free of passwords, and what it resolves to
    satisfies [Q]. *)
Definition keeps_password_free {A} (m : M A) (Q : A -> Prop) : Prop :=
  forall w,
    cache_password_free w ->
    cache_password_free (snd (fst (m w)))
    /\ forall a, fst (fst (m w)) = Ok a -> Q a.

(** [u] comes before [v] in a list sorted by [{ createdAt: -1 }]. *)
Definition newer_first (u v : User) : Prop := createdAt v <= createdAt u.

(** ** Sample data *)

Definition sample_hash (p : string) : string := "$2a$10$" +:+ p.

Definition alice : User :=
  mkUser 1%N "Alice" "A1" "alice@x.com" "I1" "$2a$10$secret1" 1000 1000.

Definition bob : User :=
  mkUser 2%N "Bob" "B2" "bob@x.com" "I2" "$2a$10$secret2" 2000 2000.

(** Alice is stored and nothing is cached. *)
Definition cold_world : World := mkWorld [alice] ∅ [] 3000 2%N.

(** The same, with Redis down for the next call. *)
Definition outage_world : World := mkWorld [alice] ∅ [true] 3000 2%N.

(** Alice is stored; her two slots and two list snapshots are cached. *)
Definition cached_world : World :=
  mkWorld [alice]
    (<["user:A1" := mkEntry (Schema.toJSON_minus_password alice) None]>
       (<["user:identity:I1" := mkEntry (Schema.toJSON_minus_password alice) None]>
          (<["users:list:all" :=
               mkEntry (JObj [("users", JArr [Schema.toJSON_minus_password alice])])
                 (Some 300)]>
             (<["users:list:1:10" :=
                  mkEntry
                    (JObj [ ("users", JArr [Schema.toJSON_minus_password alice]);
                            ("pagination", pagination 1 10 1) ])
                    (Some 300)]> ∅))))
    [] 3000 2%N.

(** Ida, whose account number is her identity number behind the text
    [identity:]; she is stored and nothing is cached. *)
Definition ida : User :=
  mkUser 9%N "Ida" "identity:I9" "ida@x.com" "I9" "$2a$10$secret9" 1000 1000.

Definition ida_world : World := mkWorld [ida] ∅ [] 3000 10%N.

(** Bob is stored next to Alice. *)
Definition two_users_world : World := mkWorld [alice; bob] ∅ [] 3000 3%N.

Definition carol_body : CreateBody :=
  mkCreateBody "Carol" "C3" "Carol@X.com" "I3" (Some "secret3").

(** Carol again, under another account, with her address in capitals. *)
Definition carol_again : CreateBody :=
  mkCreateBody "Caroline" "C4" "CAROL@x.com" "I4" (Some "secret4").

(** Carol, with white space around her address. *)
Definition carol_spaced : CreateBody :=
  mkCreateBody "Carol" "C3" "  Carol@X.com " "I3" (Some "secret3").


(** Bob asks for Alice's account number. *)
Definition take_A1 : Updates := mkUpdates None (Some "A1") None None None.

(** The request that renames Alice. *)
Definition rename_alice : Updates :=
  mkUpdates (Some "Alicia") None None None None.

Definition user_number (n : N) (created : Z) : User :=
  mkUser n ("user" +:+ JS.Number_toString (Z.of_N n))
    ("A" +:+ JS.Number_toString (Z.of_N n))
    ("u" +:+ JS.Number_toString (Z.of_N n) +:+ "@x.com")
    ("I" +:+ JS.Number_toString (Z.of_N n)) "$2a$10$secret" created created.

(** Five users are stored and nothing is cached. *)
Definition five_users_world : World :=
  mkWorld
    [ user_number 1 100; user_number 2 200; user_number 3 300;
      user_number 4 400; user_number 5 500 ]
    ∅ [] 3000 6%N.

Definition first_page_of_two : ListQuery :=
  mkListQuery (Some "1") (Some "2") None.

Definition second_page_of_two : ListQuery :=
  mkListQuery (Some "2") (Some "2") None.

(** ** routes/users.js: the validation middlewares *)

Module Validator.

(** One entry of [validationResult(req).array()]: the field, its value
    when the validator ran, and the message of [withMessage]. *)
Record FieldError : Type := mkFieldError {
  err_path : string;
  err_value : option string;
  err_msg : string
}.

(** The text a sanitizer or a validator is run on: [undefined] reads as
    the empty string. *)
Definition toString (v : option string) : string := default "" v.

(** A chain on one field of the body: the field as the chain leaves it
    in [req.body], and the errors it reports. *)
Definition Chain : Type := option string -> option string * list FieldError.

(** [body(path).trim().notEmpty().withMessage(msg)]: the field is
    replaced by its trimmed text, which must have a character. *)
Definition trim_notEmpty (path msg : string) : Chain :=
  fun v =>
    let t := JS.trim (toString v) in
    (Some t, if String.eqb t "" then [mkFieldError path (Some t) msg] else []).

(** [body(path).isEmail().withMessage(msg)]: a validator only, the field
    stays as it was sent. *)
Definition email (isEmail : string -> bool) (path msg : string) : Chain :=
  fun v => (v, if isEmail (toString v) then [] else [mkFieldError path v msg]).

(** [.optional()] at the head of a chain: nothing of the chain runs on a
    field that is [undefined]. *)
Definition optional (chain : Chain) : Chain :=
  fun v =>
    match v with
    | None => (None, [])
    | Some _ => chain v
    end.

End Validator.

(** The request a route handler is given: the body as the chains left
    it, and what [validationResult(req)] reads. *)
Record Req : Type := mkReq {
  req_body : Updates;
  validationResult : list Validator.FieldError
}.

Section Validation.

(** [isEmail] of validator.js, and the rendering of an error in the
    response, both the library's. *)
Variable isEmail : string -> bool.
Variable error_json : Validator.FieldError -> json.

(** [res.status(400).json({ errors: errors.array() })] *)
Definition validation_failed (errors : list Validator.FieldError) : Response :=
  res_status_json 400 (JObj [("errors", JArr (map error_json errors))]).

(** The four chains of [validateUser], in order; the password has none. *)
Definition validateUser_chains (b : Updates) : Req :=
  let (name, e1) :=
    Validator.trim_notEmpty "userName" "Username is required" (upd_userName b) in
  let (account, e2) :=
    Validator.trim_notEmpty "accountNumber" "Account number is required"
      (upd_accountNumber b) in
  let (address, e3) :=
    Validator.email isEmail "emailAddress" "Valid email address is required"
      (upd_emailAddress b) in
  let (identity, e4) :=
    Validator.trim_notEmpty "identityNumber" "Identity number is required"
      (upd_identityNumber b) in
  mkReq (mkUpdates name account address identity (upd_password b))
        (e1 ++ e2 ++ e3 ++ e4)%list.

(** The four chains of [validateUserUpdate]. *)
Definition validateUserUpdate_chains (b : Updates) : Req :=
  let (name, e1) :=
    Validator.optional
      (Validator.trim_notEmpty "userName" "Username cannot be empty if provided")
      (upd_userName b) in
  let (account, e2) :=
    Validator.optional
      (Validator.trim_notEmpty "accountNumber"
         "Account number cannot be empty if provided")
      (upd_accountNumber b) in
  let (address, e3) :=
    Validator.optional
      (Validator.email isEmail "emailAddress"
         "Valid email address is required if provided")
      (upd_emailAddress b) in
  let (identity, e4) :=
    Validator.optional
      (Validator.trim_notEmpty "identityNumber"
         "Identity number cannot be empty if provided")
      (upd_identityNumber b) in
  mkReq (mkUpdates name account address identity (upd_password b))
        (e1 ++ e2 ++ e3 ++ e4)%list.

(** [if (!errors.isEmpty()) return res.status(400).json(...)]: the last
    function of both middlewares, and the first lines of the create
    handler. *)
Definition unless_errors (req : Req) (next : Handler) : Handler :=
  match validationResult req with
  | [] => next
  | errors => fun w => (validation_failed errors, w, [])
  end.

(** [validateUser], followed by [next]. *)
Definition validateUser (next : Req -> Handler) (b : Updates) : Handler :=
  let req := validateUser_chains b in
  unless_errors req (next req).

(** [validateUserUpdate], followed by [next]. *)
Definition validateUserUpdate (next : Req -> Handler) (b : Updates) : Handler :=
  let req := validateUserUpdate_chains b in
  unless_errors req (next req).

(** [const { userName, accountNumber, emailAddress, identityNumber,
    password } = req.body].  A field that is [undefined] fares as the
    empty string does: [required] rejects both, and [save] runs before
    the text of a field is used. *)
Definition destructure (b : Updates) : CreateBody :=
  mkCreateBody (default "" (upd_userName b)) (default "" (upd_accountNumber b))
    (default "" (upd_emailAddress b)) (default "" (upd_identityNumber b))
    (upd_password b).

Variable bcrypt_hash : string -> string.

(** [router.post('/', validateUser, async (req, res) => ...)] *)
Definition post_users_route (b : Updates) : Handler :=
  validateUser
    (fun req => unless_errors req (post_users bcrypt_hash (destructure (req_body req))))
    b.

(** [router.put('/:id', validateUserUpdate, async (req, res) => ...)] *)
Definition put_users_id_route (id : ObjectId) (b : Updates) : Handler :=
  validateUserUpdate (fun req => put_users_id id (req_body req)) b.

End Validation.

(** ** More vocabulary *)

(** The unique indexes of the collection: no two documents share an id,
    an account number, an email address or an identity number. *)
Definition store_unique (l : list User) : Prop :=
  NoDup (map _id l) /\ NoDup (map accountNumber l)
  /\ NoDup (map emailAddress l) /\ NoDup (map identityNumber l).

(** [m] keeps the unique indexes. *)
Definition keeps_store_unique {A} (m : M A) : Prop :=
  forall w, store_unique (store w) -> store_unique (store (snd (fst (m w)))).

(** The documents the list route reads for [page] and [limit]. *)
Definition page_documents (page limit : Z) (l : list User) : list User :=
  Model.limit_docs limit
    (drop (Z.to_nat ((page - 1) * limit)) (Model.sort_createdAt_desc l)).

(** The key under which the list route looks for, and leaves, the
    answer to the query [q]. *)
Definition list_request_key (q : ListQuery) : string :=
  if is_not_zero (JS.parseInt (q_paginate q))
  then list_key (list_page q) (list_limit q)
  else "users:list:all".

(** The document a create stores for a body whose password is [p]:
    [document_of] with the timestamps of the save. *)
Definition stored_document (bcrypt_hash : string -> string) (b : CreateBody)
    (p : string) (w : World) : User :=
  mkUser (next_oid w) (Schema.userName_set (body_userName b))
    (body_accountNumber b) (Schema.emailAddress_set (body_emailAddress b))
    (body_identityNumber b) (bcrypt_hash p) (now w) (now w).

(** The answer of the create route to the duplicate-key error. *)
Definition duplicate_entry : Response :=
  res_status_json 400 (message "Duplicate entry found").

(** The world after the requests [reqs], served one after the other. *)
Definition serve (bcrypt_hash : string -> string) (reqs : list Request)
    (w : World) : World :=
  foldl (fun w req => world_of (router bcrypt_hash req w)) w reqs.

(** The answer the list route computes for the query [q] from the
    collection [l]. *)
Definition list_answer (q : ListQuery) (l : list User) : json :=
  if is_not_zero (JS.parseInt (q_paginate q))
  then
    JObj [ ("users",
            JArr (map Schema.toJSON_minus_password
                    (page_documents (list_page q) (list_limit q) l)));
           ("pagination",
            pagination (list_page q) (list_limit q) (Z.of_nat (length l))) ]
  else
    JObj [ ("users",
            JArr (map Schema.toJSON_minus_password (Model.sort_createdAt_desc l))) ].

(** In the three unique fields, [updates] asks only for values that the
    record [u] has already; an email address is compared as the schema
    stores it. *)
Definition asks_own_values (updates : Updates) (u : User) : Prop :=
  (forall v, upd_accountNumber updates = Some v -> v = accountNumber u)
  /\ (forall v, upd_emailAddress updates = Some v ->
                Schema.emailAddress_set v = emailAddress u)
  /\ (forall v, upd_identityNumber updates = Some v -> v = identityNumber u).

(** The time to live the routes give an entry under the key [k]: five
    minutes for a list snapshot, none for a point slot. *)
Definition ttl_of_key (k : string) : option Z :=
  if list_cache_key k then Some 300 else None.

(** Every entry of the cache has the time to live of its key. *)
Definition ttl_discipline (w : World) : Prop :=
  forall k e, cache w !! k = Some e -> ttl e = ttl_of_key k.

(** [m] keeps [P] true of every entry of the cache. *)
Definition keeps_entries (P : string -> CacheEntry -> Prop) {A} (m : M A)
  : Prop :=
  forall w,
    (forall k e, cache w !! k = Some e -> P k e) ->
    forall k e, cache (snd (fst (m w))) !! k = Some e -> P k e.

(** The answer of the update route to an error it caught, [msg] being
    the message of the error. *)
Definition update_error (msg : string) : Response :=
  res_status_json 500
    (JObj [ ("message", JStr "Server error"); ("error", JStr msg) ]).

(** ** More sample data *)

(** The text has an [@]. *)
Fixpoint has_at (s : string) : bool :=
  match s with
  | EmptyString => false
  | String c s' => Ascii.eqb c "@" || has_at s'
  end.

(** A stand-in for [isEmail] in the examples: the text starts with a
    character that is neither white space nor [@], and has an [@] further
    on. *)
Definition sample_isEmail (s : string) : bool :=
  match s with
  | EmptyString => false
  | String c s' => negb (JS.is_whitespace c) && negb (Ascii.eqb c "@") && has_at s'
  end.

(** A rendering of a validation error, for the examples. *)
Definition sample_error_json (e : Validator.FieldError) : json :=
  JObj [ ("msg", JStr (Validator.err_msg e));
         ("path", JStr (Validator.err_path e)) ].

(** Carol's request as it is sent, with spaces around the account number. *)
Definition carol_request : Updates :=
  mkUpdates (Some " Carol ") (Some " C3 ") (Some "Carol@X.com") (Some "I3")
    (Some "secret3").

(** Alice moves to the account number A9. *)
Definition move_alice : Updates := mkUpdates None (Some "A9") None None None.

(** The five users, after the first page of two has been listed. *)
Definition listed_world : World :=
  world_of (get_users first_page_of_two five_users_world).

(** Alice sends her own account number and address back, with a new name. *)
Definition alice_again : Updates :=
  mkUpdates (Some "Alicia") (Some "A1") (Some "Alice@X.com") None None.

(** Nina, whose account number is her identity number; she is stored
    and her account slot is cached.  She moves to the account number
    N2. *)
Definition nina : User :=
  mkUser 7%N "Nina" "N1" "nina@x.com" "N1" "$2a$10$secret7" 1000 1000.

Definition nina_world : World :=
  mkWorld [nina] (<["user:N1" := mkEntry (public_document nina) None]> ∅)
    [] 3000 8%N.

Definition move_nina : Updates :=
  mkUpdates None (Some "N2") None None None.

(** An update that sets the password to the empty string. *)
Definition empty_password : Updates := mkUpdates None None None None (Some "").

(** Dora, who shares no value with the five users. *)
Definition dora_body : CreateBody :=
  mkCreateBody "Dora" "D9" "dora@x.com" "J9" (Some "secret9").

(** * Properties *)

(** ** Strings, keys and patterns *)

Lemma glob_star (s : string) : Redis.glob "*" s = true.
Proof.
  induction s as [|c s IH]; simpl in *; [reflexivity|].
  destruct s; simpl in *; assumption.
Qed.

Lemma list_cache_key_prefix (k : string) :
  list_cache_key k = true <-> exists t, k = "users:list:" +:+ t.
Proof.
  unfold list_cache_key. split.
  - intros H.
    do 11 (destruct k as [|? k]; [discriminate H|];
           cbn -[Ascii.eqb] in H; apply andb_prop in H as [Hc H];
           apply Ascii.eqb_eq in Hc; subst).
    exists k. reflexivity.
  - intros [t ->]. simpl. change (Redis.glob "*" t = true). apply glob_star.
Qed.

Lemma point_key_not_list_key (x : string) : list_cache_key ("user:" +:+ x) = false.
Proof. reflexivity. Qed.

Lemma list_key_is_list_cache_key (page limit : Z) :
  list_cache_key (list_key page limit) = true.
Proof. apply list_cache_key_prefix. eexists. reflexivity. Qed.


(** ** Serialisation *)

Lemma toJSON_minus_password_clean (u : User) :
  mentions "password" (Schema.toJSON_minus_password u) = false.
Proof. reflexivity. Qed.

Lemma toJSON_leaks_password (u : User) :
  mentions "password" (Schema.toJSON u) = true.
Proof. reflexivity. Qed.

(** ** Redis failures reject the computation *)

Create HintDb redis discriminated.

Lemma ret_rejects {A} (a : A) : rejects_on_redis_failure (ret a).
Proof. intros w H. discriminate H. Qed.

Lemma throw_rejects {A} (e : Error) : rejects_on_redis_failure (@throw A e).
Proof. intros w H. discriminate H. Qed.

Lemma call_rejects {A} (op : RedisOp)
    (run : gmap string CacheEntry -> A * gmap string CacheEntry) :
  rejects_on_redis_failure (Redis.call op run).
Proof.
  intros w. unfold Redis.call.
  destruct (hd false (faults w)); [reflexivity|].
  destruct (run (cache w)). intros H. discriminate H.
Qed.

Lemma bind_rejects {A B} (m : M A) (f : A -> M B) :
  rejects_on_redis_failure m ->
  (forall a, rejects_on_redis_failure (f a)) ->
  rejects_on_redis_failure (bind m f).
Proof.
  intros Hm Hf w. unfold bind.
  specialize (Hm w). destruct (m w) as [[[a|e] w1] ev1]; simpl in *.
  - specialize (Hf a w1). destruct (f a w1) as [[r w2] ev2]; simpl in *.
    unfold redis_failed in *. rewrite existsb_app.
    destruct (existsb redis_failure ev1); [discriminate (Hm eq_refl)|].
    exact Hf.
  - intros H. specialize (Hm H). congruence.
Qed.

Lemma mongo_only_rejects {A} (m : M A) :
  (forall w, redis_failed (snd (m w)) = false) -> rejects_on_redis_failure m.
Proof. intros H w Hf. rewrite H in Hf. discriminate Hf. Qed.

Lemma find_rejects : rejects_on_redis_failure Model.find.
Proof. apply mongo_only_rejects. reflexivity. Qed.

Lemma find_page_rejects (skip limit : Z) :
  rejects_on_redis_failure (Model.find_page skip limit).
Proof.
  apply mongo_only_rejects. intros w. unfold Model.find_page.
  destruct (skip <? 0); reflexivity.
Qed.

Lemma countDocuments_rejects : rejects_on_redis_failure Model.countDocuments.
Proof. apply mongo_only_rejects. reflexivity. Qed.

Lemma findOne_select_rejects (c : Cond) :
  rejects_on_redis_failure (Model.findOne_select c).
Proof. apply mongo_only_rejects. reflexivity. Qed.

Lemma findById_rejects (id : ObjectId) :
  rejects_on_redis_failure (Model.findById id).
Proof. apply mongo_only_rejects. reflexivity. Qed.

Lemma findOne_other_rejects (id : ObjectId) (or : list Cond) :
  rejects_on_redis_failure (Model.findOne_other id or).
Proof.
  apply mongo_only_rejects. intros w. unfold Model.findOne_other.
  destruct or; reflexivity.
Qed.

Lemma new_User_rejects (n a e i p : string) :
  rejects_on_redis_failure (Model.new_User n a e i p).
Proof. apply mongo_only_rejects. reflexivity. Qed.

Lemma save_rejects (u : User) : rejects_on_redis_failure (Model.save u).
Proof.
  apply mongo_only_rejects. intros w. unfold Model.save.
  destruct (negb (Schema.validate u)); [reflexivity|].
  destruct (existsb (Model.clashes u) (store w)); reflexivity.
Qed.

Lemma findByIdAndUpdate_rejects (id : ObjectId) (upd : Updates) :
  rejects_on_redis_failure (Model.findByIdAndUpdate id upd).
Proof.
  apply mongo_only_rejects. intros w. unfold Model.findByIdAndUpdate.
  destruct (negb (Model.update_valid (Model.cast_update upd))); [reflexivity|].
  destruct (List.find _ (store w)); [|reflexivity].
  destruct (existsb _ (store w)); reflexivity.
Qed.

Lemma deleteOne_rejects (u : User) : rejects_on_redis_failure (Model.deleteOne u).
Proof. apply mongo_only_rejects. reflexivity. Qed.

Lemma hash_rejects (h : string -> string) (p : option string) :
  rejects_on_redis_failure (hash h p).
Proof. destruct p; [apply ret_rejects | apply throw_rejects]. Qed.

#[local] Hint Resolve ret_rejects throw_rejects call_rejects find_rejects
  find_page_rejects countDocuments_rejects findOne_select_rejects
  findById_rejects findOne_other_rejects new_User_rejects save_rejects
  findByIdAndUpdate_rejects deleteOne_rejects hash_rejects : redis.

(** A route whose body rejects on a Redis failure answers with what its
    [catch] makes of the Redis error. *)
Lemma try_catch_redis_failure (m : M Response) (handler : Error -> Response)
    (w : World) :
  rejects_on_redis_failure m ->
  redis_failed (events_of (try_catch m handler w)) = true ->
  response_of (try_catch m handler w) = handler RedisError.
Proof.
  intros Hm. unfold try_catch, events_of, response_of.
  specialize (Hm w). destruct (m w) as [[[r|e] w1] ev]; simpl in *.
  - intros H. discriminate (Hm H).
  - intros H. specialize (Hm H). congruence.
Qed.

(** Walks through the body of a route, one [await] after the other. *)
Ltac rejects :=
  repeat first
    [ apply bind_rejects; [|intros]
    | progress (unfold Redis.get, Redis.set, Redis.setEx, Redis.del, Redis.keys)
    | solve [auto with redis]
    | match goal with
      | |- rejects_on_redis_failure (match ?x with _ => _ end) => destruct x
      | |- rejects_on_redis_failure (if ?b then _ else _) => destruct b
      end ].

Lemma get_users_rejects (q : ListQuery) (w : World) :
  redis_failed (events_of (get_users q w)) = true ->
  response_of (get_users q w) = server_error.
Proof.
  apply (try_catch_redis_failure _ (fun _ => server_error)).
  cbv zeta. rejects.
Qed.

Lemma post_users_rejects (h : string -> string) (b : CreateBody) (w : World) :
  redis_failed (events_of (post_users h b w)) = true ->
  response_of (post_users h b w) = server_error.
Proof.
  unfold post_users. intros H.
  apply try_catch_redis_failure in H; [exact H|]. rejects.
Qed.

Lemma get_users_account_rejects (k : string) (w : World) :
  redis_failed (events_of (get_users_account k w)) = true ->
  response_of (get_users_account k w) = server_error.
Proof.
  apply (try_catch_redis_failure _ (fun _ => server_error)). rejects.
Qed.

Lemma get_users_identity_rejects (k : string) (w : World) :
  redis_failed (events_of (get_users_identity k w)) = true ->
  response_of (get_users_identity k w) = server_error.
Proof.
  apply (try_catch_redis_failure _ (fun _ => server_error)). rejects.
Qed.

Lemma put_users_id_rejects (id : ObjectId) (upd : Updates) (w : World) :
  redis_failed (events_of (put_users_id id upd w)) = true ->
  response_of (put_users_id id upd w) =
    res_status_json 500
      (JObj [ ("message", JStr "Server error");
              ("error", JStr (error_message RedisError)) ]).
Proof.
  unfold put_users_id. intros H.
  apply try_catch_redis_failure in H; [exact H|]. rejects.
Qed.

Lemma delete_users_id_rejects (id : ObjectId) (w : World) :
  redis_failed (events_of (delete_users_id id w)) = true ->
  response_of (delete_users_id id w) = server_error.
Proof.
  apply (try_catch_redis_failure _ (fun _ => server_error)). rejects.
Qed.

(** ** C3: a Redis failure fails the request *)

(** C3, counterexample.  The store holds the user with account number
    [A1] and the cache is empty, so the request can be answered by the
    store alone: it is, with status 200, when the [GET] on Redis works.
    When that [GET] fails the same request answers 500: the failure is
    not handled as a miss. *)
Lemma cache_failure_fails_request :
  List.find (Model.holds (AccountNumberIs "A1")) (store outage_world) = Some alice
  /\ events_of (get_users_account "A1" outage_world)
     = [Redis (OpGet "user:A1") false]
  /\ response_of (get_users_account "A1" outage_world) = server_error
  /\ response_of (get_users_account "A1" (set_faults [] outage_world))
     = res_json (Schema.toJSON_minus_password alice).
Proof. repeat split. Qed.

(** C3, as amended.  On every route, when a Redis call of the request
    fails the request fails: the response has status 500 and the generic
    message [Server error].  No route catches the Redis error apart. *)
Theorem redis_failure_is_server_error
    (bcrypt_hash : string -> string) (req : Request) (w : World) :
  redis_failed (events_of (router bcrypt_hash req w)) = true ->
  status (response_of (router bcrypt_hash req w)) = 500
  /\ exists rest,
       body (response_of (router bcrypt_hash req w))
       = JObj (("message", JStr "Server error") :: rest).
Proof.
  intros H. destruct req; simpl in *.
  - rewrite (get_users_rejects _ _ H). eauto.
  - rewrite (post_users_rejects _ _ _ H). eauto.
  - rewrite (get_users_account_rejects _ _ H). eauto.
  - rewrite (get_users_identity_rejects _ _ H). eauto.
  - rewrite (put_users_id_rejects _ _ _ H). eauto.
  - rewrite (delete_users_id_rejects _ _ H). eauto.
Qed.

Lemma redis_failure_is_server_error_witness :
  status (response_of (router sample_hash (GET_users_account "A1") outage_world)) = 500
  /\ exists rest,
       body (response_of (router sample_hash (GET_users_account "A1") outage_world))
       = JObj (("message", JStr "Server error") :: rest).
Proof.
  apply (redis_failure_is_server_error sample_hash (GET_users_account "A1") outage_world).
  reflexivity.
Defined.

(** A create whose first [SET] fails answers 500 although the document
    has been saved; the save is not undone. *)
Example create_is_kept_when_redis_fails :
  response_of (post_users sample_hash carol_body outage_world) = server_error
  /\ events_of (post_users sample_hash carol_body outage_world)
     = [ Mongo OpSave;
         Redis (OpSet "user:C3"
                  (Schema.toJSON_minus_password
                     (mkUser 2%N "Carol" "C3" "carol@x.com" "I3"
                        "$2a$10$secret3" 3000 3000))) false ]
  /\ accountNumber <$> store (world_of (post_users sample_hash carol_body outage_world))
     = ["A1"; "C3"].
Proof. vm_compute. repeat split. Qed.

(** ** C4: the read-through of the two point lookups *)

(** Runs the next Redis call of the goal on both outcomes. *)
Ltac next_fault :=
  match goal with
  | H : context [hd false ?l] |- _ =>
      destruct l as [|[] ?]; cbn [hd tail] in *
  | |- context [hd false ?l] =>
      destruct l as [|[] ?]; cbn [hd tail] in *
  end.

(** Names the fields of the world the route starts in. *)
Ltac open_world w :=
  destruct w as [store0 cache0 faults0 now0 next_oid0];
  cbn [store cache faults now next_oid set_faults set_cache set_store] in *.

Lemma get_users_account_read_through (k : string) (w : World) :
  read_through ("user:" +:+ k) (AccountNumberIs k) w (get_users_account k w).
Proof.
  unfold read_through, get_users_account, try_catch, bind, Redis.get,
    Redis.set, Redis.call, Model.findOne_select, response_of, world_of,
    events_of.
  open_world w. intros Hok.
  next_fault; try discriminate Hok.
  all: destruct (cache0 !! ("user:" +:+ k)) as [e|] eqn:Hc; cbn in *.
  all: try (repeat split; intros; simplify_eq; done).
  all: destruct (find (Model.holds (AccountNumberIs k)) store0) as [u|] eqn:Hf;
    cbn in *.
  all: try (repeat split; intros; simplify_eq; done).
  all: try next_fault; try discriminate Hok.
  all: repeat split; intros; simplify_eq; cbn; try done.
  all: by rewrite lookup_insert_ne.
Qed.

Lemma get_users_identity_read_through (k : string) (w : World) :
  read_through ("user:identity:" +:+ k) (IdentityNumberIs k) w
    (get_users_identity k w).
Proof.
  unfold read_through, get_users_identity, try_catch, bind, Redis.get,
    Redis.set, Redis.call, Model.findOne_select, response_of, world_of,
    events_of.
  open_world w. intros Hok.
  next_fault; try discriminate Hok.
  all: destruct (cache0 !! ("user:identity:" +:+ k)) as [e|] eqn:Hc; cbn in *.
  all: try (repeat split; intros; simplify_eq; done).
  all: destruct (find (Model.holds (IdentityNumberIs k)) store0) as [u|] eqn:Hf;
    cbn in *.
  all: try (repeat split; intros; simplify_eq; done).
  all: try next_fault; try discriminate Hok.
  all: repeat split; intros; simplify_eq; cbn; try done.
  all: by rewrite lookup_insert_ne.
Qed.

(** The two slots of one record are one and the same key exactly when the
    account number is the identity number behind the text [identity:]. *)
Lemma slots_coincide (account identity : string) :
  "user:" +:+ account = "user:identity:" +:+ identity
  <-> account = "identity:" +:+ identity.
Proof.
  split; intros H.
  - by simplify_eq/=.
  - by subst.
Qed.

Lemma holds_account (k : string) (l : list User) (u : User) :
  List.find (Model.holds (AccountNumberIs k)) l = Some u -> accountNumber u = k.
Proof. intros H. apply find_some in H as [_ H]. by apply String.eqb_eq. Qed.

Lemma holds_identity (k : string) (l : list User) (u : User) :
  List.find (Model.holds (IdentityNumberIs k)) l = Some u -> identityNumber u = k.
Proof. intros H. apply find_some in H as [_ H]. by apply String.eqb_eq. Qed.

(** C4, counterexample.  Ida's account number is [identity:I9] and her
    identity number [I9], so her two slots are the one key
    [user:identity:I9].  Nothing is cached.  The lookup by her
    account number fills that key: the slot of the other alternate key of
    the same record is populated, and the lookup by identity number that
    follows is answered from it without a call on the collection. *)
Theorem account_lookup_fills_the_identity_slot :
  List.find (Model.holds (AccountNumberIs "identity:I9")) (store ida_world)
  = Some ida
  /\ cache ida_world !! ("user:identity:" +:+ identityNumber ida) = None
  /\ response_of (get_users_account "identity:I9" ida_world)
     = res_json (public_document ida)
  /\ cache (world_of (get_users_account "identity:I9" ida_world))
       !! ("user:identity:" +:+ identityNumber ida)
     = Some (mkEntry (public_document ida) None)
  /\ events_of (get_users_account "identity:I9" ida_world)
     = [ Redis (OpGet "user:identity:I9") true;
         Mongo (OpFindOne (AccountNumberIs "identity:I9"));
         Redis (OpSet "user:identity:I9" (public_document ida)) true ]
  /\ events_of
       (get_users_identity "I9"
          (world_of (get_users_account "identity:I9" ida_world)))
     = [Redis (OpGet "user:identity:I9") true]
  /\ response_of
       (get_users_identity "I9"
          (world_of (get_users_account "identity:I9" ida_world)))
     = res_json (public_document ida).
Proof. vm_compute. repeat split. Qed.

(** C4, as amended.  Both point lookups are read-throughs of their own key:
    [user:{accountNumber}] for the lookup by account number,
    [user:identity:{identityNumber}] for the lookup by identity number.
    A cached value is returned as it is; on a miss an unknown number is
    not-found, and a known one gives the document of the record, every
    path but the password, which is written without expiry under the key
    of the lookup, by the one write of the run; every other key of the
    cache is left as it was.  The slot of the other alternate key of the
    record found is therefore left as it was, except when the two slots
    are one key, that is when the account number is the identity number
    behind the text [identity:]; it is then filled by the lookup. *)
Theorem point_lookups_read_through (k : string) (w : World) :
  read_through ("user:" +:+ k) (AccountNumberIs k) w (get_users_account k w)
  /\ read_through ("user:identity:" +:+ k) (IdentityNumberIs k) w
       (get_users_identity k w)
  /\ (forall u,
        redis_failed (events_of (get_users_account k w)) = false ->
        cache w !! ("user:" +:+ k) = None ->
        List.find (Model.holds (AccountNumberIs k)) (store w) = Some u ->
        accountNumber u = k
        /\ response_of (get_users_account k w) = res_json (public_document u)
        /\ (accountNumber u <> "identity:" +:+ identityNumber u ->
            cache (world_of (get_users_account k w))
              !! ("user:identity:" +:+ identityNumber u)
            = cache w !! ("user:identity:" +:+ identityNumber u))
        /\ (accountNumber u = "identity:" +:+ identityNumber u ->
            cache (world_of (get_users_account k w))
              !! ("user:identity:" +:+ identityNumber u)
            = Some (mkEntry (public_document u) None)))
  /\ (forall u,
        redis_failed (events_of (get_users_identity k w)) = false ->
        cache w !! ("user:identity:" +:+ k) = None ->
        List.find (Model.holds (IdentityNumberIs k)) (store w) = Some u ->
        identityNumber u = k
        /\ response_of (get_users_identity k w) = res_json (public_document u)
        /\ (accountNumber u <> "identity:" +:+ identityNumber u ->
            cache (world_of (get_users_identity k w))
              !! ("user:" +:+ accountNumber u)
            = cache w !! ("user:" +:+ accountNumber u))
        /\ (accountNumber u = "identity:" +:+ identityNumber u ->
            cache (world_of (get_users_identity k w))
              !! ("user:" +:+ accountNumber u)
            = Some (mkEntry (public_document u) None))).
Proof.
  split; [apply get_users_account_read_through|].
  split; [apply get_users_identity_read_through|].
  split.
  - intros u Hok Hmiss Hf.
    destruct (get_users_account_read_through k w Hok) as (_ & _ & _ & Hfound).
    destruct (Hfound u Hmiss Hf) as (Hr & _ & Hc & Hframe & _).
    pose proof (holds_account _ _ _ Hf) as Ha.
    split; [exact Ha|]. split; [exact Hr|]. split.
    + intros Hne. apply Hframe. intros Heq. apply Hne.
      apply slots_coincide. by rewrite Ha.
    + intros Heq. rewrite Hc. apply slots_coincide in Heq.
      rewrite <- Heq, Ha. apply lookup_insert_eq.
  - intros u Hok Hmiss Hf.
    destruct (get_users_identity_read_through k w Hok) as (_ & _ & _ & Hfound).
    destruct (Hfound u Hmiss Hf) as (Hr & _ & Hc & Hframe & _).
    pose proof (holds_identity _ _ _ Hf) as Hi.
    split; [exact Hi|]. split; [exact Hr|]. split.
    + intros Hne. apply Hframe. intros Heq. apply Hne.
      apply slots_coincide. by rewrite Hi.
    + intros Heq. rewrite Hc. apply slots_coincide in Heq.
      rewrite Heq, Hi. apply lookup_insert_eq.
Qed.

Lemma point_lookups_read_through_witness :
  response_of (get_users_account "A1" cold_world) = res_json (public_document alice)
  /\ cache (world_of (get_users_account "A1" cold_world)) !! "user:A1"
     = Some (mkEntry (public_document alice) None)
  /\ cache (world_of (get_users_account "A1" cold_world)) !! "user:identity:I1"
     = cache cold_world !! "user:identity:I1"
  /\ cache (world_of (get_users_account "identity:I9" ida_world))
       !! "user:identity:I9"
     = Some (mkEntry (public_document ida) None).
Proof.
  destruct (point_lookups_read_through "A1" cold_world) as (H & _ & Hacc & _).
  destruct (H eq_refl) as (_ & _ & _ & Hmiss).
  destruct (Hmiss alice eq_refl eq_refl) as (Hr & _ & Hc & _).
  destruct (Hacc alice eq_refl eq_refl eq_refl) as (_ & _ & Hother & _).
  destruct (point_lookups_read_through "identity:I9" ida_world)
    as (_ & _ & Hacc' & _).
  destruct (Hacc' ida eq_refl eq_refl eq_refl) as (_ & _ & _ & Hsame).
  split; [exact Hr|]. split; [by rewrite Hc, lookup_insert_eq|].
  split; [apply Hother; discriminate | apply Hsame; reflexivity].
Defined.

(** ** Runs that resolve *)

Lemma bind_Ok {A B} (m : M A) (f : A -> M B) (w w' : World) (b : B)
    (ev : list Event) :
  bind m f w = (Ok b, w', ev) ->
  exists a w1 ev1 ev2,
    m w = (Ok a, w1, ev1) /\ f a w1 = (Ok b, w', ev2) /\ ev = (ev1 ++ ev2)%list.
Proof.
  unfold bind. destruct (m w) as [[[a|e] w1] ev1]; [|discriminate].
  destruct (f a w1) as [[r w2] ev2] eqn:Hf. intros H.
  injection H as -> -> <-. exists a, w1, ev1, ev2. auto.
Qed.

Lemma ret_Ok {A} (a b : A) (w w' : World) (ev : list Event) :
  ret a w = (Ok b, w', ev) -> b = a /\ w' = w /\ ev = [].
Proof. unfold ret. intros H. injection H as <- <- <-. auto. Qed.

Lemma call_Ok {A} (op : RedisOp)
    (run : gmap string CacheEntry -> A * gmap string CacheEntry)
    (w w' : World) (a : A) (ev : list Event) :
  Redis.call op run w = (Ok a, w', ev) ->
  a = fst (run (cache w))
  /\ w' = set_cache (snd (run (cache w))) (set_faults (tail (faults w)) w)
  /\ ev = [Redis op true].
Proof.
  unfold Redis.call. destruct (hd false (faults w)); [discriminate|].
  destruct (run (cache w)) as [a' c]. by intros [= <- <- <-].
Qed.

Lemma hash_Ok (h : string -> string) (p : option string) (w w' : World)
    (s : string) (ev : list Event) :
  hash h p w = (Ok s, w', ev) ->
  exists pw, p = Some pw /\ s = h pw /\ w' = w /\ ev = [].
Proof.
  destruct p as [pw|]; [|discriminate].
  intros [= <- <- <-]. by exists pw.
Qed.

Lemma save_Ok (u doc : User) (w w' : World) (ev : list Event) :
  Model.save u w = (Ok doc, w', ev) ->
  Schema.validate u = true
  /\ existsb (Model.clashes u) (store w) = false
  /\ doc = mkUser (_id u) (userName u) (accountNumber u) (emailAddress u)
             (identityNumber u) (password u) (now w) (now w)
  /\ w' = set_store (store w ++ [doc])%list w
  /\ ev = [Mongo OpSave].
Proof.
  unfold Model.save.
  destruct (Schema.validate u); [|discriminate].
  destruct (existsb (Model.clashes u) (store w)); [discriminate|].
  cbn [negb]. by intros [= <- <- <-].
Qed.

(** What [try { ... } catch] makes of the two ends of its body. *)
Lemma try_catch_cases (m : M Response) (handler : Error -> Response) (w : World) :
  (exists r w1 ev, m w = (Ok r, w1, ev) /\ try_catch m handler w = (r, w1, ev))
  \/ (exists e w1 ev,
        m w = (Throw e, w1, ev) /\ try_catch m handler w = (handler e, w1, ev)).
Proof.
  unfold try_catch. destruct (m w) as [[[r|e] w1] ev]; [left|right]; eauto.
Qed.

(** Splits the hypothesis that a run resolved, one [await] at a time. *)
Ltac resolved :=
  repeat match goal with
  | H : bind _ _ _ = (Ok _, _, _) |- _ =>
      apply bind_Ok in H as (? & ? & ? & ? & ? & H & ->)
  | H : ret _ _ = (Ok _, _, _) |- _ =>
      apply ret_Ok in H as (-> & -> & ->)
  | H : Redis.call _ _ _ = (Ok _, _, _) |- _ =>
      apply call_Ok in H as (-> & -> & ->)
  | H : hash _ _ _ = (Ok _, _, _) |- _ =>
      apply hash_Ok in H as (? & ? & -> & -> & ->)
  | H : Model.save _ _ = (Ok _, _, _) |- _ =>
      apply save_Ok in H as (? & ? & -> & -> & ->)
  | H : Model.new_User _ _ _ _ _ _ = (Ok _, _, _) |- _ =>
      injection H as <- <- <-
  | H : (if ?b then _ else _) _ = (Ok _, _, _) |- _ => destruct b eqn:?
  end.

Ltac steps :=
  cbn [store cache faults now next_oid set_faults set_cache set_store
       set_next_oid fst snd status body app error_code
       _id userName accountNumber emailAddress identityNumber password
       createdAt updatedAt] in *.

(** ** C5: what a successful create leaves in the cache *)

(** [KEYS pattern] followed by the [DEL] of what it returned. *)
Lemma lookup_foldr_delete_keys (pattern : string)
    (c : gmap string CacheEntry) (k : string) :
  foldr delete c (List.filter (Redis.glob pattern) (map fst (map_to_list c))) !! k
  = if Redis.glob pattern k then None else c !! k.
Proof.
  destruct (Redis.glob pattern k) eqn:Hg.
  - destruct (c !! k) as [e|] eqn:Hk.
    + apply lookup_foldr_delete, list_elem_of_In, filter_In.
      split; [|exact Hg].
      apply in_map_iff. exists (k, e). split; [reflexivity|].
      by apply list_elem_of_In, elem_of_map_to_list.
    + destruct (foldr delete c _ !! k) as [e|] eqn:Hd; [|reflexivity].
      apply lookup_foldr_delete_Some in Hd as [_ Hd]. congruence.
  - apply lookup_foldr_delete_not_elem_of.
    intros Hin. apply list_elem_of_In, filter_In in Hin as [_ Hin]. congruence.
Qed.

Lemma post_users_created (bcrypt_hash : string -> string) (b : CreateBody) (w : World) :
  status (response_of (post_users bcrypt_hash b w)) = 201 ->
  exists (p : string) (u : User),
    body_password b = Some p
    /\ u = mkUser (next_oid w) (Schema.userName_set (body_userName b))
             (body_accountNumber b)
             (Schema.emailAddress_set (body_emailAddress b))
             (body_identityNumber b) (bcrypt_hash p) (now w) (now w)
    /\ existsb (Model.clashes u) (store w) = false
    /\ store (world_of (post_users bcrypt_hash b w)) = (store w ++ [u])%list
    /\ (forall k,
          cache (world_of (post_users bcrypt_hash b w)) !! k
          = if list_cache_key k then None
            else <["user:identity:" +:+ body_identityNumber b :=
                     mkEntry (JObj (delete_field "password" (Schema.toObject u))) None]>
                   (<["user:" +:+ body_accountNumber b :=
                        mkEntry (JObj (delete_field "password" (Schema.toObject u))) None]>
                      (cache w)) !! k)
    /\ response_of (post_users bcrypt_hash b w)
       = res_status_json 201 (message "User created successfully")
    /\ exists rest,
         events_of (post_users bcrypt_hash b w)
         = ([ Mongo OpSave;
              Redis (OpSet ("user:" +:+ body_accountNumber b)
                       (JObj (delete_field "password" (Schema.toObject u)))) true;
              Redis (OpSet ("user:identity:" +:+ body_identityNumber b)
                       (JObj (delete_field "password" (Schema.toObject u)))) true;
              Redis (OpKeys "users:list:*") true ] ++ rest)%list
         /\ forall e, In e rest -> exists keys, e = Redis (OpDel keys) true.
Proof.
  unfold post_users.
  match goal with
  | |- context [try_catch ?m ?h ?w] =>
      destruct (try_catch_cases m h w)
        as [(r & w1 & ev & Hm & ->)|(e & w1 & ev & Hm & ->)]
  end.
  2:{ unfold response_of. cbn [fst]. destruct e; discriminate. }
  intros _. unfold response_of, world_of, events_of. cbn [fst snd].
  unfold Redis.set, Redis.keys, Redis.del in Hm.
  resolved; steps.
  all: eexists _, _; split; [eassumption|]; split; [reflexivity|].
  all: split; [assumption|]; split; [reflexivity|].
  all: split; [intros k; unfold list_cache_key | split; [reflexivity|]].
  all: try (eexists; split; [reflexivity|]; intros e Hin; cbn [In] in Hin;
            destruct Hin as [<-|[]]; eauto).
  - apply lookup_foldr_delete_keys.
  - rewrite <- lookup_foldr_delete_keys.
    match goal with
    | H : (0 <? Z.of_nat (length ?l)) = false |- _ =>
        destruct l; [reflexivity | discriminate H]
    end.
  - exists []. split; [reflexivity|]. intros e [].
Qed.

(** C5.  When a create succeeds (201) the document has been appended to
    the collection; the slots [user:{accountNumber}] and
    [user:identity:{identityNumber}] both hold the document of that
    record, every path but the password with the value that was stored,
    and have no expiry; no key matching [users:list:*] is left in the
    cache; and the body of the response is the confirmation message, not
    the document.  The calls came in this order: the save, the two [SET],
    then [KEYS] and the [DEL] of what it found. *)
Theorem create_fills_point_slots_and_clears_lists
    (bcrypt_hash : string -> string) (b : CreateBody) (w : World) :
  status (response_of (post_users bcrypt_hash b w)) = 201 ->
  exists (p : string) (u : User),
    body_password b = Some p
    /\ u = mkUser (next_oid w) (JS.trim (body_userName b)) (body_accountNumber b)
             (JS.trim (JS.toLowerCase (body_emailAddress b)))
             (body_identityNumber b) (bcrypt_hash p) (now w) (now w)
    /\ store (world_of (post_users bcrypt_hash b w)) = (store w ++ [u])%list
    /\ accountNumber u = body_accountNumber b
    /\ identityNumber u = body_identityNumber b
    /\ mentions "password" (public_document u) = false
    /\ cache (world_of (post_users bcrypt_hash b w)) !! ("user:" +:+ accountNumber u)
       = Some (mkEntry (public_document u) None)
    /\ cache (world_of (post_users bcrypt_hash b w))
         !! ("user:identity:" +:+ identityNumber u)
       = Some (mkEntry (public_document u) None)
    /\ (forall k, list_cache_key k = true ->
          cache (world_of (post_users bcrypt_hash b w)) !! k = None)
    /\ response_of (post_users bcrypt_hash b w)
       = res_status_json 201 (message "User created successfully")
    /\ exists rest,
         events_of (post_users bcrypt_hash b w)
         = ([ Mongo OpSave;
              Redis (OpSet ("user:" +:+ accountNumber u) (public_document u)) true;
              Redis (OpSet ("user:identity:" +:+ identityNumber u)
                       (public_document u)) true;
              Redis (OpKeys "users:list:*") true ] ++ rest)%list
         /\ forall e, In e rest -> exists keys, e = Redis (OpDel keys) true.
Proof.
  intros H.
  destruct (post_users_created _ _ _ H)
    as (p & u & Hp & Hu & _ & Hs & Hc & Hr & rest & Hev & Hrest).
  exists p, u. split; [exact Hp|]. split; [exact Hu|]. split; [exact Hs|].
  assert (Ha : accountNumber u = body_accountNumber b) by (by subst u).
  assert (Hi : identityNumber u = body_identityNumber b) by (by subst u).
  rewrite Ha, Hi. repeat split; try done.
  - rewrite Hc, point_key_not_list_key, lookup_insert.
    case_decide; [done|]. by rewrite lookup_insert_eq.
  - rewrite Hc. change (list_cache_key _) with false.
    by rewrite lookup_insert_eq.
  - intros k Hk. by rewrite Hc, Hk.
  - exists rest. split; [exact Hev | exact Hrest].
Qed.

Lemma create_fills_point_slots_and_clears_lists_witness :
  exists (p : string) (u : User),
    body_password carol_body = Some p
    /\ u = mkUser (next_oid cached_world) (JS.trim (body_userName carol_body))
             (body_accountNumber carol_body)
             (JS.trim (JS.toLowerCase (body_emailAddress carol_body)))
             (body_identityNumber carol_body) (sample_hash p)
             (now cached_world) (now cached_world)
    /\ store (world_of (post_users sample_hash carol_body cached_world))
       = (store cached_world ++ [u])%list
    /\ accountNumber u = body_accountNumber carol_body
    /\ identityNumber u = body_identityNumber carol_body
    /\ mentions "password" (public_document u) = false
    /\ cache (world_of (post_users sample_hash carol_body cached_world))
         !! ("user:" +:+ accountNumber u)
       = Some (mkEntry (public_document u) None)
    /\ cache (world_of (post_users sample_hash carol_body cached_world))
         !! ("user:identity:" +:+ identityNumber u)
       = Some (mkEntry (public_document u) None)
    /\ (forall k, list_cache_key k = true ->
          cache (world_of (post_users sample_hash carol_body cached_world)) !! k
          = None)
    /\ response_of (post_users sample_hash carol_body cached_world)
       = res_status_json 201 (message "User created successfully")
    /\ exists rest,
         events_of (post_users sample_hash carol_body cached_world)
         = ([ Mongo OpSave;
              Redis (OpSet ("user:" +:+ accountNumber u) (public_document u)) true;
              Redis (OpSet ("user:identity:" +:+ identityNumber u)
                       (public_document u)) true;
              Redis (OpKeys "users:list:*") true ] ++ rest)%list
         /\ forall e, In e rest -> exists keys, e = Redis (OpDel keys) true.
Proof.
  apply (create_fills_point_slots_and_clears_lists sample_hash carol_body cached_world).
  reflexivity.
Defined.

(** ** C10: the stored email address *)

Lemma is_whitespace_lower_ascii (c : ascii) :
  JS.is_whitespace (JS.lower_ascii c) = JS.is_whitespace c.
Proof. destruct c as [[] [] [] [] [] [] [] []]; reflexivity. Qed.

Lemma trimStart_toLowerCase (s : string) :
  JS.trimStart (JS.toLowerCase s) = JS.toLowerCase (JS.trimStart s).
Proof.
  induction s as [|c s IH]; [reflexivity|].
  cbn [JS.toLowerCase JS.trimStart]. rewrite is_whitespace_lower_ascii.
  destruct (JS.is_whitespace c); [exact IH | reflexivity].
Qed.

Lemma trimEnd_toLowerCase (s : string) :
  JS.trimEnd (JS.toLowerCase s) = JS.toLowerCase (JS.trimEnd s).
Proof.
  induction s as [|c s IH]; [reflexivity|].
  cbn [JS.toLowerCase JS.trimEnd]. rewrite IH, is_whitespace_lower_ascii.
  destruct (JS.trimEnd s); cbn [JS.toLowerCase]; [|reflexivity].
  destruct (JS.is_whitespace c); reflexivity.
Qed.

(** Lower-casing and trimming can be done in either order. *)
Lemma trim_toLowerCase (s : string) :
  JS.trim (JS.toLowerCase s) = JS.toLowerCase (JS.trim s).
Proof.
  unfold JS.trim. by rewrite trimStart_toLowerCase, trimEnd_toLowerCase.
Qed.

(** A create whose document clashes with a stored one is refused by the
    unique indexes, if it gets that far. *)
Lemma post_users_clash (bcrypt_hash : string -> string) (b : CreateBody)
    (w : World) (p : string) :
  body_password b = Some p ->
  existsb (Model.clashes (document_of bcrypt_hash b p (next_oid w))) (store w)
  = true ->
  store (world_of (post_users bcrypt_hash b w)) = store w
  /\ response_of (post_users bcrypt_hash b w)
     = if Schema.validate (document_of bcrypt_hash b p (next_oid w))
       then res_status_json 400 (message "Duplicate entry found")
       else server_error.
Proof.
  intros Hp Hclash.
  unfold post_users, try_catch, bind, hash, Model.new_User, Model.save, ret,
    response_of, world_of.
  rewrite Hp. steps.
  fold (document_of bcrypt_hash b p (next_oid w)). rewrite Hclash.
  destruct (Schema.validate _); split; reflexivity.
Qed.















(** ** The sort of the list queries *)

Lemma insert_desc_Permutation (u : User) (l : list User) :
  Permutation (Model.insert_desc u l) (u :: l).
Proof.
  induction l as [|v l IH]; [reflexivity|].
  cbn [Model.insert_desc]. destruct (createdAt v <=? createdAt u); [reflexivity|].
  rewrite IH. apply perm_swap.
Qed.

(** The documents listed are those of the collection. *)
Lemma sort_createdAt_desc_Permutation (l : list User) :
  Permutation (Model.sort_createdAt_desc l) l.
Proof.
  induction l as [|u l IH]; [reflexivity|].
  cbn [Model.sort_createdAt_desc foldr].
  rewrite insert_desc_Permutation. by constructor.
Qed.

Lemma insert_desc_HdRel (u v : User) (l : list User) :
  newer_first v u -> HdRel newer_first v l ->
  HdRel newer_first v (Model.insert_desc u l).
Proof.
  intros Hvu Hl. destruct l as [|x l]; cbn [Model.insert_desc].
  - by constructor.
  - destruct (createdAt x <=? createdAt u); constructor; [exact Hvu|].
    by inversion Hl.
Qed.

Lemma insert_desc_Sorted (u : User) (l : list User) :
  Sorted newer_first l -> Sorted newer_first (Model.insert_desc u l).
Proof.
  induction 1 as [|v l Hl IH Hhd]; cbn [Model.insert_desc].
  - repeat constructor.
  - destruct (createdAt v <=? createdAt u) eqn:E.
    + apply Z.leb_le in E. repeat constructor; assumption.
    + apply Z.leb_gt in E. constructor; [exact IH|].
      apply insert_desc_HdRel; [|exact Hhd]. unfold newer_first. lia.
Qed.

(** They come newest first. *)
Lemma sort_createdAt_desc_Sorted (l : list User) :
  Sorted newer_first (Model.sort_createdAt_desc l).
Proof.
  induction l as [|u l IH]; [constructor|].
  cbn [Model.sort_createdAt_desc foldr]. by apply insert_desc_Sorted.
Qed.

(** ** C9: the limit of the list route *)

Lemma or_default_nonzero (n : option Z) (d : Z) :
  d <> 0 -> JS.or_default n d <> 0.
Proof. intros Hd. destruct n as [[| |]|]; cbn; congruence. Qed.

Lemma list_limit_nonzero (q : ListQuery) : list_limit q <> 0.
Proof. apply or_default_nonzero. discriminate. Qed.

Lemma Math_ceil_div_nonzero (a b : Z) :
  b <> 0 -> JS.Math_ceil_div a b = Some (- (- a / b)).
Proof.
  intros Hb. unfold JS.Math_ceil_div.
  destruct (b =? 0) eqn:E; [|reflexivity]. apply Z.eqb_eq in E. contradiction.
Qed.


(** The calls of the list route, whatever the world. *)
Lemma get_users_find_page (q : ListQuery) (w : World) (skip limit : Z) :
  In (Mongo (OpFindPage skip limit)) (events_of (get_users q w)) ->
  limit = list_limit q /\ skip = (list_page q - 1) * list_limit q.
Proof.
  unfold get_users, try_catch, bind, Redis.get, Redis.setEx, Redis.call,
    Model.find, Model.find_page, Model.countDocuments, ret, events_of.
  open_world w.
  destruct (is_not_zero (JS.parseInt (q_paginate q))); cbn [negb]; steps.
  all: next_fault; steps.
  all: try match goal with
       | |- context [value <$> ?c !! ?k] =>
           destruct (c !! k); cbn [fmap option_fmap option_map]; steps
       end.
  all: try match goal with
       | |- context [?a <? 0] => destruct (a <? 0); steps
       end.
  all: try (next_fault; steps).
  all: cbn [In]; intros H; intuition (try discriminate).
  all: match goal with H : Mongo _ = Mongo _ |- _ => by injection H end.
Qed.

Lemma limit_docs_positive (n : Z) (l : list User) :
  1 <= n -> Model.limit_docs n l = take (Z.to_nat n) l.
Proof.
  intros Hn. unfold Model.limit_docs.
  destruct (n =? 0) eqn:E; [apply Z.eqb_eq in E; lia|].
  f_equal. lia.
Qed.

(** The list route, when its Redis calls work. *)
Lemma get_users_all (q : ListQuery) (w : World) :
  redis_failed (events_of (get_users q w)) = false ->
  JS.parseInt (q_paginate q) = Some 0 ->
  (forall e, cache w !! "users:list:all" = Some e ->
     response_of (get_users q w) = res_json (value e)
     /\ cache (world_of (get_users q w)) = cache w)
  /\ (cache w !! "users:list:all" = None ->
      response_of (get_users q w)
      = res_json
          (JObj [("users",
                  JArr (map Schema.toJSON_minus_password
                          (Model.sort_createdAt_desc (store w))))])
      /\ cache (world_of (get_users q w))
         = <["users:list:all" :=
               mkEntry
                 (JObj [("users",
                         JArr (map Schema.toJSON_minus_password
                                 (Model.sort_createdAt_desc (store w))))])
                 (Some 300)]> (cache w)).
Proof.
  unfold get_users, try_catch, bind, Redis.get, Redis.setEx, Redis.call,
    Model.find, ret, events_of, response_of, world_of.
  open_world w. intros Hok Hp. rewrite Hp in *.
  cbn [is_not_zero negb] in *. steps.
  next_fault; steps; try discriminate Hok.
  all: destruct (cache0 !! "users:list:all") as [e|] eqn:Hc;
    cbn [fmap option_fmap option_map] in *; steps.
  all: split; [intros e' He'; try discriminate He'
              | intros Hmiss; try discriminate Hmiss].
  all: try (injection He' as <-; by split).
  all: try next_fault; steps; try discriminate Hok.
  all: by split.
Qed.

Lemma get_users_page (q : ListQuery) (w : World) :
  redis_failed (events_of (get_users q w)) = false ->
  JS.parseInt (q_paginate q) <> Some 0 ->
  (forall e, cache w !! list_key (list_page q) (list_limit q) = Some e ->
     response_of (get_users q w) = res_json (value e)
     /\ cache (world_of (get_users q w)) = cache w)
  /\ (cache w !! list_key (list_page q) (list_limit q) = None ->
      0 <= (list_page q - 1) * list_limit q ->
      let response :=
        JObj [ ("users",
                JArr (map Schema.toJSON_minus_password
                        (Model.limit_docs (list_limit q)
                           (drop (Z.to_nat ((list_page q - 1) * list_limit q))
                              (Model.sort_createdAt_desc (store w))))));
               ("pagination",
                pagination (list_page q) (list_limit q)
                  (Z.of_nat (length (store w)))) ] in
      response_of (get_users q w) = res_json response
      /\ cache (world_of (get_users q w))
         = <[list_key (list_page q) (list_limit q) := mkEntry response (Some 300)]>
             (cache w)).
Proof.
  unfold get_users, try_catch, bind, Redis.get, Redis.setEx, Redis.call,
    Model.find_page, Model.countDocuments, ret, events_of, response_of,
    world_of.
  open_world w. intros Hok Hp.
  assert (is_not_zero (JS.parseInt (q_paginate q)) = true) as Hnz.
  { destruct (JS.parseInt (q_paginate q)) as [[| |]|]; try reflexivity.
    by destruct Hp. }
  rewrite Hnz in *. cbn [negb] in *. steps.
  next_fault; steps; try discriminate Hok.
  all: destruct (cache0 !! list_key (list_page q) (list_limit q)) as [e|] eqn:Hc;
    cbn [fmap option_fmap option_map] in *; steps.
  all: split; [intros e' He'; try discriminate He'
              | intros Hmiss; try discriminate Hmiss].
  all: try (injection He' as <-; by split).
  all: intros Hskip.
  all: apply Z.ltb_ge in Hskip; rewrite Hskip in *; steps.
  all: try next_fault; steps; try discriminate Hok.
  all: by split.
Qed.

(** What the list route writes to the cache when it paginates. *)
Lemma get_users_setEx (q : ListQuery) (w : World) (k : string) (s : Z)
    (v : json) (ok : bool) :
  JS.parseInt (q_paginate q) <> Some 0 ->
  In (Redis (OpSetEx k s v) ok) (events_of (get_users q w)) ->
  k = list_key (list_page q) (list_limit q) /\ s = 300
  /\ exists users,
       v = JObj [ ("users", JArr users);
                  ("pagination",
                   pagination (list_page q) (list_limit q)
                     (Z.of_nat (length (store w)))) ].
Proof.
  unfold get_users, try_catch, bind, Redis.get, Redis.setEx, Redis.call,
    Model.find, Model.find_page, Model.countDocuments, ret, events_of.
  open_world w. intros Hp.
  assert (is_not_zero (JS.parseInt (q_paginate q)) = true) as Hnz.
  { destruct (JS.parseInt (q_paginate q)) as [[| |]|]; try reflexivity.
    by destruct Hp. }
  rewrite Hnz. cbn [negb]. steps.
  next_fault; steps.
  all: try match goal with
       | |- context [value <$> ?c !! ?k] =>
           destruct (c !! k); cbn [fmap option_fmap option_map]; steps
       end.
  all: try match goal with
       | |- context [?a <? 0] => destruct (a <? 0); steps
       end.
  all: try (next_fault; steps).
  all: cbn [In]; intros H; intuition (try discriminate).
  all: match goal with
       | H : Redis _ _ = Redis _ _ |- _ => injection H as <- <- <- <-
       end.
  all: repeat split; eexists; reflexivity.
Qed.

(** C9.  The limit of a list request is never zero: an absent limit, a
    limit that is not numeric and a limit that parses to zero all give
    10.  That limit is the one the page query is made with, the skip being
    computed from it, and the one [totalPages] is divided by: in the
    snapshot the route writes and in the response it computes,
    [totalPages] is the number [-(-totalItems / limit)] and
    [itemsPerPage] is that limit. *)
Theorem list_limit_is_never_zero (q : ListQuery) :
  list_limit q <> 0
  /\ (q_limit q = None -> list_limit q = 10)
  /\ (JS.parseInt (q_limit q) = None -> list_limit q = 10)
  /\ (JS.parseInt (q_limit q) = Some 0 -> list_limit q = 10)
  /\ (forall (w : World) (skip limit : Z),
        In (Mongo (OpFindPage skip limit)) (events_of (get_users q w)) ->
        limit = list_limit q /\ skip = (list_page q - 1) * list_limit q)
  /\ (forall total : Z,
        pagination (list_page q) (list_limit q) total
        = JObj [ ("currentPage", JNum (list_page q));
                 ("totalPages", JNum (- (- total / list_limit q)));
                 ("totalItems", JNum total);
                 ("itemsPerPage", JNum (list_limit q)) ])
  /\ (forall (w : World) (k : string) (s : Z) (v : json) (ok : bool),
        JS.parseInt (q_paginate q) <> Some 0 ->
        In (Redis (OpSetEx k s v) ok) (events_of (get_users q w)) ->
        exists users,
          v = JObj [ ("users", JArr users);
                     ("pagination",
                      JObj [ ("currentPage", JNum (list_page q));
                             ("totalPages",
                              JNum (- (- Z.of_nat (length (store w))
                                       / list_limit q)));
                             ("totalItems", JNum (Z.of_nat (length (store w))));
                             ("itemsPerPage", JNum (list_limit q)) ]) ])
  /\ (forall w : World,
        JS.parseInt (q_paginate q) <> Some 0 ->
        redis_failed (events_of (get_users q w)) = false ->
        cache w !! list_key (list_page q) (list_limit q) = None ->
        0 <= (list_page q - 1) * list_limit q ->
        exists users,
          response_of (get_users q w)
          = res_json
              (JObj [ ("users", JArr users);
                      ("pagination",
                       JObj [ ("currentPage", JNum (list_page q));
                              ("totalPages",
                               JNum (- (- Z.of_nat (length (store w))
                                        / list_limit q)));
                              ("totalItems", JNum (Z.of_nat (length (store w))));
                              ("itemsPerPage", JNum (list_limit q)) ]) ])).
Proof.
  assert (Hpag : forall total : Z,
             pagination (list_page q) (list_limit q) total
             = JObj [ ("currentPage", JNum (list_page q));
                      ("totalPages", JNum (- (- total / list_limit q)));
                      ("totalItems", JNum total);
                      ("itemsPerPage", JNum (list_limit q)) ]).
  { intros total. unfold pagination.
    by rewrite (Math_ceil_div_nonzero _ _ (list_limit_nonzero q)). }
  split; [apply list_limit_nonzero|].
  split; [intros H; unfold list_limit; by rewrite H|].
  split; [intros H; unfold list_limit; by rewrite H|].
  split; [intros H; unfold list_limit; by rewrite H|].
  split; [apply get_users_find_page|].
  split; [exact Hpag|].
  split.
  - intros w k s v ok Hp Hin.
    destruct (get_users_setEx _ _ _ _ _ _ Hp Hin) as (_ & _ & users & ->).
    exists users. by rewrite Hpag.
  - intros w Hp Hok Hmiss Hskip.
    destruct (get_users_page q w Hok Hp) as [_ Hpage].
    destruct (Hpage Hmiss Hskip) as [Hr _].
    eexists. rewrite Hr, Hpag. reflexivity.
Qed.

Lemma list_limit_is_never_zero_witness :
  list_limit (mkListQuery (Some "3") (Some "0") None) = 10
  /\ list_limit (mkListQuery (Some "3") (Some "abc") None) = 10
  /\ list_limit (mkListQuery (Some "3") None None) = 10
  /\ exists users,
       response_of (get_users (mkListQuery (Some "1") (Some "0") None)
                      five_users_world)
       = res_json
           (JObj [ ("users", JArr users);
                   ("pagination",
                    JObj [ ("currentPage", JNum 1); ("totalPages", JNum 1);
                           ("totalItems", JNum 5); ("itemsPerPage", JNum 10) ]) ]).
Proof.
  split; [|split; [|split]].
  - destruct (list_limit_is_never_zero (mkListQuery (Some "3") (Some "0") None))
      as (_ & _ & _ & Hzero & _).
    apply Hzero. reflexivity.
  - destruct (list_limit_is_never_zero (mkListQuery (Some "3") (Some "abc") None))
      as (_ & _ & Hnan & _).
    apply Hnan. reflexivity.
  - destruct (list_limit_is_never_zero (mkListQuery (Some "3") None None))
      as (_ & Habsent & _).
    apply Habsent. reflexivity.
  - destruct (list_limit_is_never_zero (mkListQuery (Some "1") (Some "0") None))
      as (_ & _ & _ & _ & _ & _ & _ & Hresp).
    apply (Hresp five_users_world);
      [discriminate | reflexivity | reflexivity | vm_compute; discriminate].
Defined.



(** The scenario of five users listed two by two: three pages. *)
Example five_users_two_by_two :
  body (response_of (get_users first_page_of_two five_users_world))
  = JObj [ ("users",
            JArr [ Schema.toJSON_minus_password (user_number 5 500);
                   Schema.toJSON_minus_password (user_number 4 400) ]);
           ("pagination",
            JObj [ ("currentPage", JNum 1); ("totalPages", JNum 3);
                   ("totalItems", JNum 5); ("itemsPerPage", JNum 2) ]) ].
Proof. vm_compute. reflexivity. Qed.

(** ** C6 and C8: the uniqueness check of the update route *)

Lemma truthy_Some (v : string) : v <> "" -> JS.truthy (Some v) = true.
Proof.
  intros Hv. unfold JS.truthy. destruct (String.eqb v "") eqn:E; [|reflexivity].
  apply String.eqb_eq in E. contradiction.
Qed.

Lemma find_some_of_exists {A} (f : A -> bool) (l : list A) (x : A) :
  In x l -> f x = true -> exists y, List.find f l = Some y.
Proof.
  induction l as [|a l IH]; [intros []|].
  intros [->|Hin] Hx; cbn [List.find].
  - rewrite Hx. eauto.
  - destruct (f a); eauto.
Qed.

(** The [$or] array has a condition that [other] satisfies. *)
Lemma or_conditions_hold (updates : Updates) (other : User) :
  owns_requested_value updates other ->
  existsb (fun c => Model.holds (Model.cast c) other) (or_conditions updates)
  = true.
Proof.
  unfold or_conditions.
  intros [(v & Hv & Hne & Ho)|[(v & Hv & Hne & Ho)|(v & Hv & Hne & Ho)]];
    rewrite !existsb_app; rewrite Hv, (truthy_Some _ Hne);
    cbn [existsb Model.holds Model.cast default from_option id];
    rewrite Ho, String.eqb_refl; cbn [orb];
    by rewrite ?orb_true_r.
Qed.

Lemma or_conditions_guard (updates : Updates) (other : User) :
  owns_requested_value updates other ->
  JS.truthy (upd_accountNumber updates)
  || JS.truthy (upd_emailAddress updates)
  || JS.truthy (upd_identityNumber updates) = true.
Proof.
  intros [(v & Hv & Hne & _)|[(v & Hv & Hne & _)|(v & Hv & Hne & _)]];
    rewrite Hv, (truthy_Some _ Hne); by rewrite ?orb_true_r.
Qed.

(** C6.  When the record to update exists and another record holds a
    value the update asks for, in account number, email address or
    identity number, the update is refused with status 400 and the one
    message that names the three fields; nothing is written: the
    collection, and so the record and its account number, and the cache
    are as before. *)
Theorem conflicting_update_is_refused
    (id : ObjectId) (updates : Updates) (w : World) (target other : User) :
  List.find (fun u => N.eqb (_id u) id) (store w) = Some target ->
  In other (store w) ->
  _id other <> id ->
  owns_requested_value updates other ->
  response_of (put_users_id id updates w)
  = res_status_json 400
      (message "Account number, email, or identity number already in use")
  /\ store (world_of (put_users_id id updates w)) = store w
  /\ List.find (fun u => N.eqb (_id u) id)
       (store (world_of (put_users_id id updates w))) = Some target
  /\ cache (world_of (put_users_id id updates w)) = cache w
  /\ events_of (put_users_id id updates w)
     = [ Mongo (OpFindById id);
         Mongo (OpFindOneOther id (or_conditions updates)) ].
Proof.
  intros Htarget Hin Hid Howns.
  pose proof (or_conditions_guard _ _ Howns) as Hguard.
  pose proof (or_conditions_hold _ _ Howns) as Hhold.
  destruct (find_some_of_exists
              (fun u => negb (N.eqb (_id u) id)
                        && existsb (fun c => Model.holds (Model.cast c) u)
                             (or_conditions updates))
              (store w) other Hin) as [found Hfound].
  { rewrite Hhold, andb_true_r. apply negb_true_iff, N.eqb_neq, Hid. }
  unfold put_users_id, try_catch, bind, Model.findById, Model.findOne_other,
    ret, response_of, world_of, events_of.
  rewrite Htarget, Hguard. rewrite Hfound.
  destruct (or_conditions updates) eqn:Hor; [discriminate Hhold|].
  cbn [fst snd app]. by rewrite Htarget.
Qed.

Lemma conflicting_update_is_refused_witness :
  response_of (put_users_id 2%N take_A1 two_users_world)
  = res_status_json 400
      (message "Account number, email, or identity number already in use")
  /\ store (world_of (put_users_id 2%N take_A1 two_users_world))
     = store two_users_world
  /\ List.find (fun u => N.eqb (_id u) 2%N)
       (store (world_of (put_users_id 2%N take_A1 two_users_world))) = Some bob
  /\ cache (world_of (put_users_id 2%N take_A1 two_users_world))
     = cache two_users_world
  /\ events_of (put_users_id 2%N take_A1 two_users_world)
     = [ Mongo (OpFindById 2%N);
         Mongo (OpFindOneOther 2%N (or_conditions take_A1)) ].
Proof.
  apply (conflicting_update_is_refused 2%N take_A1 two_users_world bob alice).
  - reflexivity.
  - left. reflexivity.
  - discriminate.
  - left. exists "A1". split; [reflexivity|]. split; [discriminate|reflexivity].
Defined.

(** An address the schema has stored is left as it is by the setters, so
    a record that holds the very address an update submits holds it as
    the schema stores it. *)
Lemma lower_ascii_idempotent (c : ascii) :
  JS.lower_ascii (JS.lower_ascii c) = JS.lower_ascii c.
Proof. destruct c as [[] [] [] [] [] [] [] []]; reflexivity. Qed.

Lemma toLowerCase_idempotent (s : string) :
  JS.toLowerCase (JS.toLowerCase s) = JS.toLowerCase s.
Proof.
  induction s as [|c s IH]; [reflexivity|].
  cbn [JS.toLowerCase]. by rewrite lower_ascii_idempotent, IH.
Qed.

Lemma trimEnd_idempotent (s : string) :
  JS.trimEnd (JS.trimEnd s) = JS.trimEnd s.
Proof.
  induction s as [|c s IH]; [reflexivity|].
  cbn [JS.trimEnd].
  destruct (JS.trimEnd s) as [|d t] eqn:E.
  - destruct (JS.is_whitespace c) eqn:Hc; [reflexivity|].
    cbn [JS.trimEnd]. by rewrite Hc.
  - cbn [JS.trimEnd] in *. by rewrite IH.
Qed.

Lemma trimStart_starts_clean (s : string) : starts_clean (JS.trimStart s).
Proof.
  induction s as [|c s IH]; [exact I|].
  cbn [JS.trimStart]. destruct (JS.is_whitespace c) eqn:Hc; [exact IH|exact Hc].
Qed.

Lemma trimStart_clean (s : string) : starts_clean s -> JS.trimStart s = s.
Proof. destruct s as [|c s]; [reflexivity|]. cbn. by intros ->. Qed.

Lemma trimEnd_starts_clean (s : string) :
  starts_clean s -> starts_clean (JS.trimEnd s).
Proof.
  destruct s as [|c s]; [intros _; exact I|].
  cbn [starts_clean JS.trimEnd]. intros Hc.
  destruct (JS.trimEnd s); rewrite ?Hc; exact Hc.
Qed.

Lemma trim_idempotent (s : string) : JS.trim (JS.trim s) = JS.trim s.
Proof.
  unfold JS.trim.
  rewrite (trimStart_clean (JS.trimEnd (JS.trimStart s))).
  - apply trimEnd_idempotent.
  - apply trimEnd_starts_clean, trimStart_starts_clean.
Qed.

Lemma emailAddress_set_idempotent (v : string) :
  Schema.emailAddress_set (Schema.emailAddress_set v)
  = Schema.emailAddress_set v.
Proof.
  unfold Schema.emailAddress_set.
  by rewrite <- trim_toLowerCase, toLowerCase_idempotent, trim_idempotent.
Qed.

Lemma stored_address_is_owned (raw v : string) (other : User) :
  emailAddress other = Schema.emailAddress_set raw ->
  emailAddress other = v ->
  emailAddress other = Schema.emailAddress_set v.
Proof.
  intros Hraw <-. rewrite Hraw.
  symmetry. apply emailAddress_set_idempotent.
Qed.

(** An update that leaves the three unique fields alone cannot run
    against a unique index. *)
Lemma no_index_clash (uid : ObjectId) (name pass : option string) (t : Z)
    (target : User) (l : list User) :
  existsb
    (fun v =>
       negb (N.eqb (_id v) uid)
       && Model.index_clash target
            (Model.apply_set
               (Model.cast_update (mkUpdates name None None None pass)) t target)
            v) l
  = false.
Proof.
  induction l as [|v l IH]; [reflexivity|].
  cbn [existsb]. rewrite IH, orb_false_r.
  unfold Model.index_clash, Model.apply_set, Model.cast_update.
  cbn [upd_accountNumber upd_emailAddress upd_identityNumber accountNumber
       emailAddress identityNumber fmap option_fmap option_map default
       from_option id].
  rewrite !String.eqb_refl. by rewrite andb_false_r.
Qed.

(** C8.  An update that gives none of account number, email address and
    identity number never runs the query that looks for another record
    with one of the new values, and never answers 400: it cannot fail
    with the conflict error.  Nor can it be refused by a unique index of
    the collection. *)
Theorem update_without_unique_fields_skips_the_check
    (id : ObjectId) (name pass : option string) (w : World) :
  (forall or : list Cond,
     ~ In (Mongo (OpFindOneOther id or))
         (events_of (put_users_id id (mkUpdates name None None None pass) w)))
  /\ status (response_of (put_users_id id (mkUpdates name None None None pass) w))
     <> 400
  /\ response_of (put_users_id id (mkUpdates name None None None pass) w)
     <> conflict
  /\ body (response_of (put_users_id id (mkUpdates name None None None pass) w))
     <> JObj [ ("message", JStr "Server error");
               ("error", JStr (error_message MongoDuplicateKey)) ].
Proof.
  assert (Hgoal :
    (forall or : list Cond,
       ~ In (Mongo (OpFindOneOther id or))
           (events_of (put_users_id id (mkUpdates name None None None pass) w)))
    /\ status (response_of (put_users_id id (mkUpdates name None None None pass) w))
       <> 400
    /\ body (response_of (put_users_id id (mkUpdates name None None None pass) w))
       <> JObj [ ("message", JStr "Server error");
                 ("error", JStr (error_message MongoDuplicateKey)) ]).
  2:{ destruct Hgoal as (He & Hs & Hd). repeat split; [exact He | exact Hs | | exact Hd].
      intros Hc. apply Hs. by rewrite Hc. }
  unfold put_users_id, try_catch, bind, Model.findById, Model.findByIdAndUpdate,
    Redis.del, Redis.call, ret, throw, response_of, world_of, events_of.
  open_world w.
  cbn [upd_accountNumber upd_emailAddress upd_identityNumber JS.truthy orb].
  destruct (find _ store0) as [target|] eqn:Ht; steps.
  2:{ repeat split; [intros or [H|[]]; discriminate H | discriminate..]. }
  destruct (negb _); steps.
  { repeat split; [intros or [H|[H|[]]]; discriminate H | discriminate..]. }
  rewrite Ht, no_index_clash. steps.
  next_fault; steps.
  all: try next_fault; steps.
  all: repeat split; [intros or Hin; cbn [In] in Hin; intuition discriminate
                     | discriminate..].
Qed.

Lemma update_without_unique_fields_skips_the_check_witness :
  status (response_of
            (put_users_id 2%N (mkUpdates (Some "Robert") None None None None)
               two_users_world)) <> 400.
Proof.
  apply (update_without_unique_fields_skips_the_check
           2%N (Some "Robert") None two_users_world).
Defined.

(** ** C1 and C2: what a successful update deletes and returns *)

Ltac wrong_status H :=
  cbv [not_found conflict server_error res_status_json res_json status] in H;
  lia.

(** A successful update: the record existed, the write went through, and
    the two [DEL] ran on the keys [user:{accountNumber}] and
    [user:{identityNumber}] of the updated record. *)
Lemma put_users_id_updated (id : ObjectId) (updates : Updates) (w : World) :
  status (response_of (put_users_id id updates w)) = 200 ->
  exists target updated : User,
    List.find (fun u => N.eqb (_id u) id) (store w) = Some target
    /\ updated = Model.apply_set (Model.cast_update updates) (now w) target
    /\ store (world_of (put_users_id id updates w))
       = Model.replace_first id updated (store w)
    /\ cache (world_of (put_users_id id updates w))
       = delete ("user:" +:+ identityNumber updated)
           (delete ("user:" +:+ accountNumber updated) (cache w))
    /\ response_of (put_users_id id updates w) = res_json (Schema.toJSON updated).
Proof.
  unfold put_users_id, try_catch, bind, Model.findById, Model.findOne_other,
    Model.findByIdAndUpdate, Redis.del, Redis.call, ret, throw, response_of,
    world_of.
  open_world w.
  intros Hs.
  destruct (find _ store0) as [target|] eqn:Ht; steps; [|wrong_status Hs].
  destruct (_ || _); steps.
  1: destruct (or_conditions updates) as [|c1 cs]; steps; [wrong_status Hs|].
  1: destruct (find (fun u => negb _ && _) store0) as [other|]; steps;
       [wrong_status Hs|].
  all: destruct (negb (Model.update_valid _)); steps; [wrong_status Hs|].
  all: rewrite Ht in *; destruct (existsb _ store0); steps; [wrong_status Hs|].
  all: next_fault; steps; try wrong_status Hs.
  all: next_fault; steps; try wrong_status Hs.
  all: by exists target, (Model.apply_set (Model.cast_update updates) now0 target).
Qed.

(** After a successful update no list snapshot has been touched, and the
    response carries the password hash of the record. *)
Lemma put_users_id_keeps_list_snapshots (id : ObjectId) (updates : Updates)
    (w : World) (k : string) :
  status (response_of (put_users_id id updates w)) = 200 ->
  list_cache_key k = true ->
  cache (world_of (put_users_id id updates w)) !! k = cache w !! k.
Proof.
  intros H Hk.
  destruct (put_users_id_updated _ _ _ H) as (t & u & _ & _ & _ & Hc & _).
  rewrite Hc, !lookup_delete_ne; [reflexivity| |];
    intros <-; by rewrite point_key_not_list_key in Hk.
Qed.

Lemma put_users_id_returns_password (id : ObjectId) (updates : Updates)
    (w : World) :
  status (response_of (put_users_id id updates w)) = 200 ->
  mentions "password" (body (response_of (put_users_id id updates w))) = true.
Proof.
  intros H.
  destruct (put_users_id_updated _ _ _ H) as (t & u & _ & _ & _ & _ & Hr).
  rewrite Hr. apply toJSON_leaks_password.
Qed.

(** C1, at a failing input.  Alice is stored and both her slots are
    cached.  Renaming her succeeds and deletes [user:A1], but the second
    [DEL] is sent for [user:I1], a key that is not her identity slot:
    [user:identity:I1] still holds the document with the old name, and
    the next lookup by identity number answers with it.  The list
    snapshots are as before. *)
Theorem update_misses_the_identity_slot :
  status (response_of (put_users_id 1%N rename_alice cached_world)) = 200
  /\ events_of (put_users_id 1%N rename_alice cached_world)
     = [ Mongo (OpFindById 1%N);
         Mongo (OpFindByIdAndUpdate 1%N rename_alice);
         Redis (OpDel ["user:A1"]) true;
         Redis (OpDel ["user:I1"]) true ]
  /\ cache (world_of (put_users_id 1%N rename_alice cached_world)) !! "user:A1"
     = None
  /\ cache (world_of (put_users_id 1%N rename_alice cached_world))
       !! "user:identity:I1"
     = Some (mkEntry (Schema.toJSON_minus_password alice) None)
  /\ userName <$> store (world_of (put_users_id 1%N rename_alice cached_world))
     = ["Alicia"]
  /\ response_of
       (get_users_identity "I1"
          (world_of (put_users_id 1%N rename_alice cached_world)))
     = res_json (Schema.toJSON_minus_password alice)
  /\ cache (world_of (put_users_id 1%N rename_alice cached_world))
       !! "users:list:all"
     = cache cached_world !! "users:list:all"
  /\ cache (world_of (put_users_id 1%N rename_alice cached_world))
       !! "users:list:1:10"
     = cache cached_world !! "users:list:1:10".
Proof. vm_compute. repeat split. Qed.

(** C2, at a failing input.  The response of the same update is the
    whole document: it carries the field [password] with the hash. *)
Theorem update_response_carries_the_password :
  status (response_of (put_users_id 1%N rename_alice cached_world)) = 200
  /\ mentions "password"
       (body (response_of (put_users_id 1%N rename_alice cached_world))) = true
  /\ exists before after,
       body (response_of (put_users_id 1%N rename_alice cached_world))
       = JObj (before ++ ("password", JStr (password alice)) :: after)%list.
Proof.
  split; [reflexivity|]. split; [reflexivity|].
  eexists (firstn 5 (Schema.toObject (mkUser 1%N "Alicia" "A1" "alice@x.com" "I1"
                                        "$2a$10$secret1" 1000 3000))),
          _.
  vm_compute. reflexivity.
Qed.

(** ** List snapshots stay current while Redis works *)

Lemma replace_first_length (id : ObjectId) (u : User) (l : list User) :
  length (Model.replace_first id u l) = length l.
Proof.
  induction l as [|v l IH]; [reflexivity|].
  cbn [Model.replace_first]. destruct (N.eqb (_id v) id); cbn; by rewrite ?IH.
Qed.

Lemma get_users_account_keeps (k : string) (w : World) :
  redis_failed (events_of (get_users_account k w)) = false ->
  keeps_snapshots w (world_of (get_users_account k w)).
Proof.
  intros Hok.
  destruct (get_users_account_read_through k w Hok) as (Hs & Hhit & Hnone & Hsome).
  split; [by rewrite Hs|]. intros k' Hk'.
  destruct (cache w !! ("user:" +:+ k)) as [e|] eqn:Hc.
  - destruct (Hhit e eq_refl) as (_ & -> & _). reflexivity.
  - destruct (find (Model.holds (AccountNumberIs k)) (store w)) as [u|] eqn:Hf.
    + destruct (Hsome u eq_refl eq_refl) as (_ & _ & _ & Hframe & _).
      apply Hframe. intros ->. by rewrite point_key_not_list_key in Hk'.
    + destruct (Hnone eq_refl eq_refl) as (_ & -> & _). reflexivity.
Qed.

Lemma get_users_identity_keeps (k : string) (w : World) :
  redis_failed (events_of (get_users_identity k w)) = false ->
  keeps_snapshots w (world_of (get_users_identity k w)).
Proof.
  intros Hok.
  destruct (get_users_identity_read_through k w Hok) as (Hs & Hhit & Hnone & Hsome).
  split; [by rewrite Hs|]. intros k' Hk'.
  destruct (cache w !! ("user:identity:" +:+ k)) as [e|] eqn:Hc.
  - destruct (Hhit e eq_refl) as (_ & -> & _). reflexivity.
  - destruct (find (Model.holds (IdentityNumberIs k)) (store w)) as [u|] eqn:Hf.
    + destruct (Hsome u eq_refl eq_refl) as (_ & _ & _ & Hframe & _).
      apply Hframe. intros ->.
      pose proof (point_key_not_list_key ("identity:" +:+ k)) as Hn.
      change ("user:" +:+ "identity:" +:+ k) with ("user:identity:" +:+ k) in Hn.
      congruence.
    + destruct (Hnone eq_refl eq_refl) as (_ & -> & _). reflexivity.
Qed.

Lemma post_users_keeps_or_clears (h : string -> string) (b : CreateBody) (w : World) :
  redis_failed (events_of (post_users h b w)) = false ->
  keeps_snapshots w (world_of (post_users h b w))
  \/ clears_snapshots (world_of (post_users h b w)).
Proof.
  intros Hok.
  destruct (Z.eq_dec (status (response_of (post_users h b w))) 201) as [H201|Hnot].
  { right. destruct (post_users_created _ _ _ H201)
      as (p & u & _ & _ & _ & _ & Hc & _).
    intros k Hk. by rewrite Hc, Hk. }
  left. revert Hok Hnot.
  unfold post_users, try_catch, bind, hash, Model.new_User, Model.save,
    Redis.set, Redis.keys, Redis.del, Redis.call, ret, throw, response_of,
    world_of, events_of, keeps_snapshots.
  open_world w.
  destruct (body_password b) as [p|]; steps; [|by intros].
  destruct (negb (Schema.validate _)); steps; [by intros|].
  destruct (existsb _ store0); steps; [by intros|].
  next_fault; steps; try (by intros).
  all: next_fault; steps; try (by intros).
  all: next_fault; steps; try (by intros).
  all: destruct (0 <? _); steps; try (by intros).
  all: next_fault; steps; by intros.
Qed.

Lemma put_users_id_keeps (id : ObjectId) (updates : Updates) (w : World) :
  redis_failed (events_of (put_users_id id updates w)) = false ->
  keeps_snapshots w (world_of (put_users_id id updates w)).
Proof.
  intros Hok.
  destruct (Z.eq_dec (status (response_of (put_users_id id updates w))) 200)
    as [H200|Hnot].
  { split.
    - destruct (put_users_id_updated _ _ _ H200) as (t & u & _ & _ & -> & _).
      apply replace_first_length.
    - intros k Hk. by apply put_users_id_keeps_list_snapshots. }
  revert Hok Hnot.
  unfold put_users_id, try_catch, bind, Model.findById, Model.findOne_other,
    Model.findByIdAndUpdate, Redis.del, Redis.call, ret, throw, response_of,
    world_of, events_of, keeps_snapshots.
  open_world w.
  destruct (find _ store0) as [target|] eqn:Ht; steps; [|by intros].
  destruct (_ || _); steps.
  1: destruct (or_conditions updates) as [|c1 cs]; steps; [by intros|].
  1: destruct (find (fun u => negb _ && _) store0) as [other|]; steps;
       [by intros|].
  all: destruct (negb (Model.update_valid _)); steps; [by intros|].
  all: rewrite Ht in *; destruct (existsb _ store0); steps; [by intros|].
  all: next_fault; steps; try (by intros).
  all: next_fault; steps; by intros.
Qed.

Lemma delete_users_id_keeps_or_clears (id : ObjectId) (w : World) :
  redis_failed (events_of (delete_users_id id w)) = false ->
  keeps_snapshots w (world_of (delete_users_id id w))
  \/ clears_snapshots (world_of (delete_users_id id w)).
Proof.
  unfold delete_users_id, try_catch, bind, Model.findById, Model.deleteOne,
    Redis.keys, Redis.del, Redis.call, ret, response_of, world_of, events_of,
    keeps_snapshots, clears_snapshots.
  open_world w.
  destruct (find _ store0) as [user|]; steps; [|by left].
  next_fault; steps; try (by intros).
  all: next_fault; steps; try (by intros).
  all: next_fault; steps; try (by intros).
  all: destruct (0 <? _) eqn:Hlen; steps.
  all: try (next_fault; steps; try (by intros)).
  all: intros _; right; intros k Hk.
  all: match goal with
       | Hk : list_cache_key ?k = true
         |- foldr delete ?c (List.filter _ _) !! ?k = None =>
           rewrite lookup_foldr_delete_keys; fold (list_cache_key k);
           by rewrite Hk
       | Hk : list_cache_key ?k = true,
         H : (0 <? Z.of_nat (length ?l)) = false |- ?c !! ?k = None =>
           pose proof (lookup_foldr_delete_keys "users:list:*" c k) as Hp;
           fold (list_cache_key k) in Hp; rewrite Hk in Hp;
           destruct l; [exact Hp | discriminate H]
       end.
Qed.

Lemma get_users_effect (q : ListQuery) (w : World) :
  redis_failed (events_of (get_users q w)) = false ->
  store (world_of (get_users q w)) = store w
  /\ (cache (world_of (get_users q w)) = cache w
      \/ exists k v,
           cache (world_of (get_users q w))
           = <[k := mkEntry v (Some 300)]> (cache w)
           /\ snapshot_of k (Z.of_nat (length (store w))) v).
Proof.
  unfold get_users, try_catch, bind, Redis.get, Redis.setEx, Redis.call,
    Model.find, Model.find_page, Model.countDocuments, ret, events_of,
    response_of, world_of.
  open_world w.
  destruct (is_not_zero (JS.parseInt (q_paginate q))); cbn [negb]; steps.
  all: next_fault; steps; try (by intros).
  all: match goal with
       | |- context [value <$> ?c !! ?k] =>
           destruct (c !! k); cbn [fmap option_fmap option_map]; steps
       end.
  all: try (intros _; split; [reflexivity | by left]).
  all: try match goal with
       | |- context [?a <? 0] => destruct (a <? 0); steps
       end.
  all: try (intros _; split; [reflexivity | by left]).
  all: try (next_fault; steps; try (by intros)).
  all: intros _; split; [reflexivity|]; right; eexists _, _;
    (split; [reflexivity|]).
  all: first [ by left; eauto | right; eauto ].
Qed.

(** ** The keys of the list snapshots tell the page and the limit *)

Lemma string_of_uint_numeric (d : Decimal.uint) :
  numeric (NilEmpty.string_of_uint d) = true.
Proof. induction d; cbn; auto. Qed.

Lemma NilZero_string_of_uint_numeric (d : Decimal.uint) :
  numeric (NilZero.string_of_uint d) = true.
Proof.
  destruct d; try reflexivity;
    match goal with
    | |- numeric (NilZero.string_of_uint ?x) = true =>
        apply (string_of_uint_numeric x)
    end.
Qed.

Lemma Number_toString_numeric (n : Z) : numeric (JS.Number_toString n) = true.
Proof.
  unfold JS.Number_toString, NilZero.string_of_int.
  destruct (Z.to_int n) as [d|d]; cbn [numeric];
    by rewrite NilZero_string_of_uint_numeric.
Qed.

Lemma Number_toString_inj (n m : Z) :
  JS.Number_toString n = JS.Number_toString m -> n = m.
Proof.
  unfold JS.Number_toString. intros H.
  apply DecimalZ.to_int_inj.
  assert (Hnn : forall z, Z.to_int z <> Decimal.Pos Decimal.Nil
                          /\ Z.to_int z <> Decimal.Neg Decimal.Nil).
  { intros [|p|p]; cbn; split; try discriminate;
      intros [= Hp]; by apply Unsigned.to_uint_nonnil in Hp. }
  destruct (Hnn n) as [Hn1 Hn2], (Hnn m) as [Hm1 Hm2].
  apply (f_equal NilZero.int_of_string) in H.
  rewrite !NilZero.isi in H by assumption. congruence.
Qed.

(** Two texts without a colon that are followed by a colon. *)
Lemma colon_splits (s1 s2 t1 t2 : string) :
  numeric s1 = true -> numeric s2 = true ->
  s1 +:+ String ":" t1 = s2 +:+ String ":" t2 -> s1 = s2 /\ t1 = t2.
Proof.
  revert s2. induction s1 as [|c s1 IH]; intros [|c' s2] H1 H2 H;
    cbv [String.append] in H; fold String.append in H; cbn in H1, H2.
  - injection H as ->. by split.
  - injection H as <- _. discriminate H2.
  - injection H as -> _. discriminate H1.
  - injection H as -> H.
    apply andb_prop in H1 as [_ H1]. apply andb_prop in H2 as [_ H2].
    destruct (IH s2 H1 H2 H) as [-> ->]. by split.
Qed.

Lemma list_key_inj (page limit page' limit' : Z) :
  list_key page limit = list_key page' limit' ->
  page = page' /\ limit = limit'.
Proof.
  unfold list_key. intros H.
  do 11 (apply (f_equal (fun s => match s with
                                  | String _ s' => s'
                                  | EmptyString => EmptyString
                                  end)) in H;
         cbv [String.append] in H; fold String.append in H).
  apply colon_splits in H as [Hp Hl]; try apply Number_toString_numeric.
  split; by apply Number_toString_inj.
Qed.

Lemma list_key_not_all (page limit : Z) : list_key page limit <> "users:list:all".
Proof.
  unfold list_key. intros H.
  do 11 (apply (f_equal (fun s => match s with
                                  | String _ s' => s'
                                  | EmptyString => EmptyString
                                  end)) in H;
         cbv [String.append] in H; fold String.append in H).
  pose proof (Number_toString_numeric page) as Hn.
  destruct (JS.Number_toString page) as [|c s];
    cbv [String.append] in H; fold String.append in H.
  - discriminate H.
  - injection H as -> _. discriminate Hn.
Qed.

Lemma keeps_current (w w' : World) :
  snapshots_current w -> keeps_snapshots w w' -> snapshots_current w'.
Proof.
  intros Hw [Hlen Hkeep] k e Hk He.
  rewrite Hlen. apply Hw; [exact Hk|]. by rewrite <- Hkeep.
Qed.

Lemma clears_current (w' : World) : clears_snapshots w' -> snapshots_current w'.
Proof. intros Hclear k e Hk He. rewrite (Hclear k Hk) in He. discriminate He. Qed.

Lemma get_users_current (q : ListQuery) (w : World) :
  snapshots_current w ->
  redis_failed (events_of (get_users q w)) = false ->
  snapshots_current (world_of (get_users q w)).
Proof.
  intros Hw Hok k e Hk He.
  destruct (get_users_effect q w Hok) as [Hs [Hc|(k' & v & Hc & Hv)]];
    rewrite Hs; rewrite Hc in He.
  - by apply Hw.
  - rewrite lookup_insert in He. case_decide as Hkk.
    + injection He as <-. by subst k'.
    + by apply Hw.
Qed.

Lemma router_current (bcrypt_hash : string -> string) (req : Request) (w : World) :
  snapshots_current w ->
  redis_failed (events_of (router bcrypt_hash req w)) = false ->
  snapshots_current (world_of (router bcrypt_hash req w)).
Proof.
  intros Hw Hok. destruct req; cbn [router] in *.
  - by apply get_users_current.
  - destruct (post_users_keeps_or_clears _ _ _ Hok);
      [by eapply keeps_current | by apply clears_current].
  - eapply keeps_current; [exact Hw | by apply get_users_account_keeps].
  - eapply keeps_current; [exact Hw | by apply get_users_identity_keeps].
  - eapply keeps_current; [exact Hw | by apply put_users_id_keeps].
  - destruct (delete_users_id_keeps_or_clears _ _ Hok);
      [by eapply keeps_current | by apply clears_current].
Qed.

(** Along every run without a Redis failure the list snapshots of the
    cache carry the present number of documents. *)
Lemma reachable_current (bcrypt_hash : string -> string) (w : World) :
  reachable bcrypt_hash w -> snapshots_current w.
Proof.
  induction 1 as [s f t n|w req _ IH Hok|w f t _ IH|w k' _ IH].
  - intros k e _ He. cbn in He. by rewrite lookup_empty in He.
  - by apply router_current.
  - exact IH.
  - intros k e Hk He. cbn [cache store set_cache] in *.
    apply lookup_delete_Some in He as [_ He]. by apply IH.
Qed.




(** ** Numbers in the query string *)

Lemma digits_cons (c : ascii) (k : Z) (acc : option Z) (s : string) :
  JS.digit_value c = Some k -> k < 10 ->
  JS.digits 10 acc (String c s) = JS.digits 10 (Some (10 * default 0 acc + k)) s.
Proof.
  intros Hc Hk. cbn [JS.digits]. rewrite Hc.
  apply Z.ltb_lt in Hk. by rewrite Hk.
Qed.

(** Reading the decimal digits [d] after the digits [d'] (kept in
    reverse) gives the number whose digits are [d'] followed by [d]. *)
Lemma digits_string_of_uint (d d' : Decimal.uint) (acc : option Z) :
  default 0 acc = Z.of_N (DecimalPos.Unsigned.of_lu d') ->
  JS.digits 10 acc (NilEmpty.string_of_uint d)
  = match d with
    | Decimal.Nil => acc
    | _ => Some (Z.of_N (DecimalPos.Unsigned.of_lu (Decimal.revapp d d')))
    end.
Proof.
  revert d' acc.
  induction d as [|d IH|d IH|d IH|d IH|d IH|d IH|d IH|d IH|d IH|d IH];
    intros d' acc Hacc; [reflexivity|..];
    cbn [NilEmpty.string_of_uint Decimal.revapp].
  1: rewrite (digits_cons _ 0) by (reflexivity || lia);
     rewrite (IH (Decimal.D0 d')).
  3: rewrite (digits_cons _ 1) by (reflexivity || lia);
     rewrite (IH (Decimal.D1 d')).
  5: rewrite (digits_cons _ 2) by (reflexivity || lia);
     rewrite (IH (Decimal.D2 d')).
  7: rewrite (digits_cons _ 3) by (reflexivity || lia);
     rewrite (IH (Decimal.D3 d')).
  9: rewrite (digits_cons _ 4) by (reflexivity || lia);
     rewrite (IH (Decimal.D4 d')).
  11: rewrite (digits_cons _ 5) by (reflexivity || lia);
      rewrite (IH (Decimal.D5 d')).
  13: rewrite (digits_cons _ 6) by (reflexivity || lia);
      rewrite (IH (Decimal.D6 d')).
  15: rewrite (digits_cons _ 7) by (reflexivity || lia);
      rewrite (IH (Decimal.D7 d')).
  17: rewrite (digits_cons _ 8) by (reflexivity || lia);
      rewrite (IH (Decimal.D8 d')).
  19: rewrite (digits_cons _ 9) by (reflexivity || lia);
      rewrite (IH (Decimal.D9 d')).
  all: try (destruct d; cbn [Decimal.revapp]; try reflexivity; f_equal;
            cbn [default from_option id DecimalPos.Unsigned.of_lu];
            rewrite Hacc; lia).
  all: cbn [default from_option id DecimalPos.Unsigned.of_lu]; rewrite Hacc; lia.
Qed.

(** The decimal text of a positive number starts with a digit: there is
    no white space, no sign and no [0x] for [parseInt] to strip. *)
Lemma digits_have_no_prefix (d : Decimal.uint) :
  d <> Decimal.Nil ->
  JS.trimStart (NilEmpty.string_of_uint d) = NilEmpty.string_of_uint d
  /\ JS.strip_sign (NilEmpty.string_of_uint d) = (1, NilEmpty.string_of_uint d)
  /\ JS.strip_radix (NilEmpty.string_of_uint d) = (10, NilEmpty.string_of_uint d).
Proof.
  intros Hd. destruct d as [|d|d|d|d|d|d|d|d|d|d]; [by destruct Hd|..].
  all: repeat split; try reflexivity.
  destruct d; reflexivity.
Qed.

Lemma digits_of_positive (p : positive) :
  JS.digits 10 None (NilEmpty.string_of_uint (Pos.to_uint p)) = Some (Z.pos p).
Proof.
  rewrite (digits_string_of_uint _ Decimal.Nil) by reflexivity.
  pose proof (DecimalPos.Unsigned.to_uint_nonnil p) as Hnil.
  pose proof (DecimalPos.Unsigned.of_to p) as Hof.
  rewrite DecimalPos.Unsigned.of_uint_alt in Hof. unfold Decimal.rev in Hof.
  destruct (Pos.to_uint p); [by destruct Hnil|..]; by rewrite Hof.
Qed.

Lemma parseInt_Number_toString (n : Z) :
  JS.parseInt (Some (JS.Number_toString n)) = Some n.
Proof.
  destruct n as [|p|p]; [reflexivity|..].
  - pose proof (DecimalPos.Unsigned.to_uint_nonnil p) as Hnil.
    destruct (digits_have_no_prefix _ Hnil) as (Ht & Hs & Hr).
    assert (Hn : JS.Number_toString (Z.pos p)
                 = NilEmpty.string_of_uint (Pos.to_uint p)).
    { unfold JS.Number_toString. cbn [Z.to_int NilZero.string_of_int].
      unfold NilZero.string_of_uint. destruct (Pos.to_uint p); try reflexivity.
      by destruct Hnil. }
    unfold JS.parseInt. rewrite Hn, Ht, Hs, Hr, digits_of_positive.
    reflexivity.
  - pose proof (DecimalPos.Unsigned.to_uint_nonnil p) as Hnil.
    destruct (digits_have_no_prefix _ Hnil) as (Ht & Hs & Hr).
    assert (Hn : JS.Number_toString (Z.neg p)
                 = String "-" (NilEmpty.string_of_uint (Pos.to_uint p))).
    { unfold JS.Number_toString. cbn [Z.to_int NilZero.string_of_int].
      unfold NilZero.string_of_uint. destruct (Pos.to_uint p); try reflexivity.
      by destruct Hnil. }
    unfold JS.parseInt. rewrite Hn.
    change (JS.trimStart (String "-" ?s)) with (String "-" s).
    cbn [JS.trimStart]. change (JS.is_whitespace "-") with false. cbn iota.
    cbn [JS.strip_sign]. rewrite Hr, digits_of_positive. reflexivity.
Qed.

(** ** C7: the response of the list route *)

Lemma asks_parseInt (v : option string) (d n : Z) :
  asks v d n -> n <> 0 -> d <> 0 -> JS.or_default (JS.parseInt v) d = n.
Proof.
  intros [->|[-> ->]] Hn Hd.
  - rewrite parseInt_Number_toString. by destruct n.
  - reflexivity.
Qed.

Lemma toJSON_minus_password_public (u : User) :
  Schema.toJSON_minus_password u = public_document u.
Proof. reflexivity. Qed.

Lemma map_toJSON_minus_password (l : list User) :
  map Schema.toJSON_minus_password l = map public_document l.
Proof. reflexivity. Qed.




(** The second page of two among the five users: the third and the
    second of them. *)
Example five_users_second_page :
  body (response_of (get_users second_page_of_two five_users_world))
  = JObj [ ("users",
            JArr [ public_document (user_number 3 300);
                   public_document (user_number 2 200) ]);
           ("pagination",
            JObj [ ("currentPage", JNum 2); ("totalPages", JNum 3);
                   ("totalItems", JNum 5); ("itemsPerPage", JNum 2) ]) ].
Proof. vm_compute. reflexivity. Qed.


(** ** The cache never holds a password *)

Lemma ret_keeps {A} (a : A) (Q : A -> Prop) :
  Q a -> keeps_password_free (ret a) Q.
Proof. intros Ha w Hw. split; [exact Hw|]. by intros ? [= <-]. Qed.

Lemma throw_keeps {A} (e : Error) (Q : A -> Prop) :
  keeps_password_free (throw e) Q.
Proof. intros w Hw. split; [exact Hw|]. intros ? [=]. Qed.

Lemma bind_keeps {A B} (m : M A) (f : A -> M B) (Q : A -> Prop) (R : B -> Prop) :
  keeps_password_free m Q ->
  (forall a, Q a -> keeps_password_free (f a) R) ->
  keeps_password_free (bind m f) R.
Proof.
  intros Hm Hf w Hw. unfold bind.
  destruct (Hm w Hw) as [Hw1 Hq].
  destruct (m w) as [[[a|e] w1] ev1]; cbn [fst snd] in *.
  - destruct (Hf a (Hq a eq_refl) w1 Hw1) as [Hw2 Hr].
    destruct (f a w1) as [[r w2] ev2]. by split.
  - split; [exact Hw1|]. intros ? [=].
Qed.

Lemma weaken_keeps {A} (m : M A) (Q Q' : A -> Prop) :
  keeps_password_free m Q -> (forall a, Q a -> Q' a) ->
  keeps_password_free m Q'.
Proof. intros Hm HQ w Hw. destruct (Hm w Hw). split; auto. Qed.

(** A command that leaves in the cache old entries and entries without
    a password. *)
Lemma call_keeps {A} (op : RedisOp)
    (run : gmap string CacheEntry -> A * gmap string CacheEntry) (Q : A -> Prop) :
  (forall c,
     (forall k e, c !! k = Some e -> mentions "password" (value e) = false) ->
     (forall k e, snd (run c) !! k = Some e ->
                  mentions "password" (value e) = false)
     /\ Q (fst (run c))) ->
  keeps_password_free (Redis.call op run) Q.
Proof.
  intros Hrun w Hw. unfold Redis.call.
  destruct (hd false (faults w)).
  - split; [exact Hw|]. intros ? [=].
  - destruct (Hrun (cache w) Hw) as [Hc Hq].
    destruct (run (cache w)) as [a c]. split; [exact Hc|].
    by intros ? [= <-].
Qed.

Lemma get_keeps (key : string) :
  keeps_password_free (Redis.get key)
    (fun r => forall v, r = Some v -> mentions "password" v = false).
Proof.
  apply call_keeps. intros c Hc. split; [exact Hc|].
  cbn [fst]. intros v Hv.
  destruct (c !! key) as [e|] eqn:He; [|discriminate Hv].
  injection Hv as <-. by eapply Hc.
Qed.

Lemma set_keeps (key : string) (v : json) :
  mentions "password" v = false ->
  keeps_password_free (Redis.set key v) (fun _ => True).
Proof.
  intros Hv. apply call_keeps. intros c Hc. split; [|exact I].
  cbn [snd]. intros k e. rewrite lookup_insert. case_decide.
  - by intros [= <-].
  - apply Hc.
Qed.

Lemma setEx_keeps (key : string) (seconds : Z) (v : json) :
  mentions "password" v = false ->
  keeps_password_free (Redis.setEx key seconds v) (fun _ => True).
Proof.
  intros Hv. apply call_keeps. intros c Hc. split; [|exact I].
  cbn [snd]. intros k e. rewrite lookup_insert. case_decide.
  - by intros [= <-].
  - apply Hc.
Qed.

Lemma del_keeps (keys : list string) :
  keeps_password_free (Redis.del keys) (fun _ => True).
Proof.
  apply call_keeps. intros c Hc. split; [|exact I].
  cbn [snd]. intros k e He.
  apply lookup_foldr_delete_Some in He as [_ He]. by eapply Hc.
Qed.

Lemma keys_keeps (pattern : string) :
  keeps_password_free (Redis.keys pattern) (fun _ => True).
Proof. apply call_keeps. intros c Hc. by split. Qed.

(** The calls on the model leave the cache alone. *)
Lemma model_keeps {A} (m : M A) (Q : A -> Prop) :
  (forall w, cache (snd (fst (m w))) = cache w) ->
  (forall w a, fst (fst (m w)) = Ok a -> Q a) ->
  keeps_password_free m Q.
Proof.
  intros Hc Hq w Hw. split; [|by apply Hq].
  intros k e. rewrite Hc. apply Hw.
Qed.

Lemma mentions_users (users : list User) :
  existsb (mentions "password") (map Schema.toJSON_minus_password users) = false.
Proof. induction users as [|u l IH]; [reflexivity|]. cbn [map existsb]. by rewrite IH. Qed.

Lemma find_keeps :
  keeps_password_free Model.find
    (fun users => existsb (mentions "password") users = false).
Proof.
  apply model_keeps; [reflexivity|].
  intros w a [= <-]. apply mentions_users.
Qed.

Lemma find_page_keeps (skip limit : Z) :
  keeps_password_free (Model.find_page skip limit)
    (fun users => existsb (mentions "password") users = false).
Proof.
  apply model_keeps; unfold Model.find_page; intros w;
    destruct (skip <? 0); try reflexivity.
  - intros a [=].
  - intros a [= <-]. apply mentions_users.
Qed.

Lemma countDocuments_keeps :
  keeps_password_free Model.countDocuments (fun _ => True).
Proof. by apply model_keeps. Qed.

Lemma findOne_select_keeps (c : Cond) :
  keeps_password_free (Model.findOne_select c)
    (fun r => forall v, r = Some v -> mentions "password" v = false).
Proof.
  apply model_keeps; [reflexivity|].
  intros w a [= <-] v Hv.
  destruct (find _ (store w)); [|discriminate Hv]. by injection Hv as <-.
Qed.

Lemma findById_keeps (id : ObjectId) :
  keeps_password_free (Model.findById id) (fun _ => True).
Proof. by apply model_keeps. Qed.

Lemma findOne_other_keeps (id : ObjectId) (or : list Cond) :
  keeps_password_free (Model.findOne_other id or) (fun _ => True).
Proof.
  apply model_keeps; [|done].
  intros w. unfold Model.findOne_other. by destruct or.
Qed.

Lemma new_User_keeps (n a e i p : string) :
  keeps_password_free (Model.new_User n a e i p) (fun _ => True).
Proof. by apply model_keeps. Qed.

Lemma save_keeps (u : User) : keeps_password_free (Model.save u) (fun _ => True).
Proof.
  apply model_keeps; [|done].
  intros w. unfold Model.save.
  destruct (negb (Schema.validate u)); [reflexivity|].
  by destruct (existsb (Model.clashes u) (store w)).
Qed.

Lemma findByIdAndUpdate_keeps (id : ObjectId) (upd : Updates) :
  keeps_password_free (Model.findByIdAndUpdate id upd) (fun _ => True).
Proof.
  apply model_keeps; [|done].
  intros w. unfold Model.findByIdAndUpdate.
  destruct (negb (Model.update_valid (Model.cast_update upd))); [reflexivity|].
  destruct (List.find _ (store w)); [|reflexivity].
  by destruct (existsb _ (store w)).
Qed.

Lemma deleteOne_keeps (u : User) :
  keeps_password_free (Model.deleteOne u) (fun _ => True).
Proof. by apply model_keeps. Qed.

Lemma hash_keeps (h : string -> string) (p : option string) :
  keeps_password_free (hash h p) (fun _ => True).
Proof. destruct p; [by apply ret_keeps | apply throw_keeps]. Qed.

(** A route whose body keeps the cache free of passwords and resolves to
    responses without one, its [catch] answering without one too. *)
Lemma try_catch_keeps (m : M Response) (handler : Error -> Response)
    (Q : Response -> Prop) (w : World) :
  keeps_password_free m Q ->
  (forall e, Q (handler e)) ->
  cache_password_free w ->
  cache_password_free (world_of (try_catch m handler w))
  /\ Q (response_of (try_catch m handler w)).
Proof.
  intros Hm Hh Hw. unfold try_catch, world_of, response_of.
  destruct (Hm w Hw) as [Hw1 Hq].
  destruct (m w) as [[[r|e] w1] ev]; cbn [fst snd] in *; split; auto.
Qed.

Lemma when_keeps (b : bool) (m : M unit) :
  keeps_password_free m (fun _ => True) ->
  keeps_password_free (if b then m else ret tt) (fun _ => True).
Proof. intros Hm. destruct b; [exact Hm | by apply ret_keeps]. Qed.

Lemma users_response_clean (users : list json) :
  existsb (mentions "password") users = false ->
  mentions "password" (JObj [("users", JArr users)]) = false.
Proof. intros H. cbn. by rewrite H. Qed.

Lemma page_response_clean (users : list json) (page limit total : Z) :
  existsb (mentions "password") users = false ->
  mentions "password"
    (JObj [ ("users", JArr users);
            ("pagination", pagination page limit total) ]) = false.
Proof.
  intros H. unfold pagination.
  destruct (JS.Math_ceil_div total limit); cbn; by rewrite H.
Qed.

(** Walks through the body of a route with the rules above. *)
Ltac keeps :=
  repeat first
    [ apply ret_keeps
    | apply throw_keeps
    | apply when_keeps
    | apply get_keeps | apply find_keeps | apply find_page_keeps
    | apply countDocuments_keeps | apply findOne_select_keeps
    | apply findById_keeps | apply findOne_other_keeps
    | apply new_User_keeps | apply save_keeps | apply findByIdAndUpdate_keeps
    | apply deleteOne_keeps | apply hash_keeps | apply keys_keeps
    | apply del_keeps | apply set_keeps | apply setEx_keeps
    | eapply bind_keeps; [|intros ? ?]
    | match goal with
      | |- keeps_password_free (match ?x with _ => _ end) _ => destruct x
      | |- keeps_password_free (if ?b then _ else _) _ => destruct b
      end ].

Lemma get_users_keeps (q : ListQuery) (w : World) :
  cache_password_free w ->
  cache_password_free (world_of (get_users q w))
  /\ mentions "password" (body (response_of (get_users q w))) = false.
Proof.
  apply (try_catch_keeps _ _ (fun r => mentions "password" (body r) = false));
    [|reflexivity].
  cbv zeta. keeps.
  all: cbn [body res_json]; auto using users_response_clean, page_response_clean.
Qed.

Lemma post_users_keeps (h : string -> string) (b : CreateBody) (w : World) :
  cache_password_free w ->
  cache_password_free (world_of (post_users h b w))
  /\ mentions "password" (body (response_of (post_users h b w))) = false.
Proof.
  apply (try_catch_keeps _ _ (fun r => mentions "password" (body r) = false)).
  - keeps; reflexivity.
  - intros e. by destruct e.
Qed.

Lemma get_users_account_clean (k : string) (w : World) :
  cache_password_free w ->
  cache_password_free (world_of (get_users_account k w))
  /\ mentions "password" (body (response_of (get_users_account k w))) = false.
Proof.
  apply (try_catch_keeps _ _ (fun r => mentions "password" (body r) = false));
    [|reflexivity].
  keeps; cbn [body res_json not_found]; auto.
Qed.

Lemma get_users_identity_clean (k : string) (w : World) :
  cache_password_free w ->
  cache_password_free (world_of (get_users_identity k w))
  /\ mentions "password" (body (response_of (get_users_identity k w))) = false.
Proof.
  apply (try_catch_keeps _ _ (fun r => mentions "password" (body r) = false));
    [|reflexivity].
  keeps; cbn [body res_json not_found]; auto.
Qed.

Lemma put_users_id_clean (id : ObjectId) (updates : Updates) (w : World) :
  cache_password_free w ->
  cache_password_free (world_of (put_users_id id updates w)).
Proof.
  intros Hw.
  apply (try_catch_keeps _ _ (fun _ => True)); [|done|exact Hw].
  keeps; exact I.
Qed.

Lemma delete_users_id_clean (id : ObjectId) (w : World) :
  cache_password_free w ->
  cache_password_free (world_of (delete_users_id id w))
  /\ mentions "password" (body (response_of (delete_users_id id w))) = false.
Proof.
  apply (try_catch_keeps _ _ (fun r => mentions "password" (body r) = false));
    [|reflexivity].
  keeps; reflexivity.
Qed.

(** Whatever the request and whatever Redis does, a cache without
    passwords stays so; and every route but the update answers without a
    password, from the cache as from the store. *)
Lemma router_password_free (bcrypt_hash : string -> string) (req : Request)
    (w : World) :
  cache_password_free w ->
  cache_password_free (world_of (router bcrypt_hash req w))
  /\ ((forall id updates, req <> PUT_users_id id updates) ->
      mentions "password" (body (response_of (router bcrypt_hash req w)))
      = false).
Proof.
  intros Hw. destruct req as [q|b|k|k|id updates|id]; cbn [router].
  - destruct (get_users_keeps q w Hw). by split.
  - destruct (post_users_keeps bcrypt_hash b w Hw). by split.
  - destruct (get_users_account_clean k w Hw). by split.
  - destruct (get_users_identity_clean k w Hw). by split.
  - split; [by apply put_users_id_clean|].
    intros Hne. by destruct (Hne id updates).
  - destruct (delete_users_id_clean id w Hw). by split.
Qed.

(** ** A scenario: create, look up, delete, look up *)

Example create_lookup_delete_lookup :
  let w0 := mkWorld [] ∅ [] 3000 1%N in
  let created := post_users sample_hash
                   (mkCreateBody "A" "A1" "a@x.com" "I1" (Some "secret")) w0 in
  let found := get_users_account "A1" (world_of created) in
  let deleted := delete_users_id 1%N (world_of found) in
  let gone := get_users_account "A1" (world_of deleted) in
  status (response_of created) = 201
  /\ status (response_of found) = 200
  /\ mentions "password" (body (response_of found)) = false
  /\ status (response_of deleted) = 200
  /\ response_of gone = not_found.
Proof. vm_compute. repeat split. Qed.

(** * More of the routes *)

(** ** The delete route *)

Lemma find_by_id_Some (id : ObjectId) (l : list User) (u : User) :
  List.find (fun u => N.eqb (_id u) id) l = Some u -> In u l /\ _id u = id.
Proof.
  intros H. apply find_some in H as [Hin Hid]. split; [exact Hin|].
  by apply N.eqb_eq.
Qed.

(** What a delete that answers 200 did. *)
Lemma delete_users_id_deleted (id : ObjectId) (w : World) :
  status (response_of (delete_users_id id w)) = 200 ->
  exists target : User,
    List.find (fun u => N.eqb (_id u) id) (store w) = Some target
    /\ store (world_of (delete_users_id id w)) = Model.remove_first id (store w)
    /\ (forall k,
          cache (world_of (delete_users_id id w)) !! k
          = if list_cache_key k then None
            else delete ("user:identity:" +:+ identityNumber target)
                   (delete ("user:" +:+ accountNumber target) (cache w)) !! k)
    /\ response_of (delete_users_id id w)
       = res_json (message "User deleted successfully")
    /\ exists rest,
         events_of (delete_users_id id w)
         = ([ Mongo (OpFindById id);
              Redis (OpDel ["user:" +:+ accountNumber target]) true;
              Redis (OpDel ["user:identity:" +:+ identityNumber target]) true;
              Redis (OpKeys "users:list:*") true ]
            ++ rest ++ [Mongo (OpDeleteOne id)])%list
         /\ forall e, In e rest -> exists keys, e = Redis (OpDel keys) true.
Proof.
  unfold delete_users_id, try_catch, bind, Model.findById, Model.deleteOne,
    Redis.keys, Redis.del, Redis.call, ret, response_of, world_of, events_of.
  open_world w.
  intros Hs.
  destruct (find _ store0) as [target|] eqn:Ht; steps; [|wrong_status Hs].
  apply find_by_id_Some in Ht as Hid. destruct Hid as [_ Hid].
  next_fault; steps; try wrong_status Hs.
  all: next_fault; steps; try wrong_status Hs.
  all: next_fault; steps; try wrong_status Hs.
  all: destruct (0 <? _) eqn:Hlen; steps.
  all: try (next_fault; steps; try wrong_status Hs).
  all: exists target; split; [reflexivity|]; rewrite Hid.
  all: split; [reflexivity|].
  all: split; [intros k; unfold list_cache_key | split; [reflexivity|]].
  all: try match goal with
       | |- exists rest, _ => idtac
       | Hl : (0 <? Z.of_nat (length ?l)) = true |- _ =>
           cbn [foldr]; apply lookup_foldr_delete_keys
       | Hl : (0 <? Z.of_nat (length ?l)) = false |- _ =>
           match l with
           | context [map_to_list ?c] =>
               pose proof (lookup_foldr_delete_keys "users:list:*" c k) as Hp;
               revert Hl Hp; generalize l; intros l' Hl Hp;
               destruct l'; [exact Hp | discriminate Hl]
           end
       end.
  all: match goal with
       | Hl : (0 <? Z.of_nat (length ?l)) = true |- _ =>
           exists [Redis (OpDel l) true]; split; [reflexivity|];
           intros e Hin; cbn [In] in Hin; destruct Hin as [<-|[]]; eauto
       | Hl : (0 <? Z.of_nat (length ?l)) = false |- _ =>
           exists []; split; [reflexivity|]; intros e []
       end.
Qed.

(** X1.  A delete that answers 200 found the record, removed it from the
    collection, and left the cache without the slots
    [user:{accountNumber}] and [user:identity:{identityNumber}] of the
    record and without any key matching [users:list:*]; every other key
    is as it was.  The calls came in this order: the lookup by id, the
    two [DEL] of the slots, [KEYS] and the [DEL] of what it found, and
    last the removal from the collection. *)
Theorem delete_removes_the_record_and_its_cache (id : ObjectId) (w : World) :
  status (response_of (delete_users_id id w)) = 200 ->
  exists target : User,
    List.find (fun u => N.eqb (_id u) id) (store w) = Some target
    /\ store (world_of (delete_users_id id w)) = Model.remove_first id (store w)
    /\ cache (world_of (delete_users_id id w)) !! ("user:" +:+ accountNumber target)
       = None
    /\ cache (world_of (delete_users_id id w))
         !! ("user:identity:" +:+ identityNumber target) = None
    /\ (forall k, list_cache_key k = true ->
          cache (world_of (delete_users_id id w)) !! k = None)
    /\ (forall k, list_cache_key k = false ->
          k <> "user:" +:+ accountNumber target ->
          k <> "user:identity:" +:+ identityNumber target ->
          cache (world_of (delete_users_id id w)) !! k = cache w !! k)
    /\ response_of (delete_users_id id w)
       = res_json (message "User deleted successfully")
    /\ exists rest,
         events_of (delete_users_id id w)
         = ([ Mongo (OpFindById id);
              Redis (OpDel ["user:" +:+ accountNumber target]) true;
              Redis (OpDel ["user:identity:" +:+ identityNumber target]) true;
              Redis (OpKeys "users:list:*") true ]
            ++ rest ++ [Mongo (OpDeleteOne id)])%list
         /\ forall e, In e rest -> exists keys, e = Redis (OpDel keys) true.
Proof.
  intros H.
  destruct (delete_users_id_deleted id w H) as (t & Ht & Hs & Hc & Hr & Hev).
  exists t. split; [exact Ht|]. split; [exact Hs|].
  repeat split.
  - rewrite Hc, point_key_not_list_key.
    destruct (decide ("user:" +:+ accountNumber t
                      = "user:identity:" +:+ identityNumber t)) as [->|Hne].
    + apply lookup_delete_eq.
    + rewrite lookup_delete_ne by congruence. apply lookup_delete_eq.
  - rewrite Hc.
    change ("user:identity:" +:+ identityNumber t)
      with ("user:" +:+ ("identity:" +:+ identityNumber t)) at 1.
    rewrite point_key_not_list_key. apply lookup_delete_eq.
  - intros k Hk. by rewrite Hc, Hk.
  - intros k Hk Ha Hi. rewrite Hc, Hk.
    by rewrite !lookup_delete_ne by congruence.
  - exact Hr.
  - exact Hev.
Qed.

Lemma delete_removes_the_record_and_its_cache_witness :
  exists target : User,
    List.find (fun u => N.eqb (_id u) 1%N) (store cached_world) = Some target
    /\ store (world_of (delete_users_id 1%N cached_world))
       = Model.remove_first 1%N (store cached_world)
    /\ cache (world_of (delete_users_id 1%N cached_world))
         !! ("user:" +:+ accountNumber target) = None
    /\ cache (world_of (delete_users_id 1%N cached_world))
         !! ("user:identity:" +:+ identityNumber target) = None
    /\ (forall k, list_cache_key k = true ->
          cache (world_of (delete_users_id 1%N cached_world)) !! k = None)
    /\ (forall k, list_cache_key k = false ->
          k <> "user:" +:+ accountNumber target ->
          k <> "user:identity:" +:+ identityNumber target ->
          cache (world_of (delete_users_id 1%N cached_world)) !! k
          = cache cached_world !! k)
    /\ response_of (delete_users_id 1%N cached_world)
       = res_json (message "User deleted successfully")
    /\ exists rest,
         events_of (delete_users_id 1%N cached_world)
         = ([ Mongo (OpFindById 1%N);
              Redis (OpDel ["user:" +:+ accountNumber target]) true;
              Redis (OpDel ["user:identity:" +:+ identityNumber target]) true;
              Redis (OpKeys "users:list:*") true ]
            ++ rest ++ [Mongo (OpDeleteOne 1%N)])%list
         /\ forall e, In e rest -> exists keys, e = Redis (OpDel keys) true.
Proof.
  apply (delete_removes_the_record_and_its_cache 1%N cached_world).
  vm_compute. reflexivity.
Defined.

(** Unless the delete route answers 200, the collection is as it was;
    the cases of the runs whose calls on the model resolve. *)
Lemma delete_users_id_unless_deleted (id : ObjectId) (w : World) :
  status (response_of (delete_users_id id w)) = 200
  \/ (store (world_of (delete_users_id id w)) = store w
      /\ ((response_of (delete_users_id id w) = not_found
           /\ List.find (fun u => N.eqb (_id u) id) (store w) = None
           /\ cache (world_of (delete_users_id id w)) = cache w
           /\ events_of (delete_users_id id w) = [Mongo (OpFindById id)])
          \/ (response_of (delete_users_id id w) = server_error
              /\ redis_failed (events_of (delete_users_id id w)) = true))).
Proof.
  unfold delete_users_id, try_catch, bind, Model.findById, Model.deleteOne,
    Redis.keys, Redis.del, Redis.call, ret, response_of, world_of, events_of.
  open_world w.
  destruct (find _ store0) as [target|] eqn:Ht; steps;
    [|right; split; [reflexivity|]; by left].
  next_fault; steps; try (by right; split; [|right]).
  all: next_fault; steps; try (by right; split; [|right]).
  all: next_fault; steps; try (by right; split; [|right]).
  all: destruct (0 <? _) eqn:Hlen; steps.
  all: try (next_fault; steps; try (by right; split; [|right])).
  all: by left.
Qed.

(** X2.  The delete route removes the record last, after the cache has
    been invalidated: unless it answers 200 the collection is unchanged.
    When it answers 404, no record has the id, and the route made no
    Redis call and changed nothing.  A Redis call that fails gives 500.
    The status is 200, 404 or 500. *)
Theorem delete_changes_the_collection_only_on_success (id : ObjectId) (w : World) :
  (status (response_of (delete_users_id id w)) <> 200 ->
     store (world_of (delete_users_id id w)) = store w)
  /\ (response_of (delete_users_id id w) = not_found ->
      List.find (fun u => N.eqb (_id u) id) (store w) = None
      /\ world_of (delete_users_id id w) = w
      /\ events_of (delete_users_id id w) = [Mongo (OpFindById id)])
  /\ (redis_failed (events_of (delete_users_id id w)) = true ->
      response_of (delete_users_id id w) = server_error)
  /\ (status (response_of (delete_users_id id w)) = 200
      \/ status (response_of (delete_users_id id w)) = 404
      \/ status (response_of (delete_users_id id w)) = 500).
Proof.
  split; [|split; [|split]].
  - intros Hs.
    destruct (delete_users_id_unless_deleted id w) as [H|[H _]]; [by destruct Hs|].
    exact H.
  - intros Hr.
    assert (Hnone : List.find (fun u => N.eqb (_id u) id) (store w) = None).
    { destruct (delete_users_id_unless_deleted id w)
        as [H|[_ [(_ & Hn & _)|(He & _)]]].
      - rewrite Hr in H. discriminate H.
      - exact Hn.
      - rewrite Hr in He. discriminate He. }
    split; [exact Hnone|].
    unfold delete_users_id, try_catch, bind, Model.findById,
      world_of, events_of. rewrite Hnone. by destruct w.
  - apply delete_users_id_rejects.
  - destruct (delete_users_id_unless_deleted id w)
      as [H|[_ [(Hn & _)|(He & _)]]].
    + by left.
    + right; left. by rewrite Hn.
    + right; right. by rewrite He.
Qed.

Lemma delete_changes_the_collection_only_on_success_witness :
  store (world_of (delete_users_id 1%N outage_world)) = store outage_world
  /\ response_of (delete_users_id 1%N outage_world) = server_error
  /\ world_of (delete_users_id 7%N cached_world) = cached_world.
Proof.
  destruct (delete_changes_the_collection_only_on_success 1%N outage_world)
    as (Hs & _ & Hf & _).
  destruct (delete_changes_the_collection_only_on_success 7%N cached_world)
    as (_ & Hn & _).
  split; [apply Hs; vm_compute; discriminate|].
  split; [apply Hf; reflexivity|].
  apply Hn. reflexivity.
Defined.

(** ** The unique fields of a stored record name that record *)

Lemma NoDup_map_eq {A B} (f : A -> B) (l : list A) (x y : A) :
  NoDup (map f l) -> In x l -> In y l -> f x = f y -> x = y.
Proof.
  induction l as [|a l IH]; cbn [map]; intros Hnd Hx Hy Heq; [destruct Hx|].
  apply NoDup_cons in Hnd as [Hnotin Hnd].
  destruct Hx as [->|Hx], Hy as [->|Hy]; auto.
  - destruct Hnotin. rewrite Heq. apply list_elem_of_In, in_map, Hy.
  - destruct Hnotin. rewrite <- Heq. apply list_elem_of_In, in_map, Hx.
Qed.

Lemma remove_first_In (id : ObjectId) (l : list User) (v : User) :
  In v (Model.remove_first id l) -> In v l.
Proof.
  induction l as [|a l IH]; cbn [Model.remove_first]; [auto|].
  destruct (_id a =? id)%N; cbn [In]; intuition.
Qed.

(** With unique ids, removing by id removes the one record of that id. *)
Lemma remove_first_not_In (id : ObjectId) (l : list User) (v : User) :
  NoDup (map _id l) -> In v (Model.remove_first id l) -> _id v <> id.
Proof.
  induction l as [|a l IH]; cbn [Model.remove_first map]; [intros _ []|].
  intros Hnd. apply NoDup_cons in Hnd as [Hnotin Hnd].
  destruct (_id a =? id)%N eqn:Ha.
  - apply N.eqb_eq in Ha. intros Hin <-. apply Hnotin. rewrite Ha.
    apply list_elem_of_In, in_map, Hin.
  - apply N.eqb_neq in Ha. intros [<-|Hin]; [exact Ha | by apply IH].
Qed.

Lemma find_none_of_forall {A} (f : A -> bool) (l : list A) :
  (forall x, In x l -> f x = false) -> List.find f l = None.
Proof.
  induction l as [|a l IH]; intros H; [reflexivity|].
  cbn [List.find]. rewrite (H a (or_introl eq_refl)).
  apply IH. intros x Hx. apply H. by right.
Qed.

Lemma read_through_not_found (key : string) (c : Cond) (w : World)
    (out : Response * World * list Event) :
  read_through key c w out ->
  redis_failed (events_of out) = false ->
  cache w !! key = None ->
  List.find (Model.holds c) (store w) = None ->
  response_of out = not_found.
Proof.
  intros Hrt Hok Hmiss Hnone.
  destruct (Hrt Hok) as (_ & _ & H & _). by destruct (H Hmiss Hnone).
Qed.

(** X3.  Delete, then ask again.  In a collection that respects its
    unique indexes, once a delete has answered 200 the record is gone for
    every route: the lookups by its account number and by its identity
    number answer 404, whatever the cache held before the delete
    (provided the Redis calls of the lookup work), and so do an update
    and a second delete of the same id. *)
Theorem deleted_record_is_not_found (id : ObjectId) (w : World) (target : User)
    (f : list bool) :
  store_unique (store w) ->
  List.find (fun u => N.eqb (_id u) id) (store w) = Some target ->
  status (response_of (delete_users_id id w)) = 200 ->
  let w' := set_faults f (world_of (delete_users_id id w)) in
  (redis_failed (events_of (get_users_account (accountNumber target) w')) = false ->
     response_of (get_users_account (accountNumber target) w') = not_found)
  /\ (redis_failed (events_of (get_users_identity (identityNumber target) w'))
      = false ->
      response_of (get_users_identity (identityNumber target) w') = not_found)
  /\ response_of (delete_users_id id w') = not_found
  /\ (forall updates, response_of (put_users_id id updates w') = not_found).
Proof.
  intros (Hid & Hacc & _ & Hidn) Ht Hs w'.
  destruct (delete_users_id_deleted id w Hs) as (t & Ht' & Hst & Hc & _).
  rewrite Ht in Ht'. injection Ht' as <-.
  apply find_by_id_Some in Ht as [Hin Htid].
  assert (Hgone : forall v, In v (store w') -> _id v <> id /\ In v (store w)).
  { intros v Hv. unfold w' in Hv. cbn [set_faults store] in Hv.
    rewrite Hst in Hv. split; [|by eapply remove_first_In].
    by apply (remove_first_not_In id (store w) v Hid). }
  assert (Hother : forall v, In v (store w') -> v <> target).
  { intros v Hv ->. by destruct (Hgone target Hv). }
  assert (Hnone : List.find (fun u => N.eqb (_id u) id) (store w') = None).
  { apply find_none_of_forall. intros v Hv. apply N.eqb_neq.
    by destruct (Hgone v Hv). }
  split; [|split; [|split]].
  - intros Hok. eapply read_through_not_found;
      [apply get_users_account_read_through | exact Hok | |].
    + unfold w'. cbn [set_faults cache]. rewrite Hc, point_key_not_list_key.
      destruct (decide ("user:" +:+ accountNumber target
                        = "user:identity:" +:+ identityNumber target))
        as [->|Hne].
      * apply lookup_delete_eq.
      * rewrite lookup_delete_ne by congruence. apply lookup_delete_eq.
    + apply find_none_of_forall. intros v Hv.
      destruct (Hgone v Hv) as [_ Hvin]. cbn [Model.holds].
      apply String.eqb_neq. intros Heq. apply (Hother v Hv).
      by apply (NoDup_map_eq accountNumber (store w)).
  - intros Hok. eapply read_through_not_found;
      [apply get_users_identity_read_through | exact Hok | |].
    + unfold w'. cbn [set_faults cache]. rewrite Hc.
      change ("user:identity:" +:+ identityNumber target)
        with ("user:" +:+ ("identity:" +:+ identityNumber target)) at 1.
      rewrite point_key_not_list_key. apply lookup_delete_eq.
    + apply find_none_of_forall. intros v Hv.
      destruct (Hgone v Hv) as [_ Hvin]. cbn [Model.holds].
      apply String.eqb_neq. intros Heq. apply (Hother v Hv).
      by apply (NoDup_map_eq identityNumber (store w)).
  - unfold delete_users_id, try_catch, bind, Model.findById, response_of.
    by rewrite Hnone.
  - intros updates.
    unfold put_users_id, try_catch, bind, Model.findById, response_of.
    by rewrite Hnone.
Qed.

Lemma cached_world_unique : store_unique (store cached_world).
Proof.
  repeat split; cbn; apply NoDup_cons; (split; [apply not_elem_of_nil | apply NoDup_nil_2]).
Qed.

Lemma deleted_record_is_not_found_witness :
  response_of
    (get_users_account "A1"
       (set_faults [] (world_of (delete_users_id 1%N cached_world))))
  = not_found
  /\ response_of
       (get_users_identity "I1"
          (set_faults [] (world_of (delete_users_id 1%N cached_world))))
     = not_found
  /\ response_of
       (delete_users_id 1%N
          (set_faults [] (world_of (delete_users_id 1%N cached_world))))
     = not_found.
Proof.
  destruct (deleted_record_is_not_found 1%N cached_world alice []
              cached_world_unique eq_refl eq_refl) as (Ha & Hi & Hd & _).
  split; [apply Ha; reflexivity|]. split; [apply Hi; reflexivity | exact Hd].
Defined.

(** ** The update route: every outcome *)

Lemma truthy_inv (v : option string) :
  JS.truthy v = true -> exists s, v = Some s /\ s <> "".
Proof.
  destruct v as [s|]; [|discriminate]. cbn [JS.truthy].
  intros H. exists s. split; [reflexivity|].
  intros ->. discriminate H.
Qed.

(** Every condition of the [$or] array comes from a field of the body
    that has a value. *)
Lemma or_conditions_owner (updates : Updates) (other : User) (c : Cond) :
  In c (or_conditions updates) ->
  Model.holds (Model.cast c) other = true ->
  owns_requested_value updates other.
Proof.
  unfold or_conditions. rewrite !in_app_iff.
  intros [Hin|[Hin|Hin]] Hh.
  - destruct (JS.truthy (upd_accountNumber updates)) eqn:Ht; [|destruct Hin].
    apply truthy_inv in Ht as (s & Hs & Hne). rewrite Hs in Hin.
    destruct Hin as [<-|[]]. left. exists s. repeat split; [exact Hs|exact Hne|].
    by apply String.eqb_eq.
  - destruct (JS.truthy (upd_emailAddress updates)) eqn:Ht; [|destruct Hin].
    apply truthy_inv in Ht as (s & Hs & Hne). rewrite Hs in Hin.
    destruct Hin as [<-|[]]. right; left. exists s.
    repeat split; [exact Hs|exact Hne|]. by apply String.eqb_eq.
  - destruct (JS.truthy (upd_identityNumber updates)) eqn:Ht; [|destruct Hin].
    apply truthy_inv in Ht as (s & Hs & Hne). rewrite Hs in Hin.
    destruct Hin as [<-|[]]. right; right. exists s.
    repeat split; [exact Hs|exact Hne|]. by apply String.eqb_eq.
Qed.

Lemma or_conditions_nonempty (updates : Updates) :
  JS.truthy (upd_accountNumber updates)
  || JS.truthy (upd_emailAddress updates)
  || JS.truthy (upd_identityNumber updates) = true ->
  or_conditions updates <> [].
Proof.
  unfold or_conditions.
  destruct (JS.truthy (upd_accountNumber updates)); [discriminate|].
  destruct (JS.truthy (upd_emailAddress updates)); [discriminate|].
  destruct (JS.truthy (upd_identityNumber updates)); [discriminate|].
  discriminate.
Qed.

Lemma required_nonempty (v : string) : Schema.required v = true -> v <> "".
Proof. unfold Schema.required. intros H ->. discriminate H. Qed.

(** When the validators accept the new values, a write that a unique
    index would refuse because of [v] asks for a value that [v] holds. *)
Lemma index_clash_owns (updates : Updates) (t : Z) (u v : User) :
  Model.update_valid (Model.cast_update updates) = true ->
  Model.index_clash u (Model.apply_set (Model.cast_update updates) t u) v = true ->
  owns_requested_value updates v.
Proof.
  unfold Model.update_valid, Model.index_clash, Model.apply_set, Model.cast_update.
  cbn [forallb upd_userName upd_accountNumber upd_emailAddress
       upd_identityNumber upd_password accountNumber emailAddress
       identityNumber].
  rewrite !andb_true_iff, !orb_true_iff, !andb_true_iff, !negb_true_iff.
  intros (_ & Ha & He & Hi & _) [[[Hn Hv]|[Hn Hv]]|[Hn Hv]].
  - destruct (upd_accountNumber updates) as [a|] eqn:E;
      cbn [default from_option id] in *; [|by rewrite String.eqb_refl in Hn].
    left. exists a. split; [exact E|]. split; [by apply required_nonempty|].
    by apply String.eqb_eq.
  - destruct (upd_emailAddress updates) as [a|] eqn:E;
      cbn [default from_option id fmap option_fmap option_map] in *;
      [|by rewrite String.eqb_refl in Hn].
    right; left. exists a. split; [exact E|]. split; [|by apply String.eqb_eq].
    intros ->. by apply required_nonempty in He.
  - destruct (upd_identityNumber updates) as [a|] eqn:E;
      cbn [default from_option id] in *; [|by rewrite String.eqb_refl in Hn].
    right; right. exists a. split; [exact E|].
    split; [by apply required_nonempty|]. by apply String.eqb_eq.
Qed.

(** The four ways an update ends: no record has the id; another record
    holds a requested value; a validator rejects a new value; or the
    record is written, after which the two [DEL] run. *)
Lemma put_users_id_cases (id : ObjectId) (updates : Updates) (w : World) :
  (List.find (fun u => N.eqb (_id u) id) (store w) = None
   /\ put_users_id id updates w = (not_found, w, [Mongo (OpFindById id)]))
  \/ (exists target other,
        List.find (fun u => N.eqb (_id u) id) (store w) = Some target
        /\ In other (store w) /\ _id other <> id
        /\ owns_requested_value updates other
        /\ put_users_id id updates w
           = (conflict, w,
              [ Mongo (OpFindById id);
                Mongo (OpFindOneOther id (or_conditions updates)) ]))
  \/ (exists target,
        List.find (fun u => N.eqb (_id u) id) (store w) = Some target
        /\ (forall other, In other (store w) -> _id other <> id ->
              ~ owns_requested_value updates other)
        /\ Model.update_valid (Model.cast_update updates) = false
        /\ (exists msg, response_of (put_users_id id updates w) = update_error msg)
        /\ world_of (put_users_id id updates w) = w
        /\ redis_failed (events_of (put_users_id id updates w)) = false)
  \/ (exists target,
        List.find (fun u => N.eqb (_id u) id) (store w) = Some target
        /\ (forall other, In other (store w) -> _id other <> id ->
              ~ owns_requested_value updates other)
        /\ Model.update_valid (Model.cast_update updates) = true
        /\ store (world_of (put_users_id id updates w))
           = Model.replace_first id
               (Model.apply_set (Model.cast_update updates) (now w) target)
               (store w)
        /\ ((status (response_of (put_users_id id updates w)) = 200
             /\ redis_failed (events_of (put_users_id id updates w)) = false)
            \/ ((exists msg,
                   response_of (put_users_id id updates w) = update_error msg)
                /\ redis_failed (events_of (put_users_id id updates w)) = true))).
Proof.
  destruct (List.find (fun u => N.eqb (_id u) id) (store w)) as [target|] eqn:Ht.
  2:{ left. split; [reflexivity|].
      unfold put_users_id, try_catch, bind, Model.findById. by rewrite Ht. }
  right.
  (* the conflict query *)
  assert (Hquery :
    (exists other, In other (store w) /\ _id other <> id
                   /\ owns_requested_value updates other
                   /\ (if JS.truthy (upd_accountNumber updates)
                          || JS.truthy (upd_emailAddress updates)
                          || JS.truthy (upd_identityNumber updates)
                       then Model.findOne_other id (or_conditions updates)
                       else ret None) w
                      = (Ok (Some other), w,
                         [Mongo (OpFindOneOther id (or_conditions updates))]))
    \/ ((forall other, In other (store w) -> _id other <> id ->
           ~ owns_requested_value updates other)
        /\ exists ev,
             (if JS.truthy (upd_accountNumber updates)
                 || JS.truthy (upd_emailAddress updates)
                 || JS.truthy (upd_identityNumber updates)
              then Model.findOne_other id (or_conditions updates)
              else ret None) w = (Ok None, w, ev)
             /\ redis_failed ev = false)).
  { destruct (_ || _) eqn:Hg.
    - unfold Model.findOne_other.
      pose proof (or_conditions_nonempty _ Hg) as Hne.
      pose proof (or_conditions_owner updates) as Hown.
      pose proof (or_conditions_hold updates) as Hhold.
      destruct (or_conditions updates) as [|c1 cs]; [by destruct Hne|].
      destruct (List.find (fun u => negb _ && _) (store w)) as [other|] eqn:Hf.
      + left. exists other. apply find_some in Hf as [Hin Hf].
        apply andb_true_iff in Hf as [Hid Hex].
        apply negb_true_iff, N.eqb_neq in Hid.
        apply existsb_exists in Hex as (c & Hc & Hh).
        split; [exact Hin|]. split; [exact Hid|].
        split; [by eapply Hown | reflexivity].
      + right. split; [|by eexists].
        intros other Hin Hid Howns.
        destruct (find_some_of_exists
                    (fun u => negb (N.eqb (_id u) id)
                              && existsb (fun c => Model.holds (Model.cast c) u)
                                   (c1 :: cs))
                    _ other Hin) as [y Hy];
          [|rewrite Hy in Hf; discriminate Hf].
        cbn beta. rewrite (Hhold _ Howns), andb_true_r.
        by apply negb_true_iff, N.eqb_neq.
    - right. split; [|by eexists].
      intros other _ _ Howns.
      rewrite (or_conditions_guard _ _ Howns) in Hg. discriminate Hg. }
  destruct Hquery as [(other & Hin & Hid & Howns & Hq)|(Hfree & ev & Hq & Hev)].
  { left. exists target, other.
    split; [reflexivity|]. split; [exact Hin|]. split; [exact Hid|].
    split; [exact Howns|].
    unfold put_users_id, try_catch, bind, Model.findById.
    rewrite Ht, Hq. reflexivity. }
  right.
  destruct (Model.update_valid (Model.cast_update updates)) eqn:Hv.
  2:{ left. exists target. split; [reflexivity|]. split; [exact Hfree|].
      split; [reflexivity|].
      unfold put_users_id, try_catch, bind, Model.findById, response_of,
        world_of, events_of, Model.findByIdAndUpdate.
      rewrite Ht, Hq, Hv. cbn [negb fst snd app].
      split; [by eexists|]. split; [reflexivity|].
      unfold redis_failed in *. cbn [existsb redis_failure orb].
      by rewrite existsb_app, Hev. }
  right. exists target. split; [reflexivity|]. split; [exact Hfree|].
  split; [reflexivity|].
  assert (Hclash :
    existsb
      (fun v => negb (N.eqb (_id v) id)
                && Model.index_clash target
                     (Model.apply_set (Model.cast_update updates) (now w) target) v)
      (store w) = false).
  { destruct (existsb _ (store w)) eqn:Hex; [|reflexivity].
    apply existsb_exists in Hex as (v & Hin & Hc).
    apply andb_true_iff in Hc as [Hid Hc].
    apply negb_true_iff, N.eqb_neq in Hid.
    destruct (Hfree v Hin Hid). by eapply index_clash_owns. }
  unfold put_users_id, try_catch, bind, Model.findById, response_of,
    world_of, events_of, Model.findByIdAndUpdate.
  rewrite Ht, Hq, Hv. cbn [negb fst snd]. rewrite Ht, Hclash.
  unfold Redis.del, Redis.call, ret. open_world w. steps.
  unfold redis_failed in *.
  next_fault; steps.
  all: try next_fault; steps.
  all: cbn [existsb redis_failure orb]; rewrite existsb_app, Hev;
    cbn [existsb redis_failure orb].
  all: split; [reflexivity|].
  all: first [ by left | right; split; [by eexists | reflexivity] ].
Qed.

Lemma replace_first_find (id : ObjectId) (u' : User) (l : list User) (t : User) :
  List.find (fun u => N.eqb (_id u) id) l = Some t ->
  _id u' = id ->
  List.find (fun u => N.eqb (_id u) id) (Model.replace_first id u' l) = Some u'.
Proof.
  intros Hf Hid. induction l as [|a l IH]; [discriminate Hf|].
  cbn [List.find Model.replace_first] in *.
  destruct (_id a =? id)%N eqn:Ha; cbn [List.find].
  - by rewrite Hid, N.eqb_refl.
  - rewrite Ha. by apply IH.
Qed.

Lemma replace_first_In (id : ObjectId) (u' : User) (l : list User) (v : User) :
  In v (Model.replace_first id u' l) -> v = u' \/ In v l.
Proof.
  induction l as [|a l IH]; cbn [Model.replace_first]; [intros []|].
  destruct (_id a =? id)%N; cbn [In]; intuition.
Qed.

Lemma replace_first_In_other (id : ObjectId) (u' : User) (l : list User) (v : User) :
  _id u' = id -> _id v <> id ->
  (In v (Model.replace_first id u' l) <-> In v l).
Proof.
  intros Hu Hv. induction l as [|a l IH]; cbn [Model.replace_first]; [tauto|].
  destruct (_id a =? id)%N eqn:Ha; cbn [In].
  - apply N.eqb_eq in Ha. split; intros [->|H]; auto; congruence.
  - tauto.
Qed.

(** X4.  A successful update (200) writes the given fields of the record
    with that id, and nothing else: the user name is stored trimmed, the
    email address trimmed and in lower case, the account number, the
    identity number and the password as they were sent (the password is
    not hashed by this route); a field the body does not give keeps its
    value; the id and [createdAt] stay, [updatedAt] is the time of the
    update.  Every other record is untouched and the collection keeps its
    size. *)
Theorem update_sets_only_the_given_fields
    (id : ObjectId) (updates : Updates) (w : World) :
  status (response_of (put_users_id id updates w)) = 200 ->
  exists target updated : User,
    List.find (fun u => N.eqb (_id u) id) (store w) = Some target
    /\ List.find (fun u => N.eqb (_id u) id)
         (store (world_of (put_users_id id updates w))) = Some updated
    /\ _id updated = id
    /\ createdAt updated = createdAt target
    /\ updatedAt updated = now w
    /\ userName updated = from_option JS.trim (userName target) (upd_userName updates)
    /\ accountNumber updated
       = default (accountNumber target) (upd_accountNumber updates)
    /\ emailAddress updated
       = from_option (fun v => JS.trim (JS.toLowerCase v)) (emailAddress target)
           (upd_emailAddress updates)
    /\ identityNumber updated
       = default (identityNumber target) (upd_identityNumber updates)
    /\ password updated = default (password target) (upd_password updates)
    /\ length (store (world_of (put_users_id id updates w))) = length (store w)
    /\ (forall v, _id v <> id ->
          (In v (store (world_of (put_users_id id updates w))) <-> In v (store w))).
Proof.
  intros H.
  destruct (put_users_id_updated _ _ _ H) as (t & u & Ht & Hu & Hs & _ & _).
  apply find_by_id_Some in Ht as Hid. destruct Hid as [_ Hid].
  assert (Huid : _id u = id) by (by rewrite Hu).
  exists t, u. rewrite Hs.
  split; [exact Ht|]. split; [by eapply replace_first_find|].
  split; [exact Huid|].
  rewrite Hu. unfold Model.apply_set, Model.cast_update.
  cbn [_id userName accountNumber emailAddress identityNumber password
       createdAt updatedAt upd_userName upd_accountNumber upd_emailAddress
       upd_identityNumber upd_password].
  repeat split.
  - by destruct (upd_userName updates).
  - by destruct (upd_emailAddress updates).
  - apply replace_first_length.
  - by apply replace_first_In_other.
  - by apply replace_first_In_other.
Qed.

Lemma update_sets_only_the_given_fields_witness :
  exists target updated : User,
    List.find (fun u => N.eqb (_id u) 1%N) (store cached_world) = Some target
    /\ List.find (fun u => N.eqb (_id u) 1%N)
         (store (world_of (put_users_id 1%N rename_alice cached_world)))
       = Some updated
    /\ _id updated = 1%N
    /\ createdAt updated = createdAt target
    /\ updatedAt updated = now cached_world
    /\ userName updated
       = from_option JS.trim (userName target) (upd_userName rename_alice)
    /\ accountNumber updated
       = default (accountNumber target) (upd_accountNumber rename_alice)
    /\ emailAddress updated
       = from_option (fun v => JS.trim (JS.toLowerCase v)) (emailAddress target)
           (upd_emailAddress rename_alice)
    /\ identityNumber updated
       = default (identityNumber target) (upd_identityNumber rename_alice)
    /\ password updated = default (password target) (upd_password rename_alice)
    /\ length (store (world_of (put_users_id 1%N rename_alice cached_world)))
       = length (store cached_world)
    /\ (forall v, _id v <> 1%N ->
          (In v (store (world_of (put_users_id 1%N rename_alice cached_world)))
           <-> In v (store cached_world))).
Proof.
  apply (update_sets_only_the_given_fields 1%N rename_alice cached_world).
  vm_compute. reflexivity.
Defined.

(** X5.  The update route refuses only for a cause.  When it answers
    404 no record has the id, and when it answers 400 another record
    holds, in the same field, a value the body asks for; in both cases
    it has made no Redis call and changed nothing.  The write is
    attempted only on a record that exists and when no other record
    holds a requested value.  When, for such a record, a validator of the
    schema rejects a new value, the answer is 500 and nothing was
    written.  When one of the two [DEL] fails the answer is 500 and the
    record has already been written.  The status is 200, 400, 404 or
    500. *)
Theorem update_refuses_only_for_a_cause
    (id : ObjectId) (updates : Updates) (w : World) :
  (status (response_of (put_users_id id updates w)) = 404 ->
     List.find (fun u => N.eqb (_id u) id) (store w) = None
     /\ put_users_id id updates w = (not_found, w, [Mongo (OpFindById id)]))
  /\ (status (response_of (put_users_id id updates w)) = 400 ->
      (exists other,
         In other (store w) /\ _id other <> id
         /\ owns_requested_value updates other)
      /\ put_users_id id updates w
         = (conflict, w,
            [ Mongo (OpFindById id);
              Mongo (OpFindOneOther id (or_conditions updates)) ]))
  /\ (In (Mongo (OpFindByIdAndUpdate id updates))
         (events_of (put_users_id id updates w)) ->
      (exists target,
         List.find (fun u => N.eqb (_id u) id) (store w) = Some target)
      /\ forall other, In other (store w) -> _id other <> id ->
           ~ owns_requested_value updates other)
  /\ (forall target,
        List.find (fun u => N.eqb (_id u) id) (store w) = Some target ->
        (forall other, In other (store w) -> _id other <> id ->
           ~ owns_requested_value updates other) ->
        Model.update_valid (Model.cast_update updates) = false ->
        (exists msg, response_of (put_users_id id updates w) = update_error msg)
        /\ world_of (put_users_id id updates w) = w
        /\ redis_failed (events_of (put_users_id id updates w)) = false)
  /\ (redis_failed (events_of (put_users_id id updates w)) = true ->
      (exists msg, response_of (put_users_id id updates w) = update_error msg)
      /\ exists target,
           List.find (fun u => N.eqb (_id u) id) (store w) = Some target
           /\ store (world_of (put_users_id id updates w))
              = Model.replace_first id
                  (Model.apply_set (Model.cast_update updates) (now w) target)
                  (store w))
  /\ (status (response_of (put_users_id id updates w)) = 200
      \/ status (response_of (put_users_id id updates w)) = 400
      \/ status (response_of (put_users_id id updates w)) = 404
      \/ status (response_of (put_users_id id updates w)) = 500).
Proof.
  destruct (put_users_id_cases id updates w)
    as [(Hn & Ho)
       |[(t & o & Ht & Hin & Hid & Hown & Ho)
        |[(t & Ht & Hfree & Hv & [msg Hr] & Hw & Hf)
         |(t & Ht & Hfree & Hv & Hs & [[H200 Hf]|[[msg Hr] Hf]])]]].
  - rewrite Ho, Hn. unfold response_of, events_of.
    cbn [fst snd status not_found res_status_json].
    split; [by intros _|].
    split; [intros H; discriminate H|].
    split; [intros [H|[]]; discriminate H|].
    split; [intros target H; discriminate H|].
    split; [intros H; discriminate H|].
    right; right; by left.
  - rewrite Ho, Ht. unfold response_of, events_of.
    cbn [fst snd status conflict res_status_json].
    split; [intros; discriminate|].
    split; [intros _; split; [eauto | reflexivity]|].
    split; [intros [H|[H|[]]]; discriminate H|].
    split; [intros target _ Hfree; by destruct (Hfree o Hin Hid)|].
    split; [intros H; discriminate H|].
    right; by left.
  - rewrite Hr, Ht, Hf, Hv, Hw.
    cbn [status update_error res_status_json].
    split; [intros; discriminate|].
    split; [intros; discriminate|].
    split; [intros _; split; [eauto | exact Hfree]|].
    split; [intros target _ _ _; split; [by eexists | by split]|].
    split; [intros H; discriminate H|].
    right; right; by right.
  - rewrite H200, Ht, Hf, Hv.
    split; [intros; discriminate|].
    split; [intros; discriminate|].
    split; [intros _; split; [eauto | exact Hfree]|].
    split; [intros target _ _ H; discriminate H|].
    split; [intros H; discriminate H|].
    by left.
  - rewrite Hr, Ht, Hf, Hv.
    cbn [status update_error res_status_json].
    split; [intros; discriminate|].
    split; [intros; discriminate|].
    split; [intros _; split; [eauto | exact Hfree]|].
    split; [intros target _ _ H; discriminate H|].
    split; [intros _; split; [by eexists | eauto]|].
    right; right; by right.
Qed.

Lemma update_refuses_only_for_a_cause_witness :
  ((exists other,
      In other (store two_users_world) /\ _id other <> 2%N
      /\ owns_requested_value take_A1 other)
   /\ put_users_id 2%N take_A1 two_users_world
      = (conflict, two_users_world,
         [ Mongo (OpFindById 2%N);
           Mongo (OpFindOneOther 2%N (or_conditions take_A1)) ]))
  /\ ((exists msg,
         response_of (put_users_id 1%N empty_password two_users_world)
         = update_error msg)
      /\ world_of (put_users_id 1%N empty_password two_users_world)
         = two_users_world
      /\ redis_failed (events_of (put_users_id 1%N empty_password two_users_world))
         = false)
  /\ ((exists msg,
         response_of (put_users_id 1%N rename_alice outage_world)
         = update_error msg)
      /\ exists target,
           List.find (fun u => N.eqb (_id u) 1%N) (store outage_world)
           = Some target
           /\ store (world_of (put_users_id 1%N rename_alice outage_world))
              = Model.replace_first 1%N
                  (Model.apply_set (Model.cast_update rename_alice)
                     (now outage_world) target)
                  (store outage_world)).
Proof.
  split; [|split].
  - destruct (update_refuses_only_for_a_cause 2%N take_A1 two_users_world)
      as (_ & H & _).
    apply H. reflexivity.
  - destruct (update_refuses_only_for_a_cause 1%N empty_password two_users_world)
      as (_ & _ & _ & H & _).
    apply (H alice); [reflexivity | | reflexivity].
    intros other _ _ [(v & Hv & _)|[(v & Hv & _)|(v & Hv & _)]]; discriminate Hv.
  - destruct (update_refuses_only_for_a_cause 1%N rename_alice outage_world)
      as (_ & _ & _ & _ & H & _).
    apply H. reflexivity.
Defined.

(** ** What an update leaves in the cache *)

Lemma append_prefix_inj (p x y : string) : p +:+ x = p +:+ y -> x = y.
Proof.
  induction p as [|c p IH]; [auto|].
  change (String c p +:+ x) with (String c (p +:+ x)).
  change (String c p +:+ y) with (String c (p +:+ y)).
  intros H. injection H as H. by apply IH.
Qed.

Lemma read_through_hit (key : string) (c : Cond) (w : World)
    (out : Response * World * list Event) (e : CacheEntry) :
  read_through key c w out ->
  redis_failed (events_of out) = false ->
  cache w !! key = Some e ->
  response_of out = res_json (value e)
  /\ events_of out = [Redis (OpGet key) true].
Proof.
  intros Hrt Hok He.
  destruct (Hrt Hok) as (_ & H & _). destruct (H e He) as (Hr & _ & Hev). by split.
Qed.

(** With unique ids, the records of the collection after a write are the
    written one and those of another id. *)
Lemma replace_first_In_unique (id : ObjectId) (u' : User) (l : list User)
    (v : User) :
  NoDup (map _id l) ->
  In v (Model.replace_first id u' l) ->
  v = u' \/ (In v l /\ _id v <> id).
Proof.
  induction l as [|a l IH]; cbn [Model.replace_first map]; [intros _ []|].
  intros Hnd. apply NoDup_cons in Hnd as [Hnotin Hnd].
  destruct (_id a =? id)%N eqn:Ha; cbn [In].
  - apply N.eqb_eq in Ha. intros [<-|Hin]; [by left|]. right.
    split; [by right|]. intros Hv. apply Hnotin. rewrite Ha, <- Hv.
    apply list_elem_of_In, in_map, Hin.
  - apply N.eqb_neq in Ha. intros [<-|Hin]; [right; split; [by left|exact Ha]|].
    destruct (IH Hnd Hin) as [->|[Hl Hv]]; [by left|].
    right. split; [by right|exact Hv].
Qed.

(** X6.  An update that changes the account number deletes the slot of
    the new account number, not that of the old one.  The slot of the old
    account number stays, unless the identity number the record has after
    the update is the old account number: the second [DEL] of the route,
    on [user:{identityNumber}], then deletes it.  When the slot stays and
    was filled, a lookup by the old account number is still answered from
    it after the update, with the document as it was, although (the
    collection respecting its unique indexes) no record has that account
    number any more. *)
Theorem update_keeps_the_slot_of_the_old_account_number
    (id : ObjectId) (updates : Updates) (w : World) (target : User)
    (a : string) (e : CacheEntry) (f : list bool) :
  List.find (fun u => N.eqb (_id u) id) (store w) = Some target ->
  upd_accountNumber updates = Some a ->
  a <> accountNumber target ->
  cache w !! ("user:" +:+ accountNumber target) = Some e ->
  status (response_of (put_users_id id updates w)) = 200 ->
  let w' := set_faults f (world_of (put_users_id id updates w)) in
  let identityNumber' :=
    default (identityNumber target) (upd_identityNumber updates) in
  (identityNumber' <> accountNumber target ->
     cache w' !! ("user:" +:+ accountNumber target) = Some e
     /\ (redis_failed (events_of (get_users_account (accountNumber target) w'))
         = false ->
         response_of (get_users_account (accountNumber target) w')
         = res_json (value e)
         /\ events_of (get_users_account (accountNumber target) w')
            = [Redis (OpGet ("user:" +:+ accountNumber target)) true]))
  /\ (identityNumber' = accountNumber target ->
      cache w' !! ("user:" +:+ accountNumber target) = None)
  /\ (store_unique (store w) ->
      List.find (Model.holds (AccountNumberIs (accountNumber target))) (store w')
      = None).
Proof.
  intros Ht Ha Hne He Hs w' idn'.
  destruct (put_users_id_updated _ _ _ Hs) as (t & u & Ht' & Hu & Hst & Hc & _).
  rewrite Ht in Ht'. injection Ht' as <-.
  assert (Hacc : accountNumber u = a).
  { rewrite Hu. unfold Model.apply_set, Model.cast_update.
    cbn [accountNumber upd_accountNumber]. by rewrite Ha. }
  assert (Hidu : identityNumber u = idn').
  { by rewrite Hu. }
  split; [|split].
  - intros Hidn.
    assert (Hslot : cache w' !! ("user:" +:+ accountNumber target) = Some e).
    { unfold w'. cbn [set_faults cache].
      rewrite Hc, !lookup_delete_ne; [exact He| |].
      - rewrite Hacc. intros H. by apply append_prefix_inj in H.
      - rewrite Hidu. intros H. by apply append_prefix_inj in H. }
    split; [exact Hslot|].
    intros Hok. eapply read_through_hit;
      [apply get_users_account_read_through | exact Hok | exact Hslot].
  - intros Hidn. unfold w'. cbn [set_faults cache].
    rewrite Hc, Hidu, Hidn. apply lookup_delete_eq.
  - intros (Hid & Hnd & _).
    apply find_by_id_Some in Ht as [Hin Htid].
    apply find_none_of_forall. intros v Hv. cbn [Model.holds].
    apply String.eqb_neq.
    unfold w' in Hv. cbn [set_faults store] in Hv. rewrite Hst in Hv.
    apply (replace_first_In_unique _ _ _ _ Hid) in Hv as [->|[Hv Hvid]];
      [by rewrite Hacc|].
    intros Heq. apply Hvid. rewrite <- Htid. f_equal.
    by apply (NoDup_map_eq accountNumber (store w)).
Qed.

Lemma update_keeps_the_slot_of_the_old_account_number_witness :
  cache (set_faults [] (world_of (put_users_id 1%N move_alice cached_world)))
    !! "user:A1"
  = Some (mkEntry (public_document alice) None)
  /\ response_of
       (get_users_account "A1"
          (set_faults [] (world_of (put_users_id 1%N move_alice cached_world))))
     = res_json (public_document alice)
  /\ List.find (Model.holds (AccountNumberIs "A1"))
       (store (set_faults [] (world_of (put_users_id 1%N move_alice cached_world))))
     = None
  /\ cache (set_faults [] (world_of (put_users_id 7%N move_nina nina_world)))
       !! "user:N1"
     = None.
Proof.
  destruct (update_keeps_the_slot_of_the_old_account_number
              1%N move_alice cached_world alice "A9"
              (mkEntry (public_document alice) None) [])
    as (Hstays & _ & Hgone); try reflexivity; try discriminate.
  destruct (update_keeps_the_slot_of_the_old_account_number
              7%N move_nina nina_world nina "N2"
              (mkEntry (public_document nina) None) [])
    as (_ & Hdeleted & _); try reflexivity; try discriminate.
  destruct Hstays as [Hslot Hget]; [discriminate|].
  split; [exact Hslot|]. split; [by destruct (Hget eq_refl)|].
  split; [apply Hgone, cached_world_unique|].
  apply Hdeleted. reflexivity.
Defined.

(** ** The list route and its snapshots *)

(** A list request that finds its key in the cache answers with what is
    stored there and does not read the collection. *)
Lemma get_users_hit (q : ListQuery) (w : World) (e : CacheEntry) :
  cache w !! list_request_key q = Some e ->
  redis_failed (events_of (get_users q w)) = false ->
  get_users q w
  = (res_json (value e), set_faults (tail (faults w)) w,
     [Redis (OpGet (list_request_key q)) true]).
Proof.
  unfold get_users, list_request_key, try_catch, bind, Redis.get, Redis.call,
    ret, events_of.
  open_world w.
  destruct (is_not_zero (JS.parseInt (q_paginate q))); cbn [negb]; steps.
  all: intros He; next_fault; steps; try (by intros).
  all: rewrite He; cbn [fmap option_fmap option_map]; reflexivity.
Qed.

(** A list request that answers 200 leaves its answer under its key. *)
Lemma get_users_snapshot (q : ListQuery) (w : World) :
  redis_failed (events_of (get_users q w)) = false ->
  status (response_of (get_users q w)) = 200 ->
  exists e,
    cache (world_of (get_users q w)) !! list_request_key q = Some e
    /\ response_of (get_users q w) = res_json (value e)
    /\ store (world_of (get_users q w)) = store w.
Proof.
  unfold get_users, list_request_key, try_catch, bind, Redis.get, Redis.setEx,
    Redis.call, Model.find, Model.find_page, Model.countDocuments, ret,
    events_of, response_of, world_of.
  open_world w.
  destruct (is_not_zero (JS.parseInt (q_paginate q))); cbn [negb]; steps.
  all: next_fault; steps; try (by intros).
  all: match goal with
       | |- context [value <$> ?c !! ?k] =>
           destruct (c !! k) as [e0|] eqn:He0;
           cbn [fmap option_fmap option_map]; steps
       end.
  all: try (intros _ _; by exists e0).
  all: try match goal with
       | |- context [?a <? 0] => destruct (a <? 0); steps
       end.
  all: try (intros _ Hs; wrong_status Hs).
  all: try (next_fault; steps; try (by intros)).
  all: intros _ _; eexists; split; [apply lookup_insert_eq|]; by split.
Qed.

(** X7.  The update route deletes no list snapshot.  A list request whose
    key was in the cache before a successful update is answered, after
    it, with the snapshot taken before it, and the collection is not
    read. *)
Theorem list_after_update_is_the_old_snapshot
    (id : ObjectId) (updates : Updates) (q : ListQuery) (w : World)
    (e : CacheEntry) (f : list bool) :
  cache w !! list_request_key q = Some e ->
  status (response_of (put_users_id id updates w)) = 200 ->
  let w' := set_faults f (world_of (put_users_id id updates w)) in
  redis_failed (events_of (get_users q w')) = false ->
  get_users q w'
  = (res_json (value e), set_faults (tail f) w',
     [Redis (OpGet (list_request_key q)) true]).
Proof.
  intros He Hs w' Hok.
  assert (Hk : list_cache_key (list_request_key q) = true).
  { unfold list_request_key. destruct (is_not_zero _);
      [apply list_key_is_list_cache_key | reflexivity]. }
  rewrite (get_users_hit q w' e); [reflexivity| |exact Hok].
  unfold w'. cbn [set_faults cache].
  by rewrite (put_users_id_keeps_list_snapshots _ _ _ _ Hs Hk).
Qed.

Lemma list_after_update_is_the_old_snapshot_witness :
  get_users (mkListQuery None None (Some "0"))
    (set_faults [] (world_of (put_users_id 1%N rename_alice cached_world)))
  = (res_json (JObj [("users", JArr [Schema.toJSON_minus_password alice])]),
     set_faults [] (world_of (put_users_id 1%N rename_alice cached_world)),
     [Redis (OpGet "users:list:all") true]).
Proof.
  apply (list_after_update_is_the_old_snapshot 1%N rename_alice
           (mkListQuery None None (Some "0")) cached_world
           (mkEntry (JObj [("users", JArr [Schema.toJSON_minus_password alice])])
              (Some 300)) []);
    reflexivity.
Defined.

(** X8.  A list request that answered 200 has left its answer in the
    cache: the same request, made again before the snapshot goes, gets the
    same answer by one [GET], without a call on the collection. *)
Theorem list_is_served_from_its_snapshot
    (q : ListQuery) (w : World) (f : list bool) :
  redis_failed (events_of (get_users q w)) = false ->
  status (response_of (get_users q w)) = 200 ->
  let w' := set_faults f (world_of (get_users q w)) in
  redis_failed (events_of (get_users q w')) = false ->
  response_of (get_users q w') = response_of (get_users q w)
  /\ events_of (get_users q w') = [Redis (OpGet (list_request_key q)) true]
  /\ store (world_of (get_users q w')) = store w
  /\ cache (world_of (get_users q w')) = cache (world_of (get_users q w)).
Proof.
  intros Hok Hs w' Hok'.
  destruct (get_users_snapshot q w Hok Hs) as (e & He & Hr & Hst).
  rewrite (get_users_hit q w' e); [|exact He|exact Hok'].
  rewrite Hr. repeat split. exact Hst.
Qed.

Lemma list_is_served_from_its_snapshot_witness :
  response_of
    (get_users first_page_of_two
       (set_faults [] (world_of (get_users first_page_of_two five_users_world))))
  = response_of (get_users first_page_of_two five_users_world)
  /\ events_of
       (get_users first_page_of_two
          (set_faults [] (world_of (get_users first_page_of_two five_users_world))))
     = [Redis (OpGet "users:list:1:2") true].
Proof.
  destruct (list_is_served_from_its_snapshot first_page_of_two five_users_world [])
    as (Hr & Hev & _); try reflexivity.
  split; [exact Hr | exact Hev].
Defined.

(** ** The create route: every outcome *)

Lemma post_users_cases (h : string -> string) (b : CreateBody) (w : World) :
  (body_password b = None /\ post_users h b w = (server_error, w, []))
  \/ (exists p,
        body_password b = Some p
        /\ ((Schema.validate (document_of h b p (next_oid w)) = false
             /\ response_of (post_users h b w) = server_error
             /\ store (world_of (post_users h b w)) = store w
             /\ cache (world_of (post_users h b w)) = cache w
             /\ events_of (post_users h b w) = [Mongo OpSave])
            \/ (Schema.validate (document_of h b p (next_oid w)) = true
                /\ existsb (Model.clashes (document_of h b p (next_oid w)))
                     (store w) = true
                /\ response_of (post_users h b w) = duplicate_entry
                /\ store (world_of (post_users h b w)) = store w
                /\ cache (world_of (post_users h b w)) = cache w
                /\ events_of (post_users h b w) = [Mongo OpSave])
            \/ (Schema.validate (document_of h b p (next_oid w)) = true
                /\ existsb (Model.clashes (document_of h b p (next_oid w)))
                     (store w) = false
                /\ store (world_of (post_users h b w))
                   = (store w ++ [stored_document h b p w])%list
                /\ ((status (response_of (post_users h b w)) = 201
                     /\ redis_failed (events_of (post_users h b w)) = false)
                    \/ (response_of (post_users h b w) = server_error
                        /\ redis_failed (events_of (post_users h b w)) = true))))).
Proof.
  unfold post_users, try_catch, bind, hash, Model.new_User, Model.save,
    Redis.set, Redis.keys, Redis.del, Redis.call, ret, throw, response_of,
    world_of, events_of, document_of, stored_document, redis_failed.
  open_world w.
  destruct (body_password b) as [p|]; [right; exists p; split; [reflexivity|]
                                      | by left].
  steps.
  destruct (Schema.validate _) eqn:Hv; cbn [negb]; steps; [|by left].
  right.
  destruct (existsb _ store0) eqn:Hc; steps; [by left|].
  right. split; [reflexivity|]. split; [reflexivity|].
  next_fault; steps; try (split; [reflexivity|]; by right).
  all: next_fault; steps; try (split; [reflexivity|]; by right).
  all: next_fault; steps; try (split; [reflexivity|]; by right).
  all: destruct (0 <? _); steps.
  all: try (next_fault; steps; try (split; [reflexivity|]; by right)).
  all: split; [reflexivity|]; by left.
Qed.

(** X9.  The create route saves the record before it makes its first
    Redis call.  So whenever one of its Redis calls fails, the answer is
    500 and the record is in the collection all the same; the same
    request made again is then refused with 400 as a duplicate. *)
Theorem create_is_kept_when_a_redis_call_fails
    (bcrypt_hash : string -> string) (b : CreateBody) (w : World) :
  redis_failed (events_of (post_users bcrypt_hash b w)) = true ->
  exists p,
    body_password b = Some p
    /\ response_of (post_users bcrypt_hash b w) = server_error
    /\ store (world_of (post_users bcrypt_hash b w))
       = (store w ++ [stored_document bcrypt_hash b p w])%list
    /\ forall w2 : World,
         In (stored_document bcrypt_hash b p w) (store w2) ->
         response_of (post_users bcrypt_hash b w2) = duplicate_entry
         /\ store (world_of (post_users bcrypt_hash b w2)) = store w2.
Proof.
  intros Hf.
  destruct (post_users_cases bcrypt_hash b w)
    as [[_ Ho]|(p & Hp & [(_ & _ & _ & _ & He)
                         |[(_ & _ & _ & _ & _ & He)
                          |(Hv & _ & Hs & [[_ Hok]|[Hr _]])]])].
  - rewrite Ho in Hf. discriminate Hf.
  - rewrite He in Hf. discriminate Hf.
  - rewrite He in Hf. discriminate Hf.
  - rewrite Hok in Hf. discriminate Hf.
  - exists p. split; [exact Hp|]. split; [exact Hr|]. split; [exact Hs|].
    intros w2 Hin.
    assert (Hc : existsb (Model.clashes (document_of bcrypt_hash b p (next_oid w2)))
                   (store w2) = true).
    { apply existsb_exists. eexists. split; [exact Hin|].
      unfold Model.clashes, document_of, stored_document.
      cbn [accountNumber]. rewrite String.eqb_refl. by rewrite !orb_true_r. }
    destruct (post_users_clash bcrypt_hash b w2 p Hp Hc) as [Hst Hresp].
    split; [|exact Hst]. rewrite Hresp.
    change (Schema.validate (document_of bcrypt_hash b p (next_oid w2)))
      with (Schema.validate (document_of bcrypt_hash b p (next_oid w))).
    by rewrite Hv.
Qed.

Lemma create_is_kept_when_a_redis_call_fails_witness :
  exists p,
    body_password carol_body = Some p
    /\ response_of (post_users sample_hash carol_body outage_world) = server_error
    /\ store (world_of (post_users sample_hash carol_body outage_world))
       = (store outage_world
          ++ [stored_document sample_hash carol_body p outage_world])%list
    /\ forall w2 : World,
         In (stored_document sample_hash carol_body p outage_world) (store w2) ->
         response_of (post_users sample_hash carol_body w2) = duplicate_entry
         /\ store (world_of (post_users sample_hash carol_body w2)) = store w2.
Proof.
  apply (create_is_kept_when_a_redis_call_fails sample_hash carol_body outage_world).
  reflexivity.
Defined.

(** X10.  What the create route refuses.  It answers 400 only when a
    stored record has the account number, the email address (as the
    schema stores it) or the identity number of the new one, or its id;
    and then nothing is written and no Redis call is made.  A body
    without a password is answered 500 before any call is made.  A
    document that a validator of the schema rejects is answered 500, and
    nothing is written.  A Redis call that fails gives 500.  The status
    is 201, 400 or 500. *)
Theorem create_refuses_only_for_a_cause
    (bcrypt_hash : string -> string) (b : CreateBody) (w : World) :
  (status (response_of (post_users bcrypt_hash b w)) = 400 ->
     (exists p other,
        body_password b = Some p /\ In other (store w)
        /\ (_id other = next_oid w
            \/ accountNumber other = body_accountNumber b
            \/ emailAddress other = JS.trim (JS.toLowerCase (body_emailAddress b))
            \/ identityNumber other = body_identityNumber b))
     /\ response_of (post_users bcrypt_hash b w) = duplicate_entry
     /\ store (world_of (post_users bcrypt_hash b w)) = store w
     /\ cache (world_of (post_users bcrypt_hash b w)) = cache w
     /\ events_of (post_users bcrypt_hash b w) = [Mongo OpSave])
  /\ (body_password b = None ->
      post_users bcrypt_hash b w = (server_error, w, []))
  /\ (forall p,
        body_password b = Some p ->
        Schema.required (JS.trim (body_userName b))
        && Schema.required (body_accountNumber b)
        && Schema.required (JS.trim (JS.toLowerCase (body_emailAddress b)))
        && Schema.required (body_identityNumber b)
        && Schema.required (bcrypt_hash p) = false ->
        response_of (post_users bcrypt_hash b w) = server_error
        /\ store (world_of (post_users bcrypt_hash b w)) = store w
        /\ cache (world_of (post_users bcrypt_hash b w)) = cache w
        /\ events_of (post_users bcrypt_hash b w) = [Mongo OpSave])
  /\ (redis_failed (events_of (post_users bcrypt_hash b w)) = true ->
      response_of (post_users bcrypt_hash b w) = server_error)
  /\ (status (response_of (post_users bcrypt_hash b w)) = 201
      \/ status (response_of (post_users bcrypt_hash b w)) = 400
      \/ status (response_of (post_users bcrypt_hash b w)) = 500).
Proof.
  destruct (post_users_cases bcrypt_hash b w)
    as [[Hp Ho]|(p & Hp & [(Hv & Hr & Hs & Hc & He)
                          |[(Hv & Hcl & Hr & Hs & Hc & He)
                           |(Hv & Hcl & Hs & [[H201 Hok]|[Hr Hf]])]])].
  - rewrite Ho, Hp. unfold response_of, world_of, events_of. cbn [fst snd].
    split; [intros H; discriminate H|].
    split; [reflexivity|].
    split; [intros p H; discriminate H|].
    split; [intros H; discriminate H|].
    right; by right.
  - rewrite Hr, Hp, He.
    split; [intros H; discriminate H|].
    split; [intros H; discriminate H|].
    split; [intros p' _ _; by repeat split|].
    split; [reflexivity|].
    right; by right.
  - rewrite Hr, Hp, He.
    split.
    { intros _. split; [|by repeat split].
      apply existsb_exists in Hcl as (other & Hin & Hcl).
      exists p, other. split; [reflexivity|]. split; [exact Hin|].
      unfold Model.clashes, document_of in Hcl.
      cbn [_id accountNumber emailAddress identityNumber] in Hcl.
      rewrite !orb_true_iff in Hcl.
      destruct Hcl as [[[H|H]|H]|H].
      + apply N.eqb_eq in H. by left.
      + apply String.eqb_eq in H. right; left. by symmetry.
      + apply String.eqb_eq in H. right; right; left. by symmetry.
      + apply String.eqb_eq in H. right; right; right. by symmetry. }
    split; [intros H; discriminate H|].
    split.
    { intros p' [= <-] Hv'. unfold Schema.validate, document_of in Hv.
      cbn [userName accountNumber emailAddress identityNumber password] in Hv.
      unfold Schema.userName_set, Schema.emailAddress_set in Hv. congruence. }
    split; [intros H; discriminate H|].
    right; by left.
  - rewrite H201, Hp, Hok.
    split; [intros H; discriminate H|].
    split; [intros H; discriminate H|].
    split.
    { intros p' [= <-] Hv'. unfold Schema.validate, document_of in Hv.
      cbn [userName accountNumber emailAddress identityNumber password] in Hv.
      unfold Schema.userName_set, Schema.emailAddress_set in Hv. congruence. }
    split; [intros H; discriminate H|].
    by left.
  - rewrite Hr, Hp.
    split; [intros H; discriminate H|].
    split; [intros H; discriminate H|].
    split.
    { intros p' [= <-] Hv'. unfold Schema.validate, document_of in Hv.
      cbn [userName accountNumber emailAddress identityNumber password] in Hv.
      unfold Schema.userName_set, Schema.emailAddress_set in Hv. congruence. }
    split; [reflexivity|].
    right; by right.
Qed.

Lemma create_refuses_only_for_a_cause_witness :
  (response_of
     (post_users sample_hash (mkCreateBody "Al" "A1" "al@x.com" "I9" (Some "pw"))
        cold_world)
   = duplicate_entry
   /\ store (world_of
              (post_users sample_hash
                 (mkCreateBody "Al" "A1" "al@x.com" "I9" (Some "pw")) cold_world))
      = store cold_world)
  /\ post_users sample_hash (mkCreateBody "Al" "A7" "al@x.com" "I9" None) cold_world
     = (server_error, cold_world, [])
  /\ (response_of
        (post_users sample_hash (mkCreateBody "  " "A7" "al@x.com" "I9" (Some "pw"))
           cold_world)
      = server_error
      /\ store (world_of
                 (post_users sample_hash
                    (mkCreateBody "  " "A7" "al@x.com" "I9" (Some "pw")) cold_world))
         = store cold_world).
Proof.
  split; [|split].
  - destruct (create_refuses_only_for_a_cause sample_hash
                (mkCreateBody "Al" "A1" "al@x.com" "I9" (Some "pw")) cold_world)
      as (H & _).
    destruct H as (_ & Hr & Hs & _); [reflexivity|].
    split; [exact Hr | exact Hs].
  - destruct (create_refuses_only_for_a_cause sample_hash
                (mkCreateBody "Al" "A7" "al@x.com" "I9" None) cold_world)
      as (_ & H & _).
    apply H. reflexivity.
  - destruct (create_refuses_only_for_a_cause sample_hash
                (mkCreateBody "  " "A7" "al@x.com" "I9" (Some "pw")) cold_world)
      as (_ & _ & H & _).
    destruct (H "pw") as (Hr & Hs & _); [reflexivity | reflexivity |].
    split; [exact Hr | exact Hs].
Defined.

(** X11.  Create, then look up.  After a create has answered 201, the
    lookups by the account number and by the identity number of the new
    record are answered from the cache, by one [GET] and without a call
    on the collection, with the new record without its password: its
    id, the user name trimmed, the account number, the email address
    trimmed and in lower case, the identity number and the two
    timestamps of the save. *)
Theorem created_record_is_served_from_the_cache
    (bcrypt_hash : string -> string) (b : CreateBody) (w : World)
    (f : list bool) :
  status (response_of (post_users bcrypt_hash b w)) = 201 ->
  exists (p : string) (u : User),
    body_password b = Some p
    /\ u = mkUser (next_oid w) (JS.trim (body_userName b))
             (body_accountNumber b)
             (JS.trim (JS.toLowerCase (body_emailAddress b)))
             (body_identityNumber b) (bcrypt_hash p) (now w) (now w)
    /\ store (world_of (post_users bcrypt_hash b w)) = (store w ++ [u])%list
    /\ let w' := set_faults f (world_of (post_users bcrypt_hash b w)) in
       (redis_failed (events_of (get_users_account (body_accountNumber b) w'))
        = false ->
        response_of (get_users_account (body_accountNumber b) w')
        = res_json (public_document u)
        /\ events_of (get_users_account (body_accountNumber b) w')
           = [Redis (OpGet ("user:" +:+ body_accountNumber b)) true])
       /\ (redis_failed (events_of (get_users_identity (body_identityNumber b) w'))
           = false ->
           response_of (get_users_identity (body_identityNumber b) w')
           = res_json (public_document u)
           /\ events_of (get_users_identity (body_identityNumber b) w')
              = [Redis (OpGet ("user:identity:" +:+ body_identityNumber b)) true]).
Proof.
  intros Hs.
  destruct (post_users_created bcrypt_hash b w Hs)
    as (p & u & Hp & Hu & _ & Hst & Hc & _).
  exists p, u. split; [exact Hp|]. split; [exact Hu|].
  split; [exact Hst|]. intros w'.
  set (entry := mkEntry (JObj (delete_field "password" (Schema.toObject u))) None).
  assert (Hacc : cache w' !! ("user:" +:+ body_accountNumber b) = Some entry).
  { unfold w'. cbn [set_faults cache]. rewrite Hc, point_key_not_list_key.
    destruct (decide ("user:identity:" +:+ body_identityNumber b
                      = "user:" +:+ body_accountNumber b)) as [->|Hne].
    - apply lookup_insert_eq.
    - rewrite lookup_insert_ne by exact Hne. apply lookup_insert_eq. }
  assert (Hidn : cache w' !! ("user:identity:" +:+ body_identityNumber b)
                 = Some entry).
  { unfold w'. cbn [set_faults cache]. rewrite Hc.
    change ("user:identity:" +:+ body_identityNumber b)
      with ("user:" +:+ ("identity:" +:+ body_identityNumber b)) at 1.
    rewrite point_key_not_list_key. apply lookup_insert_eq. }
  change (public_document u) with (value entry).
  split; intros Hok.
  - eapply (read_through_hit _ _ _ _ entry);
      [apply get_users_account_read_through | exact Hok | exact Hacc].
  - eapply (read_through_hit _ _ _ _ entry);
      [apply get_users_identity_read_through | exact Hok | exact Hidn].
Qed.

Lemma created_record_is_served_from_the_cache_witness :
  response_of
    (get_users_account "C3"
       (set_faults [] (world_of (post_users sample_hash carol_spaced cached_world))))
  = res_json
      (public_document
         (mkUser 2%N "Carol" "C3" "carol@x.com" "I3" (sample_hash "secret3")
            3000 3000))
  /\ events_of
       (get_users_identity "I3"
          (set_faults [] (world_of (post_users sample_hash carol_spaced cached_world))))
     = [Redis (OpGet "user:identity:I3") true].
Proof.
  destruct (created_record_is_served_from_the_cache sample_hash carol_spaced
              cached_world []) as (p & u & Hp & Hu & _ & Ha & Hi); [reflexivity|].
  injection Hp as <-. subst u. split.
  - by destruct (Ha eq_refl).
  - by destruct (Hi eq_refl).
Defined.

(** ** The read routes: every outcome *)

Lemma get_users_account_outcome (k : string) (w : World) :
  store (world_of (get_users_account k w)) = store w
  /\ (status (response_of (get_users_account k w)) = 500 <->
      redis_failed (events_of (get_users_account k w)) = true)
  /\ (status (response_of (get_users_account k w)) = 404 ->
      cache w !! ("user:" +:+ k) = None
      /\ List.find (Model.holds (AccountNumberIs k)) (store w) = None
      /\ cache (world_of (get_users_account k w)) = cache w)
  /\ (status (response_of (get_users_account k w)) = 200
      \/ status (response_of (get_users_account k w)) = 404
      \/ status (response_of (get_users_account k w)) = 500).
Proof.
  unfold get_users_account, try_catch, bind, Redis.get, Redis.set, Redis.call,
    Model.findOne_select, ret, response_of, world_of, events_of, redis_failed.
  open_world w.
  next_fault; steps.
  2: by repeat split; auto; intros; discriminate.
  all: destruct (cache0 !! ("user:" +:+ k)) as [e|] eqn:He;
    cbn [fmap option_fmap option_map]; steps.
  all: try (by repeat split; auto; intros; discriminate).
  all: cbn [Model.cast]; destruct (find _ store0) as [u|] eqn:Hf;
    cbn [fmap option_fmap option_map]; steps.
  all: try (by repeat split; auto; intros; discriminate).
  all: try (next_fault; steps).
  all: by repeat split; auto; intros; discriminate.
Qed.

Lemma get_users_identity_outcome (k : string) (w : World) :
  store (world_of (get_users_identity k w)) = store w
  /\ (status (response_of (get_users_identity k w)) = 500 <->
      redis_failed (events_of (get_users_identity k w)) = true)
  /\ (status (response_of (get_users_identity k w)) = 404 ->
      cache w !! ("user:identity:" +:+ k) = None
      /\ List.find (Model.holds (IdentityNumberIs k)) (store w) = None
      /\ cache (world_of (get_users_identity k w)) = cache w)
  /\ (status (response_of (get_users_identity k w)) = 200
      \/ status (response_of (get_users_identity k w)) = 404
      \/ status (response_of (get_users_identity k w)) = 500).
Proof.
  unfold get_users_identity, try_catch, bind, Redis.get, Redis.set, Redis.call,
    Model.findOne_select, ret, response_of, world_of, events_of, redis_failed.
  open_world w.
  next_fault; steps.
  2: by repeat split; auto; intros; discriminate.
  all: destruct (cache0 !! ("user:identity:" +:+ k)) as [e|] eqn:He;
    cbn [fmap option_fmap option_map]; steps.
  all: try (by repeat split; auto; intros; discriminate).
  all: cbn [Model.cast]; destruct (find _ store0) as [u|] eqn:Hf;
    cbn [fmap option_fmap option_map]; steps.
  all: try (by repeat split; auto; intros; discriminate).
  all: try (next_fault; steps).
  all: by repeat split; auto; intros; discriminate.
Qed.

(** X12.  The two point lookups never write to the collection, whatever
    fails.  A Redis call that fails gives 500.  They answer 404 only when
    the slot is empty and no record has the number asked for; the cache
    is then left as it was: a miss is not remembered.  The status is 200,
    404 or 500. *)
Theorem point_lookups_outcomes (k : string) (w : World) :
  (store (world_of (get_users_account k w)) = store w
   /\ (redis_failed (events_of (get_users_account k w)) = true ->
       response_of (get_users_account k w) = server_error)
   /\ (status (response_of (get_users_account k w)) = 404 ->
       cache w !! ("user:" +:+ k) = None
       /\ List.find (Model.holds (AccountNumberIs k)) (store w) = None
       /\ cache (world_of (get_users_account k w)) = cache w)
   /\ (status (response_of (get_users_account k w)) = 200
       \/ status (response_of (get_users_account k w)) = 404
       \/ status (response_of (get_users_account k w)) = 500))
  /\ (store (world_of (get_users_identity k w)) = store w
      /\ (redis_failed (events_of (get_users_identity k w)) = true ->
          response_of (get_users_identity k w) = server_error)
      /\ (status (response_of (get_users_identity k w)) = 404 ->
          cache w !! ("user:identity:" +:+ k) = None
          /\ List.find (Model.holds (IdentityNumberIs k)) (store w) = None
          /\ cache (world_of (get_users_identity k w)) = cache w)
      /\ (status (response_of (get_users_identity k w)) = 200
          \/ status (response_of (get_users_identity k w)) = 404
          \/ status (response_of (get_users_identity k w)) = 500)).
Proof.
  destruct (get_users_account_outcome k w) as (Ha1 & _ & Ha3 & Ha4).
  destruct (get_users_identity_outcome k w) as (Hi1 & _ & Hi3 & Hi4).
  split; (split; [assumption|]); (split; [|by split]).
  - apply get_users_account_rejects.
  - apply get_users_identity_rejects.
Qed.

Lemma point_lookups_outcomes_witness :
  (cache cold_world !! "user:Z9" = None
   /\ List.find (Model.holds (AccountNumberIs "Z9")) (store cold_world) = None
   /\ cache (world_of (get_users_account "Z9" cold_world)) = cache cold_world)
  /\ response_of (get_users_identity "I1" outage_world) = server_error.
Proof.
  destruct (point_lookups_outcomes "Z9" cold_world) as [(_ & _ & H & _) _].
  destruct (point_lookups_outcomes "I1" outage_world) as [_ (_ & Hf & _)].
  split; [apply H; reflexivity | apply Hf; reflexivity].
Defined.

(** The list route, when its key is not in the cache and the skip it
    computes is negative. *)
Lemma get_users_negative_skip (q : ListQuery) (w : World) :
  is_not_zero (JS.parseInt (q_paginate q)) = true ->
  (list_page q - 1) * list_limit q < 0 ->
  cache w !! list_key (list_page q) (list_limit q) = None ->
  hd false (faults w) = false ->
  get_users q w
  = (server_error, set_faults (tail (faults w)) w,
     [ Redis (OpGet (list_key (list_page q) (list_limit q))) true;
       Mongo (OpFindPage ((list_page q - 1) * list_limit q) (list_limit q)) ]).
Proof.
  unfold get_users, try_catch, bind, Redis.get, Redis.call, Model.find_page.
  intros -> Hneg Hmiss Hok. cbn [negb]. rewrite Hok, Hmiss.
  cbn [fmap option_fmap option_map].
  apply Z.ltb_lt in Hneg. rewrite Hneg. by destruct w.
Qed.

Lemma get_users_outcome (q : ListQuery) (w : World) :
  store (world_of (get_users q w)) = store w
  /\ (status (response_of (get_users q w)) = 500 ->
      redis_failed (events_of (get_users q w)) = true
      \/ (is_not_zero (JS.parseInt (q_paginate q)) = true
          /\ (list_page q - 1) * list_limit q < 0
          /\ cache w !! list_key (list_page q) (list_limit q) = None))
  /\ (status (response_of (get_users q w)) = 200
      \/ status (response_of (get_users q w)) = 500).
Proof.
  unfold get_users, try_catch, bind, Redis.get, Redis.setEx, Redis.call,
    Model.find, Model.find_page, Model.countDocuments, ret, response_of,
    world_of, events_of, redis_failed.
  open_world w.
  destruct (is_not_zero (JS.parseInt (q_paginate q))); cbn [negb]; steps.
  all: next_fault; steps.
  all: try (by repeat split; auto; intros; discriminate).
  all: match goal with
       | |- context [value <$> ?c !! ?k] =>
           destruct (c !! k) as [e0|] eqn:He0;
           cbn [fmap option_fmap option_map]; steps
       end.
  all: try (by repeat split; auto; intros; discriminate).
  all: try match goal with
       | |- context [?a <? 0] => destruct (a <? 0) eqn:Hneg; steps
       end.
  all: try (apply Z.ltb_lt in Hneg; by repeat split; auto).
  all: try (next_fault; steps).
  all: by repeat split; auto; intros; discriminate.
Qed.

(** X13.  The list route never writes to the collection, and it answers
    200 or 500.  When, paginating, it does not find its key in the cache
    and the skip [(page - 1) * limit] it computes is negative, the
    collection refuses the query: the answer is 500, nothing is cached,
    and the request fails although no service is down.  A page of -1 with
    the default limit is such a request. *)
Theorem list_fails_on_a_negative_skip (q : ListQuery) (w : World) :
  store (world_of (get_users q w)) = store w
  /\ (status (response_of (get_users q w)) = 200
      \/ status (response_of (get_users q w)) = 500)
  /\ (is_not_zero (JS.parseInt (q_paginate q)) = true ->
      (list_page q - 1) * list_limit q < 0 ->
      cache w !! list_key (list_page q) (list_limit q) = None ->
      hd false (faults w) = false ->
      get_users q w
      = (server_error, set_faults (tail (faults w)) w,
         [ Redis (OpGet (list_key (list_page q) (list_limit q))) true;
           Mongo (OpFindPage ((list_page q - 1) * list_limit q) (list_limit q)) ])).
Proof.
  destruct (get_users_outcome q w) as (Hs & _ & Hst).
  split; [exact Hs|]. split; [exact Hst|].
  apply get_users_negative_skip.
Qed.

Lemma list_fails_on_a_negative_skip_witness :
  get_users (mkListQuery (Some "-1") None None) cold_world
  = (server_error, cold_world,
     [ Redis (OpGet "users:list:-1:10") true; Mongo (OpFindPage (-20) 10) ]).
Proof.
  destruct (list_fails_on_a_negative_skip (mkListQuery (Some "-1") None None)
              cold_world) as (_ & _ & H).
  apply H; reflexivity.
Defined.

(** ** The writes of the model respect the unique indexes *)

Lemma ret_unique {A} (a : A) : keeps_store_unique (ret a).
Proof. by intros w Hw. Qed.

Lemma throw_unique {A} (e : Error) : keeps_store_unique (@throw A e).
Proof. by intros w Hw. Qed.

Lemma bind_unique {A B} (m : M A) (f : A -> M B) :
  keeps_store_unique m -> (forall a, keeps_store_unique (f a)) ->
  keeps_store_unique (bind m f).
Proof.
  intros Hm Hf w Hw. unfold bind. specialize (Hm w Hw).
  destruct (m w) as [[[a|e] w1] ev1]; cbn [fst snd] in *; [|exact Hm].
  specialize (Hf a w1 Hm). by destruct (f a w1) as [[r w2] ev2].
Qed.

(** A computation that leaves the collection as it is. *)
Lemma same_store_unique {A} (m : M A) :
  (forall w, store (snd (fst (m w))) = store w) -> keeps_store_unique m.
Proof. intros H w Hw. by rewrite H. Qed.

Lemma call_unique {A} (op : RedisOp)
    (run : gmap string CacheEntry -> A * gmap string CacheEntry) :
  keeps_store_unique (Redis.call op run).
Proof.
  apply same_store_unique. intros w. unfold Redis.call.
  destruct (hd false (faults w)); [reflexivity|]. by destruct (run (cache w)).
Qed.

Lemma NoDup_map_snoc {A B} (f : A -> B) (l : list A) (x : A) :
  NoDup (map f l) -> (forall v, In v l -> f v <> f x) ->
  NoDup (map f (l ++ [x])).
Proof.
  intros Hnd Hx. rewrite map_app. apply NoDup_app. split; [exact Hnd|].
  split; [|cbn; apply NoDup_singleton].
  intros y Hy Hy'. cbn in Hy'. apply list_elem_of_In in Hy, Hy'.
  destruct Hy' as [<-|[]]. apply in_map_iff in Hy as (v & Hv & Hin).
  by apply (Hx v Hin).
Qed.

Lemma save_unique (u : User) : keeps_store_unique (Model.save u).
Proof.
  intros w (Hid & Hacc & Hem & Hidn). unfold Model.save.
  destruct (negb (Schema.validate u)); [by repeat split|].
  destruct (existsb (Model.clashes u) (store w)) eqn:Hc; [by repeat split|].
  cbn [fst snd set_store store].
  assert (Hfree : forall v, In v (store w) -> Model.clashes u v = false).
  { intros v Hv. destruct (Model.clashes u v) eqn:E; [|reflexivity].
    rewrite <- Hc. symmetry. apply existsb_exists. eauto. }
  repeat split; apply NoDup_map_snoc; try assumption; intros v Hv;
    specialize (Hfree v Hv); unfold Model.clashes in Hfree;
    rewrite !orb_false_iff in Hfree;
    destruct Hfree as [[[H1 H2] H3] H4];
    cbn [_id accountNumber emailAddress identityNumber]; intros Heq.
  - apply N.eqb_neq in H1. congruence.
  - apply String.eqb_neq in H2. congruence.
  - apply String.eqb_neq in H3. congruence.
  - apply String.eqb_neq in H4. congruence.
Qed.

Lemma replace_first_ids (id : ObjectId) (u' : User) (l : list User) :
  _id u' = id -> map _id (Model.replace_first id u' l) = map _id l.
Proof.
  intros Hu. induction l as [|a l IH]; [reflexivity|].
  cbn [Model.replace_first]. destruct (_id a =? id)%N eqn:Ha; cbn [map].
  - apply N.eqb_eq in Ha. congruence.
  - by rewrite IH.
Qed.

Lemma replace_first_NoDup {B} (f : User -> B) (id : ObjectId) (u' : User)
    (l : list User) :
  NoDup (map _id l) -> NoDup (map f l) ->
  (forall v, In v l -> _id v <> id -> f v <> f u') ->
  NoDup (map f (Model.replace_first id u' l)).
Proof.
  induction l as [|a l IH]; cbn [Model.replace_first map]; [auto|].
  intros Hid Hf Hfree.
  apply NoDup_cons in Hid as [Hida Hid]. apply NoDup_cons in Hf as [Hfa Hf].
  destruct (_id a =? id)%N eqn:Ha; cbn [map]; apply NoDup_cons.
  - apply N.eqb_eq in Ha. split; [|exact Hf].
    intros Hin. apply list_elem_of_In, in_map_iff in Hin as (v & Hv & Hin).
    apply (Hfree v); [by right| |exact Hv].
    intros Hvid. apply Hida. rewrite Ha, <- Hvid.
    apply list_elem_of_In, in_map, Hin.
  - apply N.eqb_neq in Ha. split.
    + intros Hin. apply list_elem_of_In, in_map_iff in Hin as (v & Hv & Hin).
      apply replace_first_In in Hin as [->|Hin].
      * apply (Hfree a); [by left|exact Ha|by symmetry].
      * apply Hfa. rewrite <- Hv. apply list_elem_of_In, in_map, Hin.
    + apply IH; [exact Hid|exact Hf|]. intros v Hv. apply Hfree. by right.
Qed.

Lemma findByIdAndUpdate_unique (id : ObjectId) (updates : Updates) :
  keeps_store_unique (Model.findByIdAndUpdate id updates).
Proof.
  intros w Hw. unfold Model.findByIdAndUpdate.
  destruct (negb _); [exact Hw|].
  destruct (List.find _ (store w)) as [u|] eqn:Hu; [|exact Hw].
  destruct (existsb _ (store w)) eqn:Hc; [exact Hw|].
  cbn [fst snd set_store store].
  destruct Hw as (Hid & Hacc & Hem & Hidn).
  apply find_by_id_Some in Hu as [Hin Huid].
  set (u' := Model.apply_set (Model.cast_update updates) (now w) u) in *.
  assert (Hu' : _id u' = id) by exact Huid.
  assert (Hfree : forall v, In v (store w) -> _id v <> id ->
                            Model.index_clash u u' v = false).
  { intros v Hv Hvid. destruct (Model.index_clash u u' v) eqn:E; [|reflexivity].
    rewrite <- Hc. symmetry. apply existsb_exists. exists v.
    split; [exact Hv|]. rewrite E, andb_true_r.
    by apply negb_true_iff, N.eqb_neq. }
  assert (Hother : forall {B} (f : User -> B) v,
             NoDup (map f (store w)) -> In v (store w) -> _id v <> id ->
             f v <> f u).
  { intros B f v Hnd Hv Hvid Heq. apply Hvid. rewrite <- Huid. f_equal.
    by apply (NoDup_map_eq f (store w)). }
  repeat split.
  - by rewrite replace_first_ids.
  - apply replace_first_NoDup; [exact Hid|exact Hacc|].
    intros v Hv Hvid. specialize (Hfree v Hv Hvid). unfold Model.index_clash in Hfree.
    rewrite !orb_false_iff in Hfree. destruct Hfree as [[H _] _].
    apply andb_false_iff in H as [H|H].
    + apply negb_false_iff, String.eqb_eq in H. rewrite <- H. by apply Hother.
    + by apply String.eqb_neq.
  - apply replace_first_NoDup; [exact Hid|exact Hem|].
    intros v Hv Hvid. specialize (Hfree v Hv Hvid). unfold Model.index_clash in Hfree.
    rewrite !orb_false_iff in Hfree. destruct Hfree as [[_ H] _].
    apply andb_false_iff in H as [H|H].
    + apply negb_false_iff, String.eqb_eq in H. rewrite <- H. by apply Hother.
    + by apply String.eqb_neq.
  - apply replace_first_NoDup; [exact Hid|exact Hidn|].
    intros v Hv Hvid. specialize (Hfree v Hv Hvid). unfold Model.index_clash in Hfree.
    rewrite !orb_false_iff in Hfree. destruct Hfree as [_ H].
    apply andb_false_iff in H as [H|H].
    + apply negb_false_iff, String.eqb_eq in H. rewrite <- H. by apply Hother.
    + by apply String.eqb_neq.
Qed.

Lemma remove_first_NoDup {B} (f : User -> B) (id : ObjectId) (l : list User) :
  NoDup (map f l) -> NoDup (map f (Model.remove_first id l)).
Proof.
  induction l as [|a l IH]; cbn [Model.remove_first map]; [auto|].
  intros Hnd. apply NoDup_cons in Hnd as [Ha Hnd].
  destruct (_id a =? id)%N; [exact Hnd|]. cbn [map]. apply NoDup_cons.
  split; [|by apply IH].
  intros Hin. apply Ha.
  apply list_elem_of_In, in_map_iff in Hin as (v & Hv & Hin).
  rewrite <- Hv. apply list_elem_of_In, in_map. by eapply remove_first_In.
Qed.

Lemma deleteOne_unique (u : User) : keeps_store_unique (Model.deleteOne u).
Proof.
  intros w (Hid & Hacc & Hem & Hidn). unfold Model.deleteOne.
  cbn [fst snd set_store store].
  repeat split; by apply remove_first_NoDup.
Qed.

Lemma try_catch_unique (m : M Response) (handler : Error -> Response) (w : World) :
  keeps_store_unique m ->
  store_unique (store w) ->
  store_unique (store (world_of (try_catch m handler w))).
Proof.
  intros Hm Hw. specialize (Hm w Hw). unfold try_catch, world_of.
  by destruct (m w) as [[[r|e] w1] ev].
Qed.

Ltac unique :=
  repeat first
    [ apply ret_unique
    | apply throw_unique
    | apply call_unique
    | apply save_unique
    | apply findByIdAndUpdate_unique
    | apply deleteOne_unique
    | apply same_store_unique; reflexivity
    | apply bind_unique; [|intros ?]
    | match goal with
      | |- keeps_store_unique (match ?x with _ => _ end) => destruct x
      | |- keeps_store_unique (if ?b then _ else _) => destruct b
      end ].

Lemma router_unique (bcrypt_hash : string -> string) (req : Request) (w : World) :
  store_unique (store w) ->
  store_unique (store (world_of (router bcrypt_hash req w))).
Proof.
  destruct req as [q|b|k|k|id updates|id]; cbn [router];
    unfold get_users, post_users, get_users_account, get_users_identity,
      put_users_id, delete_users_id;
    apply try_catch_unique;
    unfold Redis.get, Redis.set, Redis.setEx, Redis.del, Redis.keys, hash.
  all: unique.
  all: try (apply same_store_unique; intros w0;
            unfold Model.find_page, Model.findOne_other;
            repeat match goal with |- context [if ?b then _ else _] => destruct b end;
            reflexivity).
Qed.


(** ** The time to live of the entries *)

Section Entries.

Variable P : string -> CacheEntry -> Prop.

Lemma ret_entries {A} (a : A) : keeps_entries P (ret a).
Proof. intros w Hw. exact Hw. Qed.

Lemma throw_entries {A} (e : Error) : keeps_entries P (@throw A e).
Proof. intros w Hw. exact Hw. Qed.

Lemma bind_entries {A B} (m : M A) (f : A -> M B) :
  keeps_entries P m -> (forall a, keeps_entries P (f a)) ->
  keeps_entries P (bind m f).
Proof.
  intros Hm Hf w Hw. unfold bind. specialize (Hm w Hw).
  destruct (m w) as [[[a|e] w1] ev1]; cbn [fst snd] in *; [|exact Hm].
  specialize (Hf a w1 Hm). by destruct (f a w1) as [[r w2] ev2].
Qed.

Lemma same_cache_entries {A} (m : M A) :
  (forall w, cache (snd (fst (m w))) = cache w) -> keeps_entries P m.
Proof. intros H w Hw. by rewrite H. Qed.

Lemma call_entries {A} (op : RedisOp)
    (run : gmap string CacheEntry -> A * gmap string CacheEntry) :
  (forall c,
     (forall k e, c !! k = Some e -> P k e) ->
     forall k e, snd (run c) !! k = Some e -> P k e) ->
  keeps_entries P (Redis.call op run).
Proof.
  intros Hrun w Hw. unfold Redis.call.
  destruct (hd false (faults w)); [exact Hw|].
  specialize (Hrun (cache w) Hw). by destruct (run (cache w)) as [a c].
Qed.

Lemma get_entries (key : string) : keeps_entries P (Redis.get key).
Proof. apply call_entries. by intros c Hc. Qed.

Lemma keys_entries (pattern : string) : keeps_entries P (Redis.keys pattern).
Proof. apply call_entries. by intros c Hc. Qed.

Lemma del_entries (keys : list string) : keeps_entries P (Redis.del keys).
Proof.
  apply call_entries. intros c Hc k e. cbn [snd].
  induction keys as [|k0 keys IH]; cbn [foldr]; [apply Hc|].
  intros H. apply lookup_delete_Some in H as [_ H]. by apply IH.
Qed.

Lemma set_entries (key : string) (v : json) :
  P key (mkEntry v None) -> keeps_entries P (Redis.set key v).
Proof.
  intros Hv. apply call_entries. intros c Hc k e. cbn [snd].
  destruct (decide (k = key)) as [->|Hne].
  - rewrite lookup_insert_eq. by intros [= <-].
  - rewrite lookup_insert_ne by congruence. apply Hc.
Qed.

Lemma setEx_entries (key : string) (seconds : Z) (v : json) :
  P key (mkEntry v (Some seconds)) -> keeps_entries P (Redis.setEx key seconds v).
Proof.
  intros Hv. apply call_entries. intros c Hc k e. cbn [snd].
  destruct (decide (k = key)) as [->|Hne].
  - rewrite lookup_insert_eq. by intros [= <-].
  - rewrite lookup_insert_ne by congruence. apply Hc.
Qed.

Lemma try_catch_entries (m : M Response) (handler : Error -> Response) (w : World) :
  keeps_entries P m ->
  (forall k e, cache w !! k = Some e -> P k e) ->
  forall k e, cache (world_of (try_catch m handler w)) !! k = Some e -> P k e.
Proof.
  intros Hm Hw. specialize (Hm w Hw). unfold try_catch, world_of.
  by destruct (m w) as [[[r|e] w1] ev].
Qed.

End Entries.

Ltac entries :=
  repeat first
    [ apply ret_entries
    | apply throw_entries
    | apply get_entries
    | apply keys_entries
    | apply del_entries
    | apply bind_entries; [|intros ?]
    | match goal with
      | |- keeps_entries _ (match ?x with _ => _ end) => destruct x
      | |- keeps_entries _ (if ?b then _ else _) => destruct b
      end ].

Lemma router_ttl (bcrypt_hash : string -> string) (req : Request) (w : World) :
  ttl_discipline w -> ttl_discipline (world_of (router bcrypt_hash req w)).
Proof.
  unfold ttl_discipline.
  destruct req as [q|b|k|k|id updates|id]; cbn [router];
    unfold get_users, post_users, get_users_account, get_users_identity,
      put_users_id, delete_users_id, hash;
    apply try_catch_entries; cbv zeta.
  all: entries.
  all: try (apply set_entries; reflexivity).
  all: try (apply setEx_entries; cbn [ttl]; unfold ttl_of_key;
            by rewrite ?list_key_is_list_cache_key).
  all: apply same_cache_entries; intros w0;
    unfold Model.find, Model.find_page, Model.countDocuments,
      Model.findOne_select, Model.findById, Model.findOne_other,
      Model.new_User, Model.save, Model.findByIdAndUpdate, Model.deleteOne;
    repeat match goal with
           | |- context [if ?b then _ else _] => destruct b
           | |- context [match ?x with _ => _ end] => destruct x
           end;
    reflexivity.
Qed.

(** X15.  The time to live of a cache entry goes with its key.  Every
    entry that the routes leave under a key matching [users:list:*] was
    written with a time to live of 300 seconds, and every other entry
    (the point slots) without one: a cache in which this holds, the empty
    one for instance, keeps it through any sequence of requests, whatever
    fails. *)
Theorem time_to_live_goes_with_the_key
    (bcrypt_hash : string -> string) (reqs : list Request) (w : World) :
  ttl_discipline w ->
  forall k e,
    cache (serve bcrypt_hash reqs w) !! k = Some e ->
    ttl e = if list_cache_key k then Some 300 else None.
Proof.
  revert w. induction reqs as [|req reqs IH]; intros w Hw; [exact Hw|].
  cbn [serve foldl]. apply IH. by apply router_ttl.
Qed.

Lemma cold_world_ttl : ttl_discipline cold_world.
Proof. intros k e H. cbn in H. by rewrite lookup_empty in H. Qed.

Lemma time_to_live_goes_with_the_key_witness :
  exists e1 e2,
    cache (serve sample_hash
             [ GET_users first_page_of_two; GET_users_account "A1";
               POST_users carol_body; GET_users (mkListQuery None None (Some "0")) ]
             cold_world) !! "users:list:all" = Some e1
    /\ ttl e1 = Some 300
    /\ cache (serve sample_hash
                [ GET_users first_page_of_two; GET_users_account "A1";
                  POST_users carol_body;
                  GET_users (mkListQuery None None (Some "0")) ]
                cold_world) !! "user:A1" = Some e2
    /\ ttl e2 = None.
Proof.
  pose proof (time_to_live_goes_with_the_key sample_hash
                [ GET_users first_page_of_two; GET_users_account "A1";
                  POST_users carol_body;
                  GET_users (mkListQuery None None (Some "0")) ]
                cold_world cold_world_ttl) as H.
  assert (H1 : exists e,
             cache (serve sample_hash
                      [ GET_users first_page_of_two; GET_users_account "A1";
                        POST_users carol_body;
                        GET_users (mkListQuery None None (Some "0")) ]
                      cold_world) !! "users:list:all" = Some e).
  { vm_compute. eexists. reflexivity. }
  assert (H2 : exists e,
             cache (serve sample_hash
                      [ GET_users first_page_of_two; GET_users_account "A1";
                        POST_users carol_body;
                        GET_users (mkListQuery None None (Some "0")) ]
                      cold_world) !! "user:A1" = Some e).
  { vm_compute. eexists. reflexivity. }
  destruct H1 as [e1 H1], H2 as [e2 H2]. exists e1, e2.
  split; [exact H1|]. split; [exact (H _ _ H1)|].
  split; [exact H2 | exact (H _ _ H2)].
Defined.

(** ** Passwords and the cache, over any sequence of requests *)

(** X16.  No password reaches the cache or a reader.  A cache none of
    whose entries carries a [password] field, the empty one for instance,
    stays so through any sequence of requests, whatever fails; and in
    such a cache every route except the update answers with a body that
    has no [password] field anywhere, be it served from the cache or
    from the collection. *)
Theorem passwords_stay_out_of_the_cache
    (bcrypt_hash : string -> string) (reqs : list Request) (w : World) :
  cache_password_free w ->
  cache_password_free (serve bcrypt_hash reqs w)
  /\ forall req,
       (forall id updates, req <> PUT_users_id id updates) ->
       mentions "password"
         (body (response_of (router bcrypt_hash req (serve bcrypt_hash reqs w))))
       = false.
Proof.
  intros Hw.
  assert (Hserve : cache_password_free (serve bcrypt_hash reqs w)).
  { revert w Hw. induction reqs as [|req reqs IH]; intros w Hw; [exact Hw|].
    cbn [serve foldl]. apply IH.
    by destruct (router_password_free bcrypt_hash req w Hw). }
  split; [exact Hserve|]. intros req Hreq.
  by destruct (router_password_free bcrypt_hash req _ Hserve) as [_ H]; apply H.
Qed.

Lemma cold_world_password_free : cache_password_free cold_world.
Proof. intros k e H. cbn in H. by rewrite lookup_empty in H. Qed.

Lemma passwords_stay_out_of_the_cache_witness :
  cache_password_free
    (serve sample_hash
       [ POST_users carol_body; GET_users_account "A1";
         PUT_users_id 1%N rename_alice ] cold_world)
  /\ mentions "password"
       (body (response_of
                (router sample_hash (GET_users_identity "I1")
                   (serve sample_hash
                      [ POST_users carol_body; GET_users_account "A1";
                        PUT_users_id 1%N rename_alice ] cold_world))))
     = false.
Proof.
  destruct (passwords_stay_out_of_the_cache sample_hash
              [ POST_users carol_body; GET_users_account "A1";
                PUT_users_id 1%N rename_alice ] cold_world
              cold_world_password_free) as [Hc Hr].
  split; [exact Hc|]. apply Hr. intros id updates H. discriminate H.
Defined.

(** ** The keys and the totals of the list snapshots *)

(** X17.  The key of a list snapshot tells the request.  The keys
    [users:list:{page}:{limit}] of two paginated requests are equal only
    if the pages and the limits are; none of them is the key
    [users:list:all] of the unpaginated request; all of them, and
    [users:list:all], match the pattern [users:list:*] that create and
    delete clear, and no point slot [user:...] does.  The pattern matches
    exactly the keys that start with [users:list:]. *)
Theorem list_keys_tell_the_request (page limit page' limit' : Z) (x k : string) :
  (list_key page limit = list_key page' limit' -> page = page' /\ limit = limit')
  /\ list_key page limit <> "users:list:all"
  /\ list_cache_key (list_key page limit) = true
  /\ list_cache_key "users:list:all" = true
  /\ list_cache_key ("user:" +:+ x) = false
  /\ (list_cache_key k = true <-> exists t, k = "users:list:" +:+ t).
Proof.
  split; [apply list_key_inj|]. split; [apply list_key_not_all|].
  split; [apply list_key_is_list_cache_key|]. split; [reflexivity|].
  split; [apply point_key_not_list_key | apply list_cache_key_prefix].
Qed.

Lemma list_keys_tell_the_request_witness :
  list_key 1 10 <> list_key 11 0 /\ list_key 1 10 <> list_key 1 1.
Proof.
  split; intros H;
    destruct (list_keys_tell_the_request 1 10 11 0 "" "") as (H1 & _);
    destruct (list_keys_tell_the_request 1 10 1 1 "" "") as (H2 & _).
  - destruct (H1 H) as [Hp _]. discriminate Hp.
  - destruct (H2 H) as [_ Hl]. discriminate Hl.
Defined.

(** X18.  The totals of the cached pages are current while Redis works.
    In every world reached from an empty cache by requests none of whose
    Redis calls failed (entries may expire in between), every entry under
    a key matching [users:list:*] is a snapshot of the list route for that
    key, and its [totalItems] and [totalPages] are those of the present
    number of records: create and delete clear the snapshots, and an
    update does not change the count. *)
Theorem cached_totals_are_current
    (bcrypt_hash : string -> string) (w : World) (k : string) (e : CacheEntry) :
  reachable bcrypt_hash w ->
  list_cache_key k = true ->
  cache w !! k = Some e ->
  (k = "users:list:all" /\ exists users, value e = JObj [("users", JArr users)])
  \/ (exists page limit users,
        k = list_key page limit
        /\ value e
           = JObj [ ("users", JArr users);
                    ("pagination",
                     JObj [ ("currentPage", JNum page);
                            ("totalPages",
                             number_or_null
                               (JS.Math_ceil_div (Z.of_nat (length (store w))) limit));
                            ("totalItems", JNum (Z.of_nat (length (store w))));
                            ("itemsPerPage", JNum limit) ]) ]).
Proof.
  intros Hr Hk He.
  exact (reachable_current bcrypt_hash w Hr k e Hk He).
Qed.

Lemma cached_totals_are_current_witness :
  exists e, cache listed_world !! "users:list:1:2" = Some e
  /\ ((("users:list:1:2" : string) = "users:list:all"
       /\ exists users, value e = JObj [("users", JArr users)])
      \/ (exists page limit users,
            "users:list:1:2" = list_key page limit
            /\ value e
               = JObj [ ("users", JArr users);
                        ("pagination",
                         JObj [ ("currentPage", JNum page);
                                ("totalPages",
                                 number_or_null
                                   (JS.Math_ceil_div
                                      (Z.of_nat (length (store listed_world)))
                                      limit));
                                ("totalItems",
                                 JNum (Z.of_nat (length (store listed_world))));
                                ("itemsPerPage", JNum limit) ]) ])).
Proof.
  assert (He : exists e, cache listed_world !! "users:list:1:2" = Some e).
  { vm_compute. eexists. reflexivity. }
  destruct He as [e He]. exists e. split; [exact He|].
  apply (cached_totals_are_current sample_hash listed_world "users:list:1:2" e);
    [|reflexivity|exact He].
  apply (reachable_request sample_hash five_users_world
           (GET_users first_page_of_two));
    [apply reachable_cold | reflexivity].
Defined.
(** ** The page and the limit as they are sent *)



(** ** The pages of the list *)

Lemma newer_first_transitive : Transitive newer_first.
Proof. unfold newer_first. intros u v x. lia. Qed.

(** When no two records were created at the same time, the collection
    has one arrangement newest first. *)
Lemma newest_first_unique (l s1 s2 : list User) :
  NoDup (map createdAt l) ->
  Permutation s1 l -> Permutation s2 l ->
  Sorted newer_first s1 -> Sorted newer_first s2 ->
  s1 = s2.
Proof.
  intros Hnd H1 H2 Hs1 Hs2.
  apply (@Sorted_unique_strong _ newer_first newer_first_transitive);
    [|exact Hs1|exact Hs2|by rewrite H1, H2].
  intros x1 x2 Hx1 Hx2 Hle1 Hle2.
  apply (NoDup_map_eq createdAt l); [exact Hnd| | |unfold newer_first in *; lia].
  - apply list_elem_of_In. by rewrite <- H1.
  - apply list_elem_of_In. by rewrite <- H2.
Qed.

(** Consecutive slices of a list, put one after the other. *)
Lemma slices_take {A} (n limit : nat) (l : list A) :
  flat_map (fun p => take limit (drop ((p - 1) * limit) l)) (seq 1 n)
  = take (n * limit) l.
Proof.
  induction n as [|n IH]; [reflexivity|].
  rewrite seq_S, flat_map_app, IH. cbn [flat_map]. rewrite app_nil_r.
  replace ((1 + n - 1) * limit)%nat with (n * limit)%nat by lia.
  rewrite take_take_drop. f_equal. lia.
Qed.

Lemma sort_createdAt_desc_length (l : list User) :
  length (Model.sort_createdAt_desc l) = length l.
Proof. apply Permutation_length, sort_createdAt_desc_Permutation. Qed.

(** X20.  The pages cover the collection.  Let no two records have the
    same [createdAt], so that the collection has one arrangement newest
    first, and let the limit be at least 1.  A list request for the page
    [page] (at least 1, [page * limit] a safe integer) with that limit,
    both sent in decimal, which finds no snapshot and whose Redis calls
    work, answers with the records [(page - 1) * limit + 1] to
    [page * limit] of that arrangement, each without its password,
    whatever else the cache holds.  Put one after the other, the pages 1
    to [n] give every record exactly once, newest first, as soon as
    [n * limit] reaches the number of records; every page after these is
    empty. *)
Theorem pages_cover_the_collection (limit : Z) (n : nat) (l : list User) :
  1 <= limit ->
  NoDup (map createdAt l) ->
  Z.of_nat (length l) <= Z.of_nat n * limit ->
  exists sorted : list User,
    Permutation sorted l
    /\ Sorted newer_first sorted
    /\ (forall sorted' : list User,
          Permutation sorted' l -> Sorted newer_first sorted' -> sorted' = sorted)
    /\ let slice (page : nat) :=
         take (Z.to_nat limit) (drop ((page - 1) * Z.to_nat limit) sorted) in
       (forall (page : nat) (w : World),
          (1 <= page)%nat ->
          safe_integer (Z.of_nat page * limit) ->
          store w = l ->
          let q := mkListQuery (Some (JS.Number_toString (Z.of_nat page)))
                     (Some (JS.Number_toString limit)) None in
          cache w !! ("users:list:" +:+ JS.Number_toString (Z.of_nat page)
                      +:+ ":" +:+ JS.Number_toString limit) = None ->
          redis_failed (events_of (get_users q w)) = false ->
          exists pages : json,
            response_of (get_users q w)
            = res_json
                (JObj [ ("users", JArr (map public_document (slice page)));
                        ("pagination", pages) ]))
       /\ flat_map slice (seq 1 n) = sorted
       /\ (forall page : nat, (n < page)%nat -> slice page = []).
Proof.
  intros Hl Hnd Hn.
  exists (Model.sort_createdAt_desc l).
  split; [apply sort_createdAt_desc_Permutation|].
  split; [apply sort_createdAt_desc_Sorted|].
  split.
  { intros sorted' Hp Hs.
    apply (newest_first_unique l); try assumption.
    - apply sort_createdAt_desc_Permutation.
    - apply sort_createdAt_desc_Sorted. }
  cbv zeta. split; [|split].
  - intros page w Hpage _ Hst Hmiss Hok.
    set (q := mkListQuery (Some (JS.Number_toString (Z.of_nat page)))
                (Some (JS.Number_toString limit)) None) in *.
    assert (Hp : list_page q = Z.of_nat page).
    { apply asks_parseInt; [by left | lia | discriminate]. }
    assert (Hlim : list_limit q = limit).
    { apply asks_parseInt; [by left | lia | discriminate]. }
    destruct (get_users_page q w Hok ltac:(discriminate)) as [_ H].
    rewrite Hp, Hlim in H.
    destruct (H Hmiss ltac:(nia)) as [Hr _].
    eexists. rewrite Hr, Hst, limit_docs_positive by exact Hl.
    rewrite map_toJSON_minus_password.
    replace (Z.to_nat ((Z.of_nat page - 1) * limit))
      with ((page - 1) * Z.to_nat limit)%nat by nia.
    reflexivity.
  - rewrite slices_take. apply take_ge.
    rewrite sort_createdAt_desc_length. nia.
  - intros page Hp.
    rewrite drop_ge; [apply take_nil|]. rewrite sort_createdAt_desc_length. nia.
Qed.

Lemma pages_cover_the_collection_witness :
  exists sorted : list User,
    Permutation sorted (store five_users_world)
    /\ (exists pages : json,
          response_of (get_users second_page_of_two five_users_world)
          = res_json
              (JObj [ ("users",
                       JArr (map public_document (take 2 (drop 2 sorted))));
                      ("pagination", pages) ]))
    /\ (take 2 (drop 0 sorted) ++ take 2 (drop 2 sorted)
        ++ take 2 (drop 4 sorted))%list
       = sorted
    /\ take 2 (drop 6 sorted) = [].
Proof.
  destruct (pages_cover_the_collection 2 3 (store five_users_world))
    as (sorted & Hperm & _ & _ & Hpage & Hall & Hrest).
  - lia.
  - cbn. repeat (apply NoDup_cons; split); try apply NoDup_nil_2;
      rewrite ?list_elem_of_In; cbn; intuition discriminate.
  - cbn. lia.
  - exists sorted. split; [exact Hperm|]. split; [|split].
    + apply (Hpage 2%nat five_users_world);
        [lia | unfold safe_integer; lia | reflexivity | reflexivity | reflexivity].
    + cbn [flat_map seq] in Hall. rewrite app_nil_r in Hall. exact Hall.
    + apply (Hrest 4%nat). lia.
Defined.

(** X21.  The unpaginated list has every record once, newest first.
    When [paginate=0] is asked, the key [users:list:all] is not in the
    cache and Redis works, the [users] of the answer are the documents of
    a rearrangement of the whole collection in which no record comes
    before a record created later, each with its id, user name, account
    number, email address, identity number and timestamps and without
    its password; that answer is what the cache then holds, for 300
    seconds, under [users:list:all]. *)
Theorem list_has_every_record_once_newest_first (q : ListQuery) (w : World) :
  JS.parseInt (q_paginate q) = Some 0 ->
  cache w !! "users:list:all" = None ->
  redis_failed (events_of (get_users q w)) = false ->
  exists docs : list User,
    Permutation docs (store w)
    /\ Sorted newer_first docs
    /\ response_of (get_users q w)
       = res_json (JObj [("users", JArr (map public_document docs))])
    /\ cache (world_of (get_users q w)) !! "users:list:all"
       = Some (mkEntry (JObj [("users", JArr (map public_document docs))])
                 (Some 300)).
Proof.
  intros Hp Hmiss Hok.
  destruct (get_users_all q w Hok Hp) as [_ H].
  destruct (H Hmiss) as [Hr Hc].
  exists (Model.sort_createdAt_desc (store w)).
  split; [apply sort_createdAt_desc_Permutation|].
  split; [apply sort_createdAt_desc_Sorted|].
  rewrite <- map_toJSON_minus_password.
  split; [exact Hr|]. by rewrite Hc, lookup_insert_eq.
Qed.

Lemma list_has_every_record_once_newest_first_witness :
  exists docs : list User,
    Permutation docs (store two_users_world)
    /\ Sorted newer_first docs
    /\ response_of (get_users (mkListQuery None None (Some "0")) two_users_world)
       = res_json (JObj [("users", JArr (map public_document docs))])
    /\ cache (world_of (get_users (mkListQuery None None (Some "0"))
                          two_users_world)) !! "users:list:all"
       = Some (mkEntry (JObj [("users", JArr (map public_document docs))])
                 (Some 300)).
Proof.
  apply (list_has_every_record_once_newest_first
           (mkListQuery None None (Some "0")) two_users_world); reflexivity.
Defined.

(** ** The setters of the schema *)

(** X22.  The schema stores an email address in a normal form.  Trimming
    and lower-casing commute, and the setter of [emailAddress] applied to
    what it returned changes nothing; so casting a query filter twice is
    casting it once, and a record is found by its address as it is
    stored, as it was sent, or in any other case of its letters. *)
Theorem stored_email_address_is_normal (v : string) (c : Cond) (u : User) :
  Schema.emailAddress_set (Schema.emailAddress_set v) = Schema.emailAddress_set v
  /\ JS.trim (JS.toLowerCase v) = JS.toLowerCase (JS.trim v)
  /\ Schema.userName_set (Schema.userName_set v) = Schema.userName_set v
  /\ Model.cast (Model.cast c) = Model.cast c
  /\ (emailAddress u = Schema.emailAddress_set v ->
      Model.holds (Model.cast (EmailAddressIs v)) u = true
      /\ Model.holds (Model.cast (EmailAddressIs (emailAddress u))) u = true
      /\ Model.holds (Model.cast (EmailAddressIs (JS.toLowerCase v))) u = true).
Proof.
  split; [apply emailAddress_set_idempotent|].
  split; [apply trim_toLowerCase|].
  split; [apply trim_idempotent|].
  split; [destruct c; cbn [Model.cast]; by rewrite ?emailAddress_set_idempotent|].
  intros Hu. cbn [Model.cast Model.holds]. repeat split.
  - rewrite Hu. apply String.eqb_refl.
  - rewrite Hu, emailAddress_set_idempotent. apply String.eqb_refl.
  - rewrite Hu. unfold Schema.emailAddress_set.
    rewrite toLowerCase_idempotent. apply String.eqb_refl.
Qed.

Lemma stored_email_address_is_normal_witness :
  Model.holds (Model.cast (EmailAddressIs " Alice@X.COM ")) alice = true
  /\ Model.holds (Model.cast (EmailAddressIs (emailAddress alice))) alice = true
  /\ Model.holds (Model.cast (EmailAddressIs (JS.toLowerCase " Alice@X.COM "))) alice
     = true.
Proof.
  destruct (stored_email_address_is_normal " Alice@X.COM "
              (EmailAddressIs "") alice) as (_ & _ & _ & _ & H).
  apply H. reflexivity.
Defined.

(** ** The validation middlewares *)

Section Validated.

Variable isEmail : string -> bool.
Variable error_json : Validator.FieldError -> json.
Variable bcrypt_hash : string -> string.

(** The errors of [validateUser], one for each field that fails, in the
    order of the chains. *)
Lemma validateUser_errors (b : Updates) :
  validationResult (validateUser_chains isEmail b)
  = ((if String.eqb (JS.trim (default "" (upd_userName b))) ""
      then [Validator.mkFieldError "userName" (Some "") "Username is required"]
      else [])
     ++ (if String.eqb (JS.trim (default "" (upd_accountNumber b))) ""
         then [Validator.mkFieldError "accountNumber" (Some "")
                 "Account number is required"]
         else [])
     ++ (if isEmail (default "" (upd_emailAddress b)) then []
         else [Validator.mkFieldError "emailAddress" (upd_emailAddress b)
                 "Valid email address is required"])
     ++ (if String.eqb (JS.trim (default "" (upd_identityNumber b))) ""
         then [Validator.mkFieldError "identityNumber" (Some "")
                 "Identity number is required"]
         else []))%list.
Proof.
  unfold validateUser_chains, Validator.trim_notEmpty, Validator.email,
    Validator.toString. cbn [validationResult].
  repeat match goal with
         | |- context [String.eqb ?s ""] =>
             destruct (String.eqb s "") eqn:?
         end;
    repeat match goal with
           | H : String.eqb _ "" = true |- _ =>
               apply String.eqb_eq in H; rewrite ?H
           end;
    reflexivity.
Qed.

Lemma validateUser_body (b : Updates) :
  destructure (req_body (validateUser_chains isEmail b))
  = mkCreateBody (JS.trim (default "" (upd_userName b)))
      (JS.trim (default "" (upd_accountNumber b)))
      (default "" (upd_emailAddress b))
      (JS.trim (default "" (upd_identityNumber b)))
      (upd_password b).
Proof. reflexivity. Qed.

Lemma unless_errors_nil (req : Req) (next : Handler) :
  validationResult req = [] -> unless_errors error_json req next = next.
Proof. unfold unless_errors. by intros ->. Qed.

Lemma unless_errors_cons (req : Req) (next : Handler) (w : World) :
  validationResult req <> [] ->
  unless_errors error_json req next w
  = (validation_failed error_json (validationResult req), w, []).
Proof. unfold unless_errors. by destruct (validationResult req). Qed.

(** A body passes [validateUser] exactly when its four fields do. *)
Lemma validateUser_passes (b : Updates) :
  validationResult (validateUser_chains isEmail b) = [] <->
  JS.trim (default "" (upd_userName b)) <> ""
  /\ JS.trim (default "" (upd_accountNumber b)) <> ""
  /\ isEmail (default "" (upd_emailAddress b)) = true
  /\ JS.trim (default "" (upd_identityNumber b)) <> "".
Proof.
  rewrite validateUser_errors.
  destruct (String.eqb (JS.trim (default "" (upd_userName b))) "") eqn:E1;
    [apply String.eqb_eq in E1 | apply String.eqb_neq in E1].
  all: destruct (String.eqb (JS.trim (default "" (upd_accountNumber b))) "") eqn:E2;
    [apply String.eqb_eq in E2 | apply String.eqb_neq in E2].
  all: destruct (isEmail (default "" (upd_emailAddress b))) eqn:E3.
  all: destruct (String.eqb (JS.trim (default "" (upd_identityNumber b))) "") eqn:E4;
    [apply String.eqb_eq in E4 | apply String.eqb_neq in E4].
  all: cbn [app]; split; [intros H; try discriminate H; by repeat split|].
  all: intros (H1 & H2 & H3 & H4); congruence.
Qed.

Lemma post_users_route_pass (b : Updates) (w : World) :
  validationResult (validateUser_chains isEmail b) = [] ->
  post_users_route isEmail error_json bcrypt_hash b w
  = post_users bcrypt_hash
      (mkCreateBody (JS.trim (default "" (upd_userName b)))
         (JS.trim (default "" (upd_accountNumber b)))
         (default "" (upd_emailAddress b))
         (JS.trim (default "" (upd_identityNumber b)))
         (upd_password b)) w.
Proof.
  intros He. unfold post_users_route, validateUser.
  rewrite !unless_errors_nil by exact He. by rewrite validateUser_body.
Qed.

Lemma post_users_route_fail (b : Updates) (w : World) :
  validationResult (validateUser_chains isEmail b) <> [] ->
  post_users_route isEmail error_json bcrypt_hash b w
  = (validation_failed error_json
       (validationResult (validateUser_chains isEmail b)), w, []).
Proof.
  intros He. unfold post_users_route, validateUser.
  by apply unless_errors_cons.
Qed.

(** X23.  What [validateUser] lets through.  A create request reaches
    the handler exactly when its user name, account number and identity
    number have a character that is no white space and [isEmail] accepts
    its address; the handler is then given the three fields trimmed, and
    the address and the password as they were sent.  Otherwise the answer
    is 400 with one error for each failing field, among them the message
    of that field, and neither Redis nor the collection is called.  The
    password plays no part in the verdict. *)
Theorem create_validation_verdict (b : Updates) (w : World) :
  let name := JS.trim (default "" (upd_userName b)) in
  let account := JS.trim (default "" (upd_accountNumber b)) in
  let address := default "" (upd_emailAddress b) in
  let idn := JS.trim (default "" (upd_identityNumber b)) in
  let errors := validationResult (validateUser_chains isEmail b) in
  (name <> "" /\ account <> "" /\ isEmail address = true /\ idn <> "" ->
     post_users_route isEmail error_json bcrypt_hash b w
     = post_users bcrypt_hash
         (mkCreateBody name account address idn (upd_password b)) w)
  /\ (name = "" \/ account = "" \/ isEmail address = false \/ idn = "" ->
      post_users_route isEmail error_json bcrypt_hash b w
      = (res_status_json 400 (JObj [("errors", JArr (map error_json errors))]),
         w, []))
  /\ (In "Username is required" (map Validator.err_msg errors) <-> name = "")
  /\ (In "Account number is required" (map Validator.err_msg errors)
      <-> account = "")
  /\ (In "Valid email address is required" (map Validator.err_msg errors)
      <-> isEmail address = false)
  /\ (In "Identity number is required" (map Validator.err_msg errors)
      <-> idn = "").
Proof.
  intros name account address idn errors.
  pose proof (validateUser_errors b) as He.
  fold name account address idn errors in He.
  pose proof (validateUser_passes b) as Hp.
  fold name account address idn errors in Hp.
  split; [|split].
  - intros H. apply post_users_route_pass, Hp, H.
  - intros Hfail. apply post_users_route_fail. fold errors.
    intros Hnil. apply Hp in Hnil as (H1 & H2 & H3 & H4).
    destruct Hfail as [H|[H|[H|H]]]; congruence.
  - rewrite He. clear He Hp.
    destruct (String.eqb name "") eqn:E1; [apply String.eqb_eq in E1
                                          | apply String.eqb_neq in E1].
    all: destruct (String.eqb account "") eqn:E2; [apply String.eqb_eq in E2
                                                  | apply String.eqb_neq in E2].
    all: destruct (isEmail address) eqn:E3.
    all: destruct (String.eqb idn "") eqn:E4; [apply String.eqb_eq in E4
                                              | apply String.eqb_neq in E4].
    all: cbn [app map In Validator.err_msg].
    all: repeat split; intros H; try (exact E1 || exact E2 || exact E4);
      try reflexivity; try tauto; try congruence;
      try (repeat (destruct H as [H|H]; try discriminate H); by destruct H).
Qed.

(** X24.  What a validated create can still fail on.  [validateUser]
    has no rule for the password: a body that passes it and has no
    password is answered 500, with nothing written and no call made.  Of
    the validators of the schema, two are not covered by it: the document
    made of a body that passed, with its password, meets every
    [required] of the schema as soon as the hash [bcrypt] returned is not
    empty and the address is not empty once trimmed.  A create that
    passed validation answers 201, 400 or 500. *)
Theorem validated_create_fails_only_for_a_cause (b : Updates) (w : World) :
  validationResult (validateUser_chains isEmail b) = [] ->
  (upd_password b = None ->
     post_users_route isEmail error_json bcrypt_hash b w = (server_error, w, []))
  /\ (forall (p : string) (id : ObjectId),
        upd_password b = Some p ->
        bcrypt_hash p <> "" ->
        JS.trim (JS.toLowerCase (default "" (upd_emailAddress b))) <> "" ->
        Schema.validate
          (document_of bcrypt_hash
             (destructure (req_body (validateUser_chains isEmail b))) p id)
        = true)
  /\ (status (response_of (post_users_route isEmail error_json bcrypt_hash b w))
      = 201
      \/ status (response_of (post_users_route isEmail error_json bcrypt_hash b w))
         = 400
      \/ status (response_of (post_users_route isEmail error_json bcrypt_hash b w))
         = 500).
Proof.
  intros He. rewrite (post_users_route_pass b w He).
  apply validateUser_passes in He as (H1 & H2 & H3 & H4).
  split; [|split].
  - intros Hp.
    destruct (post_users_cases bcrypt_hash
                (mkCreateBody (JS.trim (default "" (upd_userName b)))
                   (JS.trim (default "" (upd_accountNumber b)))
                   (default "" (upd_emailAddress b))
                   (JS.trim (default "" (upd_identityNumber b)))
                   (upd_password b)) w)
      as [[_ Ho]|(p & Hp' & _)]; [exact Ho|].
    cbn [body_password] in Hp'. congruence.
  - intros p id _ Hh Haddr. rewrite validateUser_body.
    unfold Schema.validate, document_of, destructure, Schema.required,
      Schema.userName_set, Schema.emailAddress_set.
    cbn [userName accountNumber emailAddress identityNumber password
         body_userName body_accountNumber body_emailAddress
         body_identityNumber].
    rewrite trim_idempotent.
    apply String.eqb_neq in H1, H2, H4, Hh, Haddr.
    by rewrite H1, H2, H4, Hh, Haddr.
  - destruct (post_users_cases bcrypt_hash
                (mkCreateBody (JS.trim (default "" (upd_userName b)))
                   (JS.trim (default "" (upd_accountNumber b)))
                   (default "" (upd_emailAddress b))
                   (JS.trim (default "" (upd_identityNumber b)))
                   (upd_password b)) w)
      as [[Hp Ho]|(p & Hp & [(Hv & Hr & _)
                            |[(_ & _ & Hr & _)
                             |(_ & _ & _ & [[H201 _]|[Hr Hf]])]])].
    + rewrite Ho. by right; right.
    + rewrite Hr. by right; right.
    + rewrite Hr. by right; left.
    + rewrite H201. by left.
    + rewrite Hr. by right; right.
Qed.

(** The errors of [validateUserUpdate]: a field that is absent gives
    none. *)
Lemma validateUserUpdate_errors (b : Updates) :
  validationResult (validateUserUpdate_chains isEmail b)
  = (from_option
       (fun v => if String.eqb (JS.trim v) ""
                 then [Validator.mkFieldError "userName" (Some "")
                         "Username cannot be empty if provided"]
                 else []) [] (upd_userName b)
     ++ from_option
          (fun v => if String.eqb (JS.trim v) ""
                    then [Validator.mkFieldError "accountNumber" (Some "")
                            "Account number cannot be empty if provided"]
                    else []) [] (upd_accountNumber b)
     ++ from_option
          (fun v => if isEmail v then []
                    else [Validator.mkFieldError "emailAddress" (Some v)
                            "Valid email address is required if provided"])
          [] (upd_emailAddress b)
     ++ from_option
          (fun v => if String.eqb (JS.trim v) ""
                    then [Validator.mkFieldError "identityNumber" (Some "")
                            "Identity number cannot be empty if provided"]
                    else []) [] (upd_identityNumber b))%list.
Proof.
  unfold validateUserUpdate_chains, Validator.optional, Validator.trim_notEmpty,
    Validator.email, Validator.toString.
  destruct (upd_userName b), (upd_accountNumber b), (upd_emailAddress b),
    (upd_identityNumber b); cbn [validationResult from_option default id];
    repeat match goal with
           | |- context [String.eqb ?s ""] =>
               destruct (String.eqb s "") eqn:?
           end;
    repeat match goal with
           | H : String.eqb _ "" = true |- _ =>
               apply String.eqb_eq in H; rewrite ?H
           end;
    reflexivity.
Qed.

Lemma validateUserUpdate_body (b : Updates) :
  req_body (validateUserUpdate_chains isEmail b)
  = mkUpdates (JS.trim <$> upd_userName b) (JS.trim <$> upd_accountNumber b)
      (upd_emailAddress b) (JS.trim <$> upd_identityNumber b) (upd_password b).
Proof.
  unfold validateUserUpdate_chains, Validator.optional, Validator.trim_notEmpty,
    Validator.email, Validator.toString.
  by destruct (upd_userName b), (upd_accountNumber b), (upd_emailAddress b),
    (upd_identityNumber b).
Qed.

(** A body passes [validateUserUpdate] exactly when each field it has
    passes. *)
Lemma validateUserUpdate_passes (b : Updates) :
  validationResult (validateUserUpdate_chains isEmail b) = [] <->
  (forall v, upd_userName b = Some v -> JS.trim v <> "")
  /\ (forall v, upd_accountNumber b = Some v -> JS.trim v <> "")
  /\ (forall v, upd_emailAddress b = Some v -> isEmail v = true)
  /\ (forall v, upd_identityNumber b = Some v -> JS.trim v <> "").
Proof.
  rewrite validateUserUpdate_errors.
  destruct (upd_userName b) as [n|], (upd_accountNumber b) as [a|],
    (upd_emailAddress b) as [e|], (upd_identityNumber b) as [i|];
    cbn [from_option].
  all: repeat match goal with
              | |- context [String.eqb ?s ""] =>
                  let E := fresh "E" in
                  destruct (String.eqb s "") eqn:E;
                  [apply String.eqb_eq in E | apply String.eqb_neq in E]
              | |- context [if isEmail ?v then _ else _] =>
                  let E := fresh "E" in destruct (isEmail v) eqn:E
              end.
  all: cbn [app]; split;
    [ intros H; try discriminate H; repeat split; intros ? [= <-]; assumption
    | intros (H1 & H2 & H3 & H4); try reflexivity;
      try (by destruct (H1 _ eq_refl)); try (by destruct (H2 _ eq_refl));
      try (by destruct (H4 _ eq_refl));
      try (specialize (H3 _ eq_refl); congruence) ].
Qed.

(** X25.  What [validateUserUpdate] lets through.  An update request
    reaches the handler exactly when each field it has passes: a user
    name, account number or identity number with a character that is no
    white space, an address that [isEmail] accepts; a body with none of
    them passes.  Otherwise the answer is 400 and nothing is called.  The
    handler is given the three fields trimmed; and, [isEmail] refusing the
    empty string, every unique field that is present is then a non-empty
    string, so the conflict query is run exactly when the body has one of
    the three unique fields, with one condition for each that it has. *)
Theorem update_validation_verdict (id : ObjectId) (b : Updates) (w : World) :
  isEmail "" = false ->
  let req := validateUserUpdate_chains isEmail b in
  (validationResult req = [] <->
     (forall v, upd_userName b = Some v -> JS.trim v <> "")
     /\ (forall v, upd_accountNumber b = Some v -> JS.trim v <> "")
     /\ (forall v, upd_emailAddress b = Some v -> isEmail v = true)
     /\ (forall v, upd_identityNumber b = Some v -> JS.trim v <> ""))
  /\ (validationResult req <> [] ->
      put_users_id_route isEmail error_json id b w
      = (res_status_json 400
           (JObj [("errors", JArr (map error_json (validationResult req)))]),
         w, []))
  /\ (validationResult req = [] ->
      put_users_id_route isEmail error_json id b w
      = put_users_id id
          (mkUpdates (JS.trim <$> upd_userName b) (JS.trim <$> upd_accountNumber b)
             (upd_emailAddress b) (JS.trim <$> upd_identityNumber b)
             (upd_password b)) w
      /\ or_conditions (req_body req)
         = (from_option (fun v => [AccountNumberIs (JS.trim v)]) []
              (upd_accountNumber b)
            ++ from_option (fun v => [EmailAddressIs v]) [] (upd_emailAddress b)
            ++ from_option (fun v => [IdentityNumberIs (JS.trim v)]) []
                 (upd_identityNumber b))%list
      /\ (JS.truthy (upd_accountNumber (req_body req))
          || JS.truthy (upd_emailAddress (req_body req))
          || JS.truthy (upd_identityNumber (req_body req)) = true
          <-> upd_accountNumber b <> None \/ upd_emailAddress b <> None
              \/ upd_identityNumber b <> None)).
Proof.
  intros Hempty req.
  split; [apply validateUserUpdate_passes|]. split.
  - intros He. unfold put_users_id_route, validateUserUpdate.
    by apply unless_errors_cons.
  - intros He. unfold put_users_id_route, validateUserUpdate. fold req.
    rewrite unless_errors_nil by exact He.
    unfold req. rewrite validateUserUpdate_body.
    split; [reflexivity|].
    apply validateUserUpdate_passes in He as (_ & Ha & Hm & Hi).
    unfold or_conditions.
    cbn [upd_accountNumber upd_emailAddress upd_identityNumber].
    assert (Hta : JS.truthy (JS.trim <$> upd_accountNumber b)
                  = bool_decide (upd_accountNumber b <> None)).
    { destruct (upd_accountNumber b) as [a|]; [|reflexivity].
      cbn [fmap option_fmap option_map]. by rewrite (truthy_Some _ (Ha a eq_refl)). }
    assert (Hte : JS.truthy (upd_emailAddress b)
                  = bool_decide (upd_emailAddress b <> None)).
    { destruct (upd_emailAddress b) as [e|]; [|reflexivity].
      rewrite truthy_Some; [reflexivity|]. intros ->.
      specialize (Hm "" eq_refl). congruence. }
    assert (Hti : JS.truthy (JS.trim <$> upd_identityNumber b)
                  = bool_decide (upd_identityNumber b <> None)).
    { destruct (upd_identityNumber b) as [i|]; [|reflexivity].
      cbn [fmap option_fmap option_map]. by rewrite (truthy_Some _ (Hi i eq_refl)). }
    rewrite Hta, Hte, Hti.
    destruct (upd_accountNumber b), (upd_emailAddress b), (upd_identityNumber b);
      cbn; split; try reflexivity; split; intros H; try reflexivity;
      try discriminate H; try (by left); try (by right; left);
      try (by right; right); destruct H as [H|[H|H]]; by destruct H.
Qed.

End Validated.

Lemma create_validation_verdict_witness :
  post_users_route sample_isEmail sample_error_json sample_hash carol_request
    cached_world
  = post_users sample_hash carol_body cached_world
  /\ post_users_route sample_isEmail sample_error_json sample_hash
       (mkUpdates (Some "  ") (Some "C3") (Some "carol") None (Some "secret3"))
       cached_world
     = (res_status_json 400
          (JObj [("errors",
                  JArr [ JObj [ ("msg", JStr "Username is required");
                                ("path", JStr "userName") ];
                         JObj [ ("msg", JStr "Valid email address is required");
                                ("path", JStr "emailAddress") ];
                         JObj [ ("msg", JStr "Identity number is required");
                                ("path", JStr "identityNumber") ] ])]),
        cached_world, []).
Proof.
  destruct (create_validation_verdict sample_isEmail sample_error_json sample_hash
              carol_request cached_world) as (Hpass & _).
  destruct (create_validation_verdict sample_isEmail sample_error_json sample_hash
              (mkUpdates (Some "  ") (Some "C3") (Some "carol") None (Some "secret3"))
              cached_world) as (_ & Hfail & _).
  split.
  - apply Hpass. by repeat split.
  - apply Hfail. by left.
Defined.


Lemma validated_create_fails_only_for_a_cause_witness :
  post_users_route sample_isEmail sample_error_json sample_hash
    (mkUpdates (Some "Dan") (Some "D4") (Some "dan@x.com") (Some "I4") None)
    cached_world
  = (server_error, cached_world, [])
  /\ Schema.validate
       (document_of sample_hash
          (destructure (req_body (validateUser_chains sample_isEmail carol_request)))
          "secret3" 2%N)
     = true.
Proof.
  destruct (validated_create_fails_only_for_a_cause sample_isEmail
              sample_error_json sample_hash
              (mkUpdates (Some "Dan") (Some "D4") (Some "dan@x.com") (Some "I4") None)
              cached_world) as (H & _); [reflexivity|].
  destruct (validated_create_fails_only_for_a_cause sample_isEmail
              sample_error_json sample_hash carol_request cached_world)
    as (_ & Hv & _); [reflexivity|].
  split; [apply H; reflexivity|].
  apply Hv; [reflexivity | discriminate | discriminate].
Defined.

Lemma update_validation_verdict_witness :
  put_users_id_route sample_isEmail sample_error_json 1%N
    (mkUpdates None (Some " A9 ") None None None) cached_world
  = put_users_id 1%N move_alice cached_world
  /\ put_users_id_route sample_isEmail sample_error_json 1%N
       (mkUpdates None (Some " ") None None None) cached_world
     = (res_status_json 400
          (JObj [("errors",
                  JArr [ JObj [ ("msg",
                                 JStr "Account number cannot be empty if provided");
                                ("path", JStr "accountNumber") ] ])]),
        cached_world, []).
Proof.
  destruct (update_validation_verdict sample_isEmail sample_error_json 1%N
              (mkUpdates None (Some " A9 ") None None None) cached_world eq_refl)
    as (_ & _ & Hpass).
  destruct (update_validation_verdict sample_isEmail sample_error_json 1%N
              (mkUpdates None (Some " ") None None None) cached_world eq_refl)
    as (_ & Hfail & _).
  split.
  - destruct Hpass as [H _]; [reflexivity|]. exact H.
  - apply Hfail. discriminate.
Defined.

(** ** Fresh answers after a write *)

Lemma list_request_key_is_list_cache_key (q : ListQuery) :
  list_cache_key (list_request_key q) = true.
Proof.
  unfold list_request_key.
  destruct (is_not_zero _); [apply list_key_is_list_cache_key | reflexivity].
Qed.

(** A list request that does not find its key reads the collection. *)
Lemma get_users_miss (q : ListQuery) (w : World) :
  cache w !! list_request_key q = None ->
  redis_failed (events_of (get_users q w)) = false ->
  (is_not_zero (JS.parseInt (q_paginate q)) = true ->
   0 <= (list_page q - 1) * list_limit q) ->
  response_of (get_users q w) = res_json (list_answer q (store w))
  /\ cache (world_of (get_users q w))
     = <[list_request_key q := mkEntry (list_answer q (store w)) (Some 300)]>
         (cache w)
  /\ store (world_of (get_users q w)) = store w.
Proof.
  unfold get_users, list_request_key, list_answer, page_documents, try_catch,
    bind, Redis.get, Redis.setEx, Redis.call, Model.find, Model.find_page,
    Model.countDocuments, ret, events_of, response_of, world_of.
  open_world w.
  destruct (is_not_zero (JS.parseInt (q_paginate q))); cbn [negb]; steps.
  all: intros Hmiss; next_fault; steps; try (by intros).
  all: rewrite Hmiss; cbn [fmap option_fmap option_map]; steps.
  all: try match goal with
       | |- context [?a <? 0] => destruct (a <? 0) eqn:Hneg; steps
       end.
  all: try (intros _ Hskip; apply Z.ltb_lt in Hneg; specialize (Hskip eq_refl); lia).
  all: try (next_fault; steps; try (by intros)).
  all: by intros _ _.
Qed.

(** X26.  Lists are fresh after a create and after a delete.  Both
    routes clear every key matching [users:list:*] when they succeed, so
    the next list request, whatever its page and limit, does not find its
    key: it reads the collection as it is now, with the new record or
    without the deleted one, and its totals count the present records.
    (An update clears nothing: see X7.) *)
Theorem list_is_fresh_after_create_and_delete
    (bcrypt_hash : string -> string) (b : CreateBody) (id : ObjectId)
    (q : ListQuery) (w : World) (f : list bool) :
  (is_not_zero (JS.parseInt (q_paginate q)) = true ->
   0 <= (list_page q - 1) * list_limit q) ->
  (status (response_of (post_users bcrypt_hash b w)) = 201 ->
   let w' := set_faults f (world_of (post_users bcrypt_hash b w)) in
   redis_failed (events_of (get_users q w')) = false ->
   response_of (get_users q w') = res_json (list_answer q (store w'))
   /\ exists u, store w' = (store w ++ [u])%list)
  /\ (status (response_of (delete_users_id id w)) = 200 ->
      let w' := set_faults f (world_of (delete_users_id id w)) in
      redis_failed (events_of (get_users q w')) = false ->
      response_of (get_users q w') = res_json (list_answer q (store w'))
      /\ store w' = Model.remove_first id (store w)).
Proof.
  intros Hskip. split; intros Hs w' Hok.
  - destruct (post_users_created bcrypt_hash b w Hs)
      as (p & u & _ & _ & _ & Hst & Hc & _).
    split; [|by exists u].
    apply get_users_miss; [|exact Hok|exact Hskip].
    unfold w'. cbn [set_faults cache].
    by rewrite Hc, list_request_key_is_list_cache_key.
  - destruct (delete_users_id_deleted id w Hs) as (t & _ & Hst & Hc & _).
    split; [|exact Hst].
    apply get_users_miss; [|exact Hok|exact Hskip].
    unfold w'. cbn [set_faults cache].
    by rewrite Hc, list_request_key_is_list_cache_key.
Qed.

Lemma list_is_fresh_after_create_and_delete_witness :
  response_of
    (get_users first_page_of_two
       (set_faults [] (world_of (post_users sample_hash dora_body listed_world))))
  = res_json
      (list_answer first_page_of_two
         (store (set_faults []
                   (world_of (post_users sample_hash dora_body listed_world)))))
  /\ response_of
       (get_users first_page_of_two
          (set_faults [] (world_of (delete_users_id 5%N listed_world))))
     = res_json
         (list_answer first_page_of_two
            (store (set_faults [] (world_of (delete_users_id 5%N listed_world))))).
Proof.
  destruct (list_is_fresh_after_create_and_delete sample_hash dora_body 5%N
              first_page_of_two listed_world []) as [Hc Hd].
  { intros _. vm_compute. discriminate. }
  split.
  - apply Hc; reflexivity.
  - apply Hd; reflexivity.
Defined.

(** X27.  After an update, the lookup by account number is fresh.  In a
    collection that respects its unique indexes, once an update has
    answered 200 the slot of the account number the record has now is
    empty; the next lookup by that account number reads the collection,
    answers with the updated record (its id, user name, account number,
    email address, identity number and timestamps, and no password), and
    fills the slot with it, without expiry. *)
Theorem account_lookup_after_update_is_fresh
    (id : ObjectId) (updates : Updates) (w : World) (f : list bool) :
  store_unique (store w) ->
  status (response_of (put_users_id id updates w)) = 200 ->
  exists updated : User,
    List.find (fun u => N.eqb (_id u) id)
      (store (world_of (put_users_id id updates w))) = Some updated
    /\ let w' := set_faults f (world_of (put_users_id id updates w)) in
       cache w' !! ("user:" +:+ accountNumber updated) = None
       /\ (redis_failed
             (events_of (get_users_account (accountNumber updated) w')) = false ->
           response_of (get_users_account (accountNumber updated) w')
           = res_json (public_document updated)
           /\ cache (world_of (get_users_account (accountNumber updated) w'))
                !! ("user:" +:+ accountNumber updated)
              = Some (mkEntry (public_document updated) None)).
Proof.
  intros Hu Hs.
  destruct (put_users_id_updated _ _ _ Hs) as (t & u & Ht & Hdef & Hst & Hc & _).
  pose proof (router_unique (fun p => p) (PUT_users_id id updates) w Hu) as Hu'.
  cbn [router] in Hu'.
  apply find_by_id_Some in Ht as Hid. destruct Hid as [_ Hid].
  assert (Huid : _id u = id) by (by rewrite Hdef).
  assert (Hfind : List.find (fun v => N.eqb (_id v) id)
                    (store (world_of (put_users_id id updates w))) = Some u).
  { rewrite Hst. by eapply replace_first_find. }
  exists u. split; [exact Hfind|]. intros w'.
  assert (Hmiss : cache w' !! ("user:" +:+ accountNumber u) = None).
  { unfold w'. cbn [set_faults cache]. rewrite Hc.
    destruct (decide ("user:" +:+ accountNumber u = "user:" +:+ identityNumber u))
      as [->|Hne].
    - apply lookup_delete_eq.
    - rewrite lookup_delete_ne by congruence. apply lookup_delete_eq. }
  split; [exact Hmiss|]. intros Hok.
  assert (Hq : List.find (Model.holds (AccountNumberIs (accountNumber u))) (store w')
               = Some u).
  { apply find_by_id_Some in Hfind as [Hin _].
    destruct (find_some_of_exists (Model.holds (AccountNumberIs (accountNumber u)))
                (store w') u) as [x Hx].
    - exact Hin.
    - cbn [Model.holds]. apply String.eqb_refl.
    - rewrite Hx. f_equal. apply find_some in Hx as [Hxin Hxa].
      cbn [Model.holds] in Hxa. apply String.eqb_eq in Hxa.
      destruct Hu' as (_ & Hacc & _).
      by apply (NoDup_map_eq accountNumber (store w')). }
  destruct (get_users_account_read_through (accountNumber u) w' Hok)
    as (_ & _ & _ & Hfound).
  destruct (Hfound u Hmiss Hq) as (Hr & _ & Hcache & _).
  split; [exact Hr|]. rewrite Hcache. apply lookup_insert_eq.
Qed.

Lemma account_lookup_after_update_is_fresh_witness :
  exists updated : User,
    List.find (fun u => N.eqb (_id u) 1%N)
      (store (world_of (put_users_id 1%N rename_alice cached_world)))
    = Some updated
    /\ cache (set_faults [] (world_of (put_users_id 1%N rename_alice cached_world)))
         !! ("user:" +:+ accountNumber updated) = None
    /\ response_of
         (get_users_account (accountNumber updated)
            (set_faults [] (world_of (put_users_id 1%N rename_alice cached_world))))
       = res_json (public_document updated).
Proof.
  destruct (account_lookup_after_update_is_fresh 1%N rename_alice cached_world []
              cached_world_unique eq_refl) as (u & Hf & Hm & Hget).
  exists u. split; [exact Hf|]. split; [exact Hm|].
  destruct Hget as [Hr _]; [|exact Hr].
  (* the lookup in the world after the update makes no failing call *)
  assert (Hu : u = mkUser 1%N "Alicia" "A1" "alice@x.com" "I1" "$2a$10$secret1"
                     1000 3000).
  { vm_compute in Hf. by injection Hf as <-. }
  rewrite Hu. reflexivity.
Defined.

(** ** A record may keep its own values *)

(** X28.  A record is no conflict for itself.  In a collection that
    respects its unique indexes, an update that asks, in account number,
    email address and identity number, only for values the record has
    already (the address in any case of its letters) is never refused with
    400: the conflict query leaves the record itself out.  When the
    validators accept the body and the two [DEL] work the answer is 200,
    and the three fields of the record are as before. *)
Theorem update_with_own_values_is_no_conflict
    (id : ObjectId) (updates : Updates) (w : World) (target : User) :
  store_unique (store w) ->
  List.find (fun u => N.eqb (_id u) id) (store w) = Some target ->
  asks_own_values updates target ->
  status (response_of (put_users_id id updates w)) <> 400
  /\ (Model.update_valid (Model.cast_update updates) = true ->
      redis_failed (events_of (put_users_id id updates w)) = false ->
      exists updated,
        response_of (put_users_id id updates w) = res_json (Schema.toJSON updated)
        /\ List.find (fun u => N.eqb (_id u) id)
             (store (world_of (put_users_id id updates w))) = Some updated
        /\ accountNumber updated = accountNumber target
        /\ emailAddress updated = emailAddress target
        /\ identityNumber updated = identityNumber target).
Proof.
  intros (Hid & Hacc & Hem & Hidn) Ht (Oa & Oe & Oi).
  apply find_by_id_Some in Ht as Hin. destruct Hin as [Hin Htid].
  assert (Hself : forall other, In other (store w) -> _id other <> id ->
                    ~ owns_requested_value updates other).
  { intros other Ho Hne [(v & Hv & _ & Heq)|[(v & Hv & _ & Heq)|(v & Hv & _ & Heq)]];
      apply Hne; rewrite <- Htid; f_equal.
    - apply (NoDup_map_eq accountNumber (store w)); try assumption.
      by rewrite Heq, (Oa v Hv).
    - apply (NoDup_map_eq emailAddress (store w)); try assumption.
      by rewrite Heq, (Oe v Hv).
    - apply (NoDup_map_eq identityNumber (store w)); try assumption.
      by rewrite Heq, (Oi v Hv). }
  destruct (put_users_id_cases id updates w)
    as [(Hn & _)
       |[(t & o & _ & Ho & Hne & Hown & _)
        |[(t & _ & _ & Hv & [msg Hr] & _)
         |(t & Ht' & _ & Hv & Hs & Hout)]]].
  - rewrite Ht in Hn. discriminate Hn.
  - by destruct (Hself o Ho Hne).
  - rewrite Hr. split; [discriminate|]. intros Hv'. congruence.
  - rewrite Ht in Ht'. injection Ht' as <-.
    split; [destruct Hout as [[-> _]|[[msg ->] _]]; discriminate|].
    intros _ Hok. destruct Hout as [[H200 _]|[_ Hf]]; [|congruence].
    destruct (put_users_id_updated _ _ _ H200) as (t & u & Ht' & Hu & Hst & _ & Hr).
    rewrite Ht in Ht'. injection Ht' as <-.
    exists u. split; [exact Hr|]. split.
    + rewrite Hst. eapply replace_first_find; [exact Ht|]. by rewrite Hu.
    + rewrite Hu. unfold Model.apply_set, Model.cast_update.
      cbn [accountNumber emailAddress identityNumber upd_accountNumber
           upd_emailAddress upd_identityNumber].
      repeat split.
      * destruct (upd_accountNumber updates) as [v|] eqn:E; [|reflexivity].
        cbn. by rewrite (Oa v).
      * destruct (upd_emailAddress updates) as [v|] eqn:E; [|reflexivity].
        cbn. by rewrite (Oe v).
      * destruct (upd_identityNumber updates) as [v|] eqn:E; [|reflexivity].
        cbn. by rewrite (Oi v).
Qed.

Lemma update_with_own_values_is_no_conflict_witness :
  status (response_of (put_users_id 1%N alice_again two_users_world)) <> 400
  /\ exists updated,
       response_of (put_users_id 1%N alice_again two_users_world)
       = res_json (Schema.toJSON updated)
       /\ List.find (fun u => N.eqb (_id u) 1%N)
            (store (world_of (put_users_id 1%N alice_again two_users_world)))
          = Some updated
       /\ accountNumber updated = accountNumber alice
       /\ emailAddress updated = emailAddress alice
       /\ identityNumber updated = identityNumber alice.
Proof.
  assert (Hu : store_unique (store two_users_world)).
  { repeat split; cbn; repeat (apply NoDup_cons; split);
      try apply NoDup_nil_2; rewrite ?list_elem_of_In; cbn; intuition discriminate. }
  assert (Ho : asks_own_values alice_again alice).
  { repeat split; intros v [= <-]; reflexivity. }
  destruct (update_with_own_values_is_no_conflict 1%N alice_again two_users_world
              alice Hu eq_refl Ho) as [H400 H200].
  split; [exact H400|]. apply H200; reflexivity.
Defined.
